(** * AI_Image_generator: prompt classification, procedural rendering and the
      memory store, embedded from [app/test_app.py], [app/main.py],
      [app/app.py], [app/datastore/chroma_memory.py], [app/model_viewer.py]
      and [app/core/stub.py].

    Conventions of the embedding.
    - A Python [str] is modelled as the [string] of its UTF-8 bytes; [len],
      [split], [strip] and [lower] work on its characters.  [str.lower]
      folds the letters A-Z, the Kelvin sign and the dotted capital I as
      written out in [Str.lower_char]; for every other character it reads
      the interpreter's Unicode database, the [Unicode] interface.
    - Python floats are computed over the exact rationals [Q]; [int(x)] is
      truncation toward zero.  [math.sin] and [math.pi] are supplied by the
      host.
    - Everything the process obtains from outside (the [random] module, the
      clock, the PNG encoder, the outcome of a database insert) is read
      through the [Host] interface from an explicit host state.
    - An image is the sequence of calls made on [ImageDraw.Draw], each kept
      with the block of the drawing code it comes from.  A call whose colour
      is a tuple of floats raises [TypeError]: nothing is drawn by it and the
      calls after it are not made.
    - Logging, the [configurations] dictionary and the construction of the
      [Stub], which is never called, do not bear on what is returned, written
      or stored and are left out; the text of the HTML viewer pages is kept
      abstract. *)

From Stdlib Require Import ZArith QArith Qabs Qminmax String Ascii List Bool Sorted Lia.
From stdpp Require Import gmap.
From Stdlib Require Import Qround Lqa.
Import ListNotations.

#[local] Open Scope string_scope.
#[local] Open Scope list_scope.
#[local] Open Scope Z_scope.

(** String concatenation, kept apart from list append. *)
Infix "+++" := String.append (at level 60, right associativity).
#[local] Arguments String.append !_ _ : simpl nomatch.

(** ** Strings as Python uses them *)

Module Str.

(** A [str] is kept as its UTF-8 encoding: a byte below 128 is an ASCII
    character, a character outside ASCII is a lead byte with the
    continuation bytes (128..191) that follow it. *)
Definition is_ascii (c : ascii) : bool := (nat_of_ascii c <? 128)%nat.

Definition is_continuation (c : ascii) : bool :=
  let n := nat_of_ascii c in ((128 <=? n)%nat && (n <? 192)%nat)%bool.

Definition starts_inside (s : string) : bool :=
  match s with
  | String c _ => is_continuation c
  | EmptyString => false
  end.

(** The characters of a text, in order, each with its bytes. *)
Fixpoint chars (s : string) : list string :=
  match s with
  | EmptyString => []
  | String c t =>
      match chars t with
      | ch :: rest =>
          if (negb (is_ascii c) && starts_inside ch)%bool then String c ch :: rest
          else String c EmptyString :: ch :: rest
      | [] => [String c EmptyString]
      end
  end.

(** Every byte of [s] is ASCII. *)
Fixpoint ascii_only (s : string) : bool :=
  match s with
  | EmptyString => true
  | String c t => (is_ascii c && ascii_only t)%bool
  end.

(** No byte of [s] is ASCII. *)
Fixpoint wide (s : string) : bool :=
  match s with
  | EmptyString => true
  | String c t => (negb (is_ascii c) && wide t)%bool
  end.

Definition byte (n : Z) : ascii := ascii_of_nat (Z.to_nat n).

(** The character with code point [cp]. *)
Definition chr (cp : Z) : string :=
  if cp <? 128 then String (byte cp) EmptyString
  else if cp <? 2048 then
    String (byte (192 + cp / 64)) (String (byte (128 + cp mod 64)) EmptyString)
  else if cp <? 65536 then
    String (byte (224 + cp / 4096))
      (String (byte (128 + (cp / 64) mod 64)) (String (byte (128 + cp mod 64)) EmptyString))
  else
    String (byte (240 + cp / 262144))
      (String (byte (128 + (cp / 4096) mod 64))
         (String (byte (128 + (cp / 64) mod 64))
            (String (byte (128 + cp mod 64)) EmptyString))).

(** [ord(ch)] *)
Definition ord (ch : string) : Z :=
  let n (c : ascii) := Z.of_nat (nat_of_ascii c) in
  match ch with
  | EmptyString => 0
  | String a EmptyString => n a
  | String a (String b EmptyString) => (n a - 192) * 64 + (n b - 128)
  | String a (String b (String c EmptyString)) =>
      (n a - 224) * 4096 + (n b - 128) * 64 + (n c - 128)
  | String a (String b (String c (String d _))) =>
      (n a - 240) * 262144 + (n b - 128) * 4096 + (n c - 128) * 64 + (n d - 128)
  end.

(** [c.lower()] on one ASCII character. *)
Definition lower_ascii (c : ascii) : ascii :=
  let n := nat_of_ascii c in
  if (Nat.leb 65 n && Nat.leb n 90)%bool then ascii_of_nat (n + 32) else c.

(** The fold of the letters A-Z alone, byte by byte. *)
Fixpoint ascii_lower (s : string) : string :=
  match s with
  | EmptyString => EmptyString
  | String c t => String (lower_ascii c) (ascii_lower t)
  end.

(** [s.startswith(p)] *)
Fixpoint startswith (p s : string) : bool :=
  match p, s with
  | EmptyString, _ => true
  | String _ _, EmptyString => false
  | String a p', String b s' => (Ascii.eqb a b && startswith p' s')%bool
  end.

(** [needle in s] for two strings: substring search. *)
Fixpoint contains (needle s : string) : bool :=
  (startswith needle s ||
   match s with
   | EmptyString => false
   | String _ t => contains needle t
   end)%bool.

(** [any(k in s for k in kws)] *)
Definition any_in (kws : list string) (s : string) : bool :=
  existsb (fun k => contains k s) kws.

(** [sep.join(l)] *)
Fixpoint join (sep : string) (l : list string) : string :=
  match l with
  | [] => EmptyString
  | [x] => x
  | x :: rest => x +++ sep +++ join sep rest
  end.

(** The characters outside ASCII that Python counts as white space. *)
Definition wide_spaces : list Z :=
  [133; 160; 5760; 8192; 8193; 8194; 8195; 8196; 8197; 8198; 8199; 8200; 8201; 8202;
   8232; 8233; 8239; 8287; 12288].

(** [ch.isspace()] for one character: in ASCII the tab, LF, VT, FF, CR, the
    four separators 0x1c-0x1f and the space. *)
Definition is_space (ch : string) : bool :=
  match ch with
  | String c EmptyString =>
      let n := nat_of_ascii c in
      ((Nat.leb 9 n && Nat.leb n 13) || (Nat.leb 28 n && Nat.leb n 32))%bool
  | _ => existsb (fun cp => String.eqb ch (chr cp)) wide_spaces
  end.

(** [s.split()]: the maximal runs of characters that are not white space, in
    order. *)
Fixpoint split_chars (l : list string) : list string :=
  match l with
  | [] => []
  | c :: t =>
      let rest := split_chars t in
      if is_space c then rest
      else if match t with d :: _ => negb (is_space d) | [] => false end
      then match rest with
           | w :: ws => (c +++ w) :: ws
           | [] => [c]
           end
      else c :: rest
  end.

Definition split (s : string) : list string := split_chars (chars s).

Fixpoint lstrip_chars (l : list string) : list string :=
  match l with
  | c :: t => if is_space c then lstrip_chars t else l
  | [] => []
  end.

Fixpoint rstrip_chars (l : list string) : list string :=
  match l with
  | [] => []
  | c :: t =>
      match rstrip_chars t with
      | [] => if is_space c then [] else [c]
      | t' => c :: t'
      end
  end.

(** [s.strip()] *)
Definition strip (s : string) : string :=
  join EmptyString (lstrip_chars (rstrip_chars (chars s))).

(** [s.split(sep, 1)[0]]: the text before the first occurrence of [sep]. *)
Fixpoint before_first (sep s : string) : string :=
  if startswith sep s then EmptyString
  else match s with
       | EmptyString => EmptyString
       | String c t => String c (before_first sep t)
       end.

(** [s.split(sep)] for a one-character ASCII separator. *)
Fixpoint split_on (sep : ascii) (s : string) : list string :=
  match s with
  | EmptyString => [EmptyString]
  | String c t =>
      if Ascii.eqb c sep then EmptyString :: split_on sep t
      else match split_on sep t with
           | w :: ws => String c w :: ws
           | [] => [String c EmptyString]
           end
  end.

(** [len(s)]: the number of characters. *)
Definition len (s : string) : Z := Z.of_nat (length (chars s)).

(** [x in l] for a list of strings. *)
Definition mem (x : string) (l : list string) : bool :=
  existsb (String.eqb x) l.

Definition nl : string := String (ascii_of_nat 10) EmptyString.

(** [str(n)] for an [int]. *)
Definition digit (d : Z) : ascii := ascii_of_nat (48 + Z.to_nat d).

Fixpoint digits (fuel : nat) (n : Z) (acc : string) : string :=
  match fuel with
  | O => acc
  | S fuel' =>
      let acc' := String (digit (n mod 10)) acc in
      if n / 10 =? 0 then acc' else digits fuel' (n / 10) acc'
  end.

Definition str_of_int (n : Z) : string :=
  if n <? 0 then String "-" (digits (Z.to_nat (Z.log2 (- n)) + 1) (- n) EmptyString)
  else digits (Z.to_nat (Z.log2 n) + 1) n EmptyString.

(** The interpreter's Unicode database, as far as [str.lower] reads it.
    [lower_wide before ch after] is what [ch], a character outside ASCII,
    becomes between the texts [before] and [after] (the text around it
    decides for the capital sigma).  Apart from the two characters
    [lower_char] writes out, a character outside ASCII becomes a text
    outside ASCII, and not the empty one. *)
Class Unicode := {
  lower_wide : string -> string -> string -> string;
  lower_wide_wide : forall before ch after : string,
    ch <> EmptyString -> wide ch = true ->
    lower_wide before ch after <> EmptyString
    /\ wide (lower_wide before ch after) = true
}.

(** U+212A, the Kelvin sign, whose lower case is [k]; U+0130, the dotted
    capital I, whose lower case is [i] followed by U+0307. *)
Definition kelvin_sign : string := chr 8490.
Definition capital_i_dotted : string := chr 304.
Definition combining_dot : string := chr 775.

(** The character [ch] is the letter [x] up to case: [x] itself, its
    capital, or, for [k], the Kelvin sign. *)
Definition folds_to (ch : string) (x : ascii) : bool :=
  match ch with
  | String c EmptyString => (is_ascii c && Ascii.eqb (lower_ascii c) x)%bool
  | _ => (String.eqb ch kelvin_sign && Ascii.eqb x "k")%bool
  end.

(** The characters [l] spell the text [w] up to case.  A last [i] may also
    be written as the dotted capital I (elsewhere the mark that follows its
    [i] in lower case stands in the way). *)
Fixpoint spells (l : list string) (w : string) {struct w} : bool :=
  match w, l with
  | EmptyString, [] => true
  | String x w', ch :: rest =>
      (folds_to ch x && spells rest w'
       || String.eqb ch capital_i_dotted && Ascii.eqb x "i" && String.eqb w' EmptyString
          && match rest with [] => true | _ :: _ => false end)%bool
  | _, _ => false
  end.

(** [w] occurs in [s] up to case: some run of the characters of [s] spells
    it. *)
Definition occurs_ci (w s : string) : Prop :=
  exists a m b, chars s = a ++ m ++ b /\ spells m w = true.

(** Whether the characters [l] open with a run that spells [w], and whether
    they hold one. *)
Fixpoint opens_with (l : list string) (w : string) {struct w} : bool :=
  match w with
  | EmptyString => true
  | String x w' =>
      match l with
      | [] => false
      | ch :: rest =>
          (folds_to ch x && opens_with rest w'
           || String.eqb ch capital_i_dotted && Ascii.eqb x "i"
              && String.eqb w' EmptyString)%bool
      end
  end.

Fixpoint spelt_in (w : string) (l : list string) : bool :=
  (opens_with l w || match l with
                     | [] => false
                     | _ :: t => spelt_in w t
                     end)%bool.

Section WithUnicode.
Context {U : Unicode}.

Definition lower_char (before ch after : string) : string :=
  match ch with
  | String c EmptyString =>
      if is_ascii c then String (lower_ascii c) EmptyString
      else lower_wide before ch after
  | _ =>
      if String.eqb ch kelvin_sign then "k"
      else if String.eqb ch capital_i_dotted then "i" +++ combining_dot
      else lower_wide before ch after
  end.

Fixpoint lower_chars (before : string) (l : list string) : string :=
  match l with
  | [] => EmptyString
  | ch :: rest =>
      lower_char before ch (join EmptyString rest) +++ lower_chars (before +++ ch) rest
  end.

(** [s.lower()] *)
Definition lower (s : string) : string := lower_chars EmptyString (chars s).

End WithUnicode.

End Str.

(** ** Scene type and palette ([create_ai_image], test_app.py) *)

Inductive SceneType := dragon | robot | city | space | landscape.

Definition colour : Type := Z * Z * Z.

Module Classify.
Import Str.

Definition dragon_keywords := ["dragon"; "drake"; "wyvern"; "serpent"].
Definition robot_keywords := ["robot"; "mech"; "android"; "machine"].
Definition city_keywords := ["city"; "urban"; "metropolis"; "building"].
Definition space_keywords := ["space"; "galaxy"; "planet"; "star"].

Section WithUnicode.
Context {U : Unicode}.

(** test_app.py, lines 242-252. *)
Definition image_type (prompt : string) : SceneType :=
  let prompt_lower := lower prompt in
  if any_in dragon_keywords prompt_lower then dragon
  else if any_in robot_keywords prompt_lower then robot
  else if any_in city_keywords prompt_lower then city
  else if any_in space_keywords prompt_lower then space
  else landscape.

Definition red : colour := (180, 30, 30).
Definition green : colour := (30, 150, 30).
Definition blue : colour := (30, 30, 180).
Definition golden : colour := (200, 180, 30).
Definition dark : colour := (20, 20, 20).
Definition white : colour := (200, 200, 220).
Definition purple : colour := (120, 30, 160).
Definition orange : colour := (220, 120, 30).
Definition pink : colour := (220, 120, 180).

(** test_app.py, lines 279-296. *)
Definition main_color (prompt : string) : colour :=
  let prompt_lower := lower prompt in
  if (contains "green" prompt_lower || contains "emerald" prompt_lower)%bool
  then green
  else if (contains "blue" prompt_lower || contains "sapphire" prompt_lower
           || contains "ice" prompt_lower)%bool
  then blue
  else if (contains "gold" prompt_lower || contains "yellow" prompt_lower)%bool
  then golden
  else if (contains "black" prompt_lower || contains "dark" prompt_lower)%bool
  then dark
  else if (contains "white" prompt_lower || contains "silver" prompt_lower)%bool
  then white
  else if (contains "purple" prompt_lower || contains "violet" prompt_lower
           || contains "amethyst" prompt_lower)%bool
  then purple
  else if (contains "orange" prompt_lower || contains "amber" prompt_lower)%bool
  then orange
  else if (contains "pink" prompt_lower || contains "rose" prompt_lower)%bool
  then pink
  else red.

(** main.py, lines 358-369 ([create_dragon_forest_image]): the older,
    shorter table. *)
Definition dragon_color (prompt : string) : colour :=
  if (contains "green" (lower prompt) || contains "emerald" (lower prompt))%bool
  then green
  else if (contains "blue" (lower prompt) || contains "ice" (lower prompt))%bool
  then blue
  else if (contains "gold" (lower prompt) || contains "yellow" (lower prompt))%bool
  then golden
  else if (contains "black" (lower prompt) || contains "dark" (lower prompt))%bool
  then dark
  else if (contains "white" (lower prompt) || contains "silver" (lower prompt))%bool
  then white
  else red.

End WithUnicode.

Definition palette_keywords : list string :=
  ["green"; "emerald"; "blue"; "sapphire"; "ice"; "gold"; "yellow"; "black";
   "dark"; "white"; "silver"; "purple"; "violet"; "amethyst"; "orange";
   "amber"; "pink"; "rose"].

Definition category_keywords : list string :=
  dragon_keywords ++ robot_keywords ++ city_keywords ++ space_keywords.

End Classify.

(** ** Numbers *)

Module Num.

(** [int(x)] on a float: truncation toward zero. *)
Definition int (q : Q) : Z := Z.quot (Qnum q) (Z.pos (Qden q)).

(** An [int] used where Python expects a float. *)
Definition float (z : Z) : Q := inject_Z z.

(** [range(start, stop, step)] for [step <> 0]. *)
Definition range3 (start stop step : Z) : list Z :=
  let n := if 0 <? step then (stop - start + step - 1) / step
           else (start - stop + (- step) - 1) / (- step) in
  map (fun k => start + step * Z.of_nat k) (seq 0 (Z.to_nat n)).

(** [range(n)] *)
Definition range (n : Z) : list Z := range3 0 n 1.

(** [range(n - 1, -1, -1)] *)
Definition range_rev (n : Z) : list Z := range3 (n - 1) (-1) (-1).

(** [sum(l)] over floats; the running total is kept in lowest terms. *)
Definition sumQ (l : list Q) : Q := fold_left (fun a b => Qred (a + b)) l 0%Q.

End Num.

(** ** The drawing surface: the calls made on [ImageDraw.Draw] *)

Definition point : Type := Q * Q.
Definition box : Type := Q * Q * Q * Q.

(** A fill or outline argument as the code passes it. *)
Inductive ink :=
| rgb (c : colour)
| rgba (c : colour) (a : Z)
| rgb_float (r g b : Q).

Inductive font := arial_20 | load_default.

Inductive draw_call :=
| line (xy : list point) (fill : ink) (width : Z)
| polygon (xy : list point) (fill : ink)
| ellipse (xy : box) (fill : option ink) (outline : option ink)
| rectangle (xy : box) (fill : ink) (outline : option ink) (width : Z)
| arc (xy : box) (start stop : Z) (fill : ink) (width : Z)
| text (xy : point) (s : string) (fill : ink) (f : font).

(** Whether Pillow takes a colour: a tuple must hold integers, a float in it
    raises [TypeError]. *)
Definition ink_ok (i : ink) : bool :=
  match i with
  | rgb _ | rgba _ _ => true
  | rgb_float _ _ _ => false
  end.

Definition accepted (c : draw_call) : bool :=
  match c with
  | line _ fill _ | polygon _ fill | arc _ _ _ fill _ | text _ _ fill _ => ink_ok fill
  | ellipse _ fill outline =>
      (match fill with Some i => ink_ok i | None => true end
       && match outline with Some i => ink_ok i | None => true end)%bool
  | rectangle _ fill outline _ =>
      (ink_ok fill && match outline with Some i => ink_ok i | None => true end)%bool
  end.

(** The blocks of the drawing code, after the comments that head them. *)
Inductive part :=
| Sky | Mountains | Forest | Magic | Dragon | Fire
| SpaceScene | CityScene | RobotFigure | Caption.

Definition op : Type := part * draw_call.

(** ** Request bodies *)

(** A decoded JSON value ([request.json]); numbers are taken to be integers. *)
#[local] Unset Elimination Schemes.
Inductive json :=
| JNull
| JBool (b : bool)
| JNum (n : Z)
| JStr (s : string)
| JArr (l : list json)
| JObj (members : list (string * json)).
#[local] Set Elimination Schemes.

(** ** The host: everything read from outside the process *)

Class Host (W : Type) := {
  (** [random.randint(a, b)] *)
  randint : Z -> Z -> W -> Z * W;
  (** [random.random()] *)
  random : W -> Q * W;
  (** [time.time()] *)
  time_time : W -> Q * W;
  (** [datetime.now().isoformat()] *)
  now_isoformat : W -> string * W;
  (** [math.sin], [math.pi] *)
  sin : Q -> Q;
  pi : Q;
  (** whether [ImageFont.truetype("arial.ttf", 20)] finds the font *)
  has_arial : bool;
  (** Pillow encoding as PNG the canvas the recorded calls have drawn; [None]
      when it raises. *)
  save_png : list op -> option string;
  (** [textwrap.fill(text, width)] *)
  textwrap_fill : string -> Z -> string;
  (** whether the next [INSERT] / [collection.add] goes through *)
  insert_succeeds : W -> bool * W;
  (** whether the database answers the next [SELECT] *)
  select_succeeds : W -> bool * W;
  (** [os.path.dirname(__file__)] of the application *)
  app_dir : string;
  (** [str(x)] for a list or a dict *)
  repr_container : json -> string
}.

(** Computations that read the host and record output of type [O]. *)
Definition Out (W O A : Type) : Type := W -> A * list O * W.

Definition ret {W O A} (a : A) : Out W O A := fun w => (a, [], w).

Definition bind {W O A B} (m : Out W O A) (k : A -> Out W O B) : Out W O B :=
  fun w =>
    let '(a, o1, w1) := m w in
    let '(b, o2, w2) := k a w1 in
    (b, o1 ++ o2, w2).

Notation "'let*' x ':=' m 'in' k" := (bind m (fun x => k))
  (at level 10, x pattern, m at level 100, k at level 200).
Notation "'run' m 'in' k" := (bind m (fun _ => k))
  (at level 10, m at level 100, k at level 200).

(** Reading the host. *)
Definition ask {W O A} (f : W -> A * W) : Out W O A :=
  fun w => let '(a, w') := f w in (a, [], w').

Definition emit {W O} (o : O) : Out W O unit := fun w => (tt, [o], w).

(** [for x in xs: body(x)] *)
Fixpoint for_each {W O A} (xs : list A) (body : A -> Out W O unit) : Out W O unit :=
  match xs with
  | [] => ret tt
  | x :: rest => bind (body x) (fun _ => for_each rest body)
  end.

(** [[f(x) for x in xs]] where [f] reads the host. *)
Fixpoint collect {W O A B} (xs : list A) (f : A -> Out W O B) : Out W O (list B) :=
  match xs with
  | [] => ret []
  | x :: rest => bind (f x) (fun b => bind (collect rest f) (fun bs => ret (b :: bs)))
  end.

(** A drawing call as Pillow handles it: carried out and recorded, or, with
    a colour it does not take, refused.  [None] is the [TypeError] on its way
    out of the function. *)
Definition draw {W} (c : draw_call) : Out W draw_call (option unit) :=
  if accepted c then bind (emit c) (fun _ => ret (Some tt)) else ret None.

(** [m], and [k] after it unless [m] raised. *)
Definition and_then {W O A B} (m : Out W O (option A)) (k : A -> Out W O (option B))
  : Out W O (option B) :=
  bind m (fun r => match r with
                   | Some a => k a
                   | None => ret None
                   end).

Notation "'draw!' c 'in' k" := (and_then (draw c) (fun _ => k))
  (at level 10, c at level 100, k at level 200).
Notation "'run!' m 'in' k" := (and_then m (fun _ => k))
  (at level 10, m at level 100, k at level 200).

(** A block of drawing code: its calls are recorded under [p]. *)
Definition block {W A} (p : part) (m : Out W draw_call A) : Out W op A :=
  fun w => let '(a, o, w') := m w in (a, map (pair p) o, w').

(** The three components of a run: value, recorded output, host state. *)
Definition val {W O A} (m : Out W O A) (w : W) : A := fst (fst (m w)).
Definition calls {W O A} (m : Out W O A) (w : W) : list O := snd (fst (m w)).
Definition after {W O A} (m : Out W O A) (w : W) : W := snd (m w).

Definition tag (p : part) (l : list draw_call) : list op := map (pair p) l.

Definition part_eqb (a b : part) : bool :=
  match a, b with
  | Sky, Sky | Mountains, Mountains | Forest, Forest | Magic, Magic
  | Dragon, Dragon | Fire, Fire | SpaceScene, SpaceScene | CityScene, CityScene
  | RobotFigure, RobotFigure | Caption, Caption => true
  | _, _ => false
  end.

(** The calls recorded under one block. *)
Definition calls_of (p : part) (ops : list op) : list draw_call :=
  map snd (List.filter (fun o => part_eqb (fst o) p) ops).

(** The blocks the background is made of: stages 1-4 and the caption bar. *)
Definition background_part (p : part) : bool :=
  match p with
  | Sky | Mountains | Forest | Magic | Caption => true
  | _ => false
  end.

Definition paints_background_only (ops : list op) : bool :=
  forallb (fun o => background_part (fst o)) ops.

(** [emits m n]: from every host state, [m] records exactly [n] outputs. *)
Definition emits {W O A} (m : Out W O A) (n : nat) : Prop :=
  forall w, length (calls m w) = n.

(** ** The renderer of test_app.py: [create_ai_image] *)

Module Render.
Import Str Num.

#[local] Coercion float : Z >-> Q.

Section WithHost.
Context {W : Type} `{Host W} {U : Unicode}.

Definition rand_int (a b : Z) : Out W draw_call Z := ask (randint a b).
Definition rand : Out W draw_call Q := ask random.

(** [random.uniform(a, b)] is [a + (b - a) * random()]. *)
Definition uniform (a b : Q) : Out W draw_call Q :=
  let* r := rand in ret (a + (b - a) * r)%Q.

Definition img_width : Z := 800.
Definition img_height : Z := 600.

Definition clamp255 (v : Z) : Z := Z.max 0 (Z.min 255 v).

(** lines 257-277 *)
Definition sky_rgb (image_type : SceneType) (intensity : Q) : colour :=
  match image_type with
  | space => (int (10 + 10 * intensity), int (10 + 15 * intensity),
              int (30 + 40 * intensity))
  | city => (int (60 + 20 * intensity), int (60 + 15 * intensity),
             int (80 + 30 * intensity))
  | _ => (int (20 + 40 * intensity), int (40 + 60 * intensity),
          int (60 + 90 * intensity))
  end%Q.

Definition draw_sky (image_type : SceneType) : Out W draw_call unit :=
  for_each (range img_height) (fun y =>
    let intensity := (1 - (y / img_height * 0.7))%Q in
    emit (line [(0%Q, float y); (float img_width, float y)]
               (rgb (sky_rgb image_type intensity)) 1)).

(** lines 301-320 *)
Definition draw_mountain (i : Z) : Out W draw_call unit :=
  let* height := rand_int (int (img_height * 0.2)) (int (img_height * 0.4)) in
  let* width := rand_int (int (img_width * 0.3)) (int (img_width * 0.6)) in
  let* x := rand_int (- int (width * 0.3)) (int (img_width * 0.9)) in
  let y := img_height - height in
  let* mountain_points :=
    collect (range width) (fun j =>
      let px := x + j in
      let s := int (sin (j / 30) * 20) in
      let* r := rand_int (-10) 10 in
      let py := y + s + r in
      ret (float px, float py)) in
  let mountain_points :=
    mountain_points ++ [(float (x + width), float img_height);
                        (float x, float img_height)] in
  let mountain_color := (40 + i * 10, 50 + i * 10, 60 + i * 10) in
  emit (polygon mountain_points (rgb mountain_color)).

Definition draw_mountains : Out W draw_call unit :=
  for_each (range 5) draw_mountain.

(** lines 324-387 *)
Definition draw_tree (prompt : string) (i : Z) : Out W draw_call unit :=
  let* x := rand_int 0 img_width in
  let distance_from_center := (Qabs (x - img_width / 2) / (img_width * 0.8))%Q in
  let size_modifier := (1.0 - distance_from_center)%Q in
  let* height := rand_int (int (img_height * 0.2 * size_modifier))
                          (int (img_height * 0.4 * size_modifier)) in
  let width := (height * 0.6)%Q in
  let* r := rand_int 0 (int (img_height * 0.1)) in
  let y := img_height - height - r in
  let distance_factor := (distance_from_center * 0.7)%Q in
  let trunk_width := (width * 0.15)%Q in
  let trunk_color :=
    (int (60 * (1 - distance_factor) + 100 * distance_factor),
     int (40 * (1 - distance_factor) + 120 * distance_factor),
     int (20 * (1 - distance_factor) + 140 * distance_factor))%Q in
  run emit (rectangle (x - trunk_width / 2, y + height * 0.7,
                       x + trunk_width / 2, float (y + height))%Q
                      (rgb trunk_color) None 1) in
  let* foliage_color :=
    if contains "magical" (lower prompt) then
      let* g := rand_int (-10) 30 in
      let base_green := 100 + g in
      let* glow_factor := rand_int 30 80 in
      ret (30 + glow_factor / 3, base_green, 30 + glow_factor)
    else
      let* season_variation := rand_int (-20) 20 in
      let* g := rand_int (-10) 30 in
      ret (30 + season_variation, 80 + g, 30 + int (distance_factor * 100))
  in
  for_each (range 5) (fun j =>
    let* dx := rand_int (- int (width * 0.4)) (int (width * 0.4)) in
    let ellipse_x := x + dx in
    let* dy := rand_int (- int (height * 0.25)) (int (height * 0.25)) in
    let ellipse_y := (y + height * 0.3 + dy)%Q in
    let* ellipse_size := rand_int (int (width * 0.4)) (int (width * 0.7)) in
    let* color_variation := rand_int (-15) 15 in
    let '(f0, f1, f2) := foliage_color in
    let varied_color :=
      (clamp255 (f0 + color_variation), clamp255 (f1 + color_variation),
       clamp255 (f2 + color_variation)) in
    emit (ellipse (ellipse_x - ellipse_size / 2, ellipse_y - ellipse_size / 2,
                   ellipse_x + ellipse_size / 2, ellipse_y + ellipse_size / 2)%Q
                  (Some (rgb varied_color)) None)).

Definition draw_forest (prompt : string) : Out W draw_call unit :=
  for_each (range 40) (draw_tree prompt).

(** lines 389-419 *)
Definition draw_sparkle (_ : Z) : Out W draw_call unit :=
  let* x := rand_int 0 img_width in
  let* y := rand_int 0 img_height in
  let* size := rand_int 1 3 in
  let* brightness := rand_int 200 255 in
  let* b := rand_int 180 230 in
  emit (ellipse (float (x - size), float (y - size),
                 float (x + size), float (y + size))
                (Some (rgb (brightness, brightness, b))) None).

Definition draw_mist (_ : Z) : Out W draw_call unit :=
  let* x := rand_int 0 img_width in
  let* y := rand_int (int (img_height * 0.5)) (int (img_height * 0.9)) in
  let* radius_x := rand_int 30 100 in
  let* radius_y := rand_int 20 40 in
  for_each (range3 (Z.max radius_x radius_y) 0 (-5)) (fun r =>
    let ratio := (r / Z.max radius_x radius_y)%Q in
    let opacity := int (100 * ratio) in
    let r_x := int (radius_x * ratio) in
    let r_y := int (radius_y * ratio) in
    let* c0 := rand_int 0 50 in
    let* c1 := rand_int 0 50 in
    let* c2 := rand_int 0 50 in
    let mist_color := rgba (100 + c0, 150 + c1, 150 + c2) opacity in
    emit (ellipse (float (x - r_x), float (y - r_y),
                   float (x + r_x), float (y + r_y))
                  (Some mist_color) None)).

Definition draw_magic (prompt : string) : Out W draw_call unit :=
  if (contains "magical" (lower prompt) || contains "magic" (lower prompt))%bool
  then run for_each (range 200) draw_sparkle in
       for_each (range 30) draw_mist
  else ret tt.

(** lines 421-630: the dragon, drawn for every prompt. *)
Definition dragon_x : Q := (img_width * 0.5)%Q.
Definition dragon_y : Q := (img_height * 0.45)%Q.
Definition dragon_size : Q := (Z.min img_width img_height * 0.45)%Q.
Definition head_size : Q := (dragon_size * 0.25)%Q.
Definition head_length : Q := (head_size * 1.4)%Q.
Definition head_width : Q := (head_size * 0.9)%Q.
Definition body_length : Q := (dragon_size * 1.2)%Q.
Definition body_width : Q := (dragon_size * 0.22)%Q.
Definition wing_base_y : Q := (dragon_y - body_width * 0.3)%Q.
Definition wing_length : Q := (dragon_size * 0.8)%Q.
Definition wing_height : Q := (dragon_size * 0.6)%Q.

Definition scaled (k : Q) (c : colour) : colour :=
  let '(r, g, b) := c in (int (r * k), int (g * k), int (b * k))%Q.

Definition body_points : list point :=
  map (fun i : Z =>
         let t := (i / 29.0)%Q in
         let x := (dragon_x - head_width + t * body_length)%Q in
         let y := (dragon_y + sin (t * pi) * body_width * 0.5
                   + sin (t * pi * 3) * body_width * 0.1)%Q in
         (x, y)) (range 30)
  ++
  map (fun i : Z =>
         let t := (i / 29.0)%Q in
         let x := (dragon_x - head_width + t * body_length)%Q in
         let y := (dragon_y + sin (t * pi) * body_width * 0.5
                   + sin (t * pi * 2.5) * body_width * 0.15
                   + body_width * 0.9)%Q in
         (x, y)) (range_rev 30).

Definition draw_bones (bones : list (point * point)) (bone_color : colour)
  : Out W draw_call unit :=
  for_each bones (fun b =>
    for_each (range 3) (fun width =>
      let offset := width - 1 in
      let '((x0, y0), (x1, y1)) := b in
      emit (line [(x0, y0 + offset); (x1, y1 + offset)]%Q (rgb bone_color) 2))).

Definition draw_dragon_body (dragon_color : colour) : Out W draw_call unit :=
  (* head *)
  run emit (ellipse (dragon_x - head_width, dragon_y - head_width,
                     dragon_x + head_length, dragon_y + head_width)%Q
                    (Some (rgb dragon_color)) None) in
  let snout_points :=
    [(dragon_x + head_length - head_width * 0.3, dragon_y - head_width * 0.4);
     (dragon_x + head_length + head_width * 0.3, dragon_y);
     (dragon_x + head_length - head_width * 0.3, dragon_y + head_width * 0.4);
     (dragon_x + head_length - head_width * 0.5, dragon_y)]%Q in
  run emit (polygon snout_points (rgb dragon_color)) in
  (* body *)
  run emit (polygon body_points (rgb dragon_color)) in
  let '(c0, c1, c2) := dragon_color in
  let scale_color :=
    (int (Qmax 0 (c0 * 0.85)), int (Qmax 0 (c1 * 0.85)),
     int (Qmax 0 (c2 * 0.85)))%Q in
  let spine_y := (dragon_y - body_width * 0.1)%Q in
  run for_each (range 10) (fun i =>
    let scale_x := (dragon_x + i * (body_length * 0.1))%Q in
    let scale_size := (body_width * 0.15)%Q in
    let offset := ((i mod 2)%Z * scale_size * 0.4)%Q in
    emit (ellipse (scale_x - scale_size, spine_y - scale_size + offset,
                   scale_x + scale_size, spine_y + scale_size + offset)%Q
                  None (Some (rgb scale_color)))) in
  (* wings *)
  let wing_color := scaled 0.8 dragon_color in
  let membrane_color := scaled 0.6 dragon_color in
  let bone_color :=
    (Z.min 255 (int (c0 * 1.2)), Z.min 255 (int (c1 * 1.2)),
     Z.min 255 (int (c2 * 1.2)))%Q in
  let left_wing_base_x := (dragon_x - body_width * 0.5)%Q in
  let left_bone1 : point * point :=
    ((left_wing_base_x, wing_base_y),
     (left_wing_base_x - wing_length * 0.9, wing_base_y - wing_height * 0.9))%Q in
  let left_bone2 : point * point :=
    ((left_wing_base_x, wing_base_y),
     (left_wing_base_x - wing_length * 0.8, wing_base_y - wing_height * 0.5))%Q in
  let left_bone3 : point * point :=
    ((left_wing_base_x, wing_base_y),
     (left_wing_base_x - wing_length * 0.7, wing_base_y - wing_height * 0.2))%Q in
  let left_wing :=
    [(left_wing_base_x, wing_base_y);
     snd left_bone1;
     (fst (snd left_bone1) + wing_length * 0.1, snd (snd left_bone1) + wing_height * 0.1);
     snd left_bone2;
     (fst (snd left_bone2) + wing_length * 0.1, snd (snd left_bone2) + wing_height * 0.1);
     snd left_bone3;
     (fst (snd left_bone3) + wing_length * 0.1, snd (snd left_bone3) + wing_height * 0.2);
     (left_wing_base_x - wing_length * 0.3, wing_base_y + wing_height * 0.1)]%Q in
  run emit (polygon left_wing (rgb membrane_color)) in
  run draw_bones [left_bone1; left_bone2; left_bone3] bone_color in
  let right_wing_base_x := (dragon_x + body_width * 0.5)%Q in
  let right_bone1 : point * point :=
    ((right_wing_base_x, wing_base_y),
     (right_wing_base_x + wing_length * 0.9, wing_base_y - wing_height * 0.9))%Q in
  let right_bone2 : point * point :=
    ((right_wing_base_x, wing_base_y),
     (right_wing_base_x + wing_length * 0.8, wing_base_y - wing_height * 0.5))%Q in
  let right_bone3 : point * point :=
    ((right_wing_base_x, wing_base_y),
     (right_wing_base_x + wing_length * 0.7, wing_base_y - wing_height * 0.2))%Q in
  let right_wing :=
    [(right_wing_base_x, wing_base_y);
     snd right_bone1;
     (fst (snd right_bone1) - wing_length * 0.1, snd (snd right_bone1) + wing_height * 0.1);
     snd right_bone2;
     (fst (snd right_bone2) - wing_length * 0.1, snd (snd right_bone2) + wing_height * 0.1);
     snd right_bone3;
     (fst (snd right_bone3) - wing_length * 0.1, snd (snd right_bone3) + wing_height * 0.2);
     (right_wing_base_x + wing_length * 0.3, wing_base_y + wing_height * 0.1)]%Q in
  run emit (polygon right_wing (rgb membrane_color)) in
  run draw_bones [right_bone1; right_bone2; right_bone3] bone_color in
  (* eyes *)
  let eye_color := (255, 255, 0) in
  let eye_size := (head_size * 0.15)%Q in
  run emit (ellipse (dragon_x - head_size * 0.5, dragon_y - head_size * 0.2,
                     dragon_x - head_size * 0.5 + eye_size,
                     dragon_y - head_size * 0.2 + eye_size)%Q
                    (Some (rgb eye_color)) None) in
  run emit (ellipse (dragon_x + head_size * 0.5 - eye_size, dragon_y - head_size * 0.2,
                     dragon_x + head_size * 0.5,
                     dragon_y - head_size * 0.2 + eye_size)%Q
                    (Some (rgb eye_color)) None) in
  (* horns *)
  let horn_points_1 :=
    [(dragon_x - head_size * 0.3, dragon_y - head_size * 0.8);
     (dragon_x - head_size * 0.5, dragon_y - head_size * 1.3);
     (dragon_x - head_size * 0.2, dragon_y - head_size * 0.6)]%Q in
  let horn_points_2 :=
    [(dragon_x + head_size * 0.3, dragon_y - head_size * 0.8);
     (dragon_x + head_size * 0.5, dragon_y - head_size * 1.3);
     (dragon_x + head_size * 0.2, dragon_y - head_size * 0.6)]%Q in
  run emit (polygon horn_points_1 (rgb wing_color)) in
  run emit (polygon horn_points_2 (rgb wing_color)) in
  (* nostrils *)
  run emit (ellipse (dragon_x - head_size * 0.2, dragon_y + head_size * 0.1,
                     dragon_x - head_size * 0.1, dragon_y + head_size * 0.2)%Q
                    (Some (rgb (0, 0, 0))) None) in
  emit (ellipse (dragon_x + head_size * 0.1, dragon_y + head_size * 0.1,
                 dragon_x + head_size * 0.2, dragon_y + head_size * 0.2)%Q
                (Some (rgb (0, 0, 0))) None).

(** lines 632-674: the fire breath.  The guard is
    ["fire" in prompt.lower() or random.random() > 0.5]: the generator is
    consulted only when the prompt does not mention fire. *)
Definition flame_colors : list colour :=
  [(255, 255, 200); (255, 200, 50); (255, 150, 0); (255, 50, 0)].

Definition fire_width : Q := (head_size * 0.8)%Q.
Definition fire_length : Q := (head_size * 3)%Q.

Definition fire_outline : Out W draw_call (list point) :=
  let* upper :=
    collect (range 10) (fun i =>
      let t := (i / 9.0)%Q in
      let x := (dragon_x + head_size + t * fire_length)%Q in
      let variance := ((1 - t) * fire_width * 0.5)%Q in
      let* u := uniform (- variance) variance in
      ret (x, dragon_y + u)%Q) in
  let* lower :=
    collect (range_rev 10) (fun i =>
      let t := (i / 9.0)%Q in
      let x := (dragon_x + head_size + t * fire_length)%Q in
      let variance := ((1 - t) * fire_width * 0.5)%Q in
      let* u := uniform (- variance) variance in
      ret (x, dragon_y + fire_width * 0.5 + u)%Q) in
  ret (upper ++ lower).

Definition flame_scale (i : Z) : Q := (1 - (i * 0.2))%Q.

Definition center_y (fire_points : list point) : Q :=
  (sumQ (map snd fire_points) / Z.of_nat (length fire_points))%Q.

Definition scaled_points (fire_points : list point) (scale : Q) : list point :=
  map (fun '(x, y) =>
         let new_y := ((y - center_y fire_points) * scale + center_y fire_points)%Q in
         (x, new_y)) fire_points.

Definition flame_layer (fire_points : list point) (i : Z) (color : colour)
  : draw_call :=
  let scale := flame_scale i in
  polygon (scaled_points fire_points scale) (rgb color).

(** [enumerate(l)] *)
Definition enumerate {A} (l : list A) : list (Z * A) :=
  combine (range (Z.of_nat (length l))) l.

Definition draw_flame : Out W draw_call unit :=
  let* fire_points := fire_outline in
  for_each (enumerate flame_colors) (fun '(i, color) =>
    emit (flame_layer fire_points i color)).

(** The polygons [draw_flame] records for an outline, one per flame colour. *)
Definition flame_layers (fire_points : list point) : list draw_call :=
  map (fun '(i, color) => flame_layer fire_points i color) (enumerate flame_colors).

Definition draw_fire (prompt : string) : Out W draw_call unit :=
  if contains "fire" (lower prompt) then draw_flame
  else
    let* r := rand in
    if Qlt_le_dec 0.5 r then draw_flame else ret tt.

(** lines 677-707 *)
Definition draw_space (prompt_lower : string) (main_color : colour)
  : Out W draw_call unit :=
  run for_each (range 500) (fun _ =>
    let* x := rand_int 0 img_width in
    let* y := rand_int 0 (int (img_height * 0.8)) in
    let* r := rand in
    let size := (r * 2)%Q in
    let* brightness := rand_int 180 255 in
    emit (ellipse (x - size, y - size, x + size, y + size)%Q
                  (Some (rgb (brightness, brightness, brightness))) None)) in
  let* planet_x := rand_int (int (img_width * 0.2)) (int (img_width * 0.8)) in
  let* planet_y := rand_int (int (img_height * 0.2)) (int (img_height * 0.5)) in
  let* planet_size := rand_int 50 120 in
  let '(c0, c1, c2) := main_color in
  let planet_color := (c0, c1, c2) in
  run emit (ellipse (float (planet_x - planet_size), float (planet_y - planet_size),
                     float (planet_x + planet_size), float (planet_y + planet_size))
                    (Some (rgb planet_color)) None) in
  if (contains "ring" prompt_lower || contains "saturn" prompt_lower)%bool then
    for_each (range3 (planet_size + 10) (planet_size + 40) 5) (fun ring_size =>
      let ring_color := (c0 / 2 + 50, c1 / 2 + 50, c2 / 2 + 50) in
      emit (arc (float (planet_x - ring_size), float (planet_y - ring_size / 3),
                 float (planet_x + ring_size), float (planet_y + ring_size / 3))
                0 360 (rgb ring_color) 3))
  else ret tt.

(** lines 709-756 *)
Definition draw_building (prompt_lower : string) (base_y x : Z)
  : Out W draw_call unit :=
  let* building_width := rand_int 20 60 in
  let* building_height := rand_int 50 250 in
  let* b0 := rand_int 20 50 in
  let* b1 := rand_int 20 50 in
  let* b2 := rand_int 30 60 in
  let building_color := (b0, b1, b2) in
  run emit (rectangle (float x, float (base_y - building_height),
                       float (x + building_width), float base_y)
                      (rgb building_color) (Some (rgb (60, 60, 70))) 1) in
  let window_color := (200, 200, 100) in
  if contains "night" prompt_lower then
    for_each (range3 (base_y - building_height + 10) (base_y - 10) 20) (fun wy =>
      for_each (range3 (x + 5) (x + building_width - 5) 10) (fun wx =>
        let* r := rand in
        if Qlt_le_dec 0.3 r then
          let window_size := 5 in
          emit (rectangle (float wx, float wy,
                           float (wx + window_size), float (wy + window_size))
                          (rgb window_color) None 1)
        else ret tt))
  else ret tt.

Definition draw_city (prompt_lower : string) : Out W draw_call unit :=
  let skyline_height := int (img_height * 0.7) in
  let base_y := skyline_height in
  let* step := rand_int 10 40 in
  run for_each (range3 0 img_width step) (draw_building prompt_lower base_y) in
  let road_y := int (img_height * 0.7) in
  run emit (rectangle (0%Q, float road_y, float img_width, float img_height)
                      (rgb (40, 40, 40)) None 1) in
  let line_y := road_y + (img_height - road_y) / 2 in
  run for_each (range3 0 img_width 40) (fun x =>
    emit (rectangle (float x, float line_y, float (x + 20), float (line_y + 5))
                    (rgb (200, 200, 200)) None 1)) in
  for_each (range 10) (fun _ =>
    let* light_x := rand_int 0 img_width in
    let* light_y := rand_int (road_y + 10) (img_height - 10) in
    let* light_size := rand_int 2 6 in
    let* r := rand in
    let light_color := if Qlt_le_dec 0.5 r then (255, 200, 0) else (255, 0, 0) in
    emit (ellipse (float (light_x - light_size), float (light_y - light_size),
                   float (light_x + light_size), float (light_y + light_size))
                  (Some (rgb light_color)) None)).

(** lines 758-822 *)
Definition draw_robot (main_color : colour) : Out W draw_call unit :=
  let robot_x := img_width / 2 in
  let robot_y := img_height / 2 in
  let robot_width := int (img_width * 0.3) in
  let robot_height := int (img_height * 0.5) in
  let head_size := robot_width / 2 in
  let head_color := main_color in
  run emit (rectangle (float (robot_x - head_size),
                       float (robot_y - robot_height / 2 - head_size),
                       float (robot_x + head_size),
                       float (robot_y - robot_height / 2 + head_size))
                      (rgb head_color) (Some (rgb (50, 50, 50))) 3) in
  let eye_color := (0, 200, 255) in
  let eye_size := head_size / 4 in
  run emit (rectangle (float (robot_x - head_size / 2 - eye_size / 2),
                       float (robot_y - robot_height / 2 - eye_size),
                       float (robot_x - head_size / 2 + eye_size / 2),
                       float (robot_y - robot_height / 2))
                      (rgb eye_color) None 1) in
  run emit (rectangle (float (robot_x + head_size / 2 - eye_size / 2),
                       float (robot_y - robot_height / 2 - eye_size),
                       float (robot_x + head_size / 2 + eye_size / 2),
                       float (robot_y - robot_height / 2))
                      (rgb eye_color) None 1) in
  let '(h0, h1, h2) := head_color in
  let body_color := (h0 / 2, h1 / 2, h2 / 2) in
  run emit (rectangle (float (robot_x - robot_width / 2),
                       float (robot_y - robot_height / 2 + head_size),
                       float (robot_x + robot_width / 2),
                       float (robot_y + robot_height / 2))
                      (rgb body_color) (Some (rgb (50, 50, 50))) 3) in
  let limb_color := (80, 80, 80) in
  let arm_width := robot_width / 6 in
  run emit (rectangle (float (robot_x - robot_width / 2 - arm_width),
                       float (robot_y - robot_height / 4),
                       float (robot_x - robot_width / 2),
                       float (robot_y + robot_height / 4))
                      (rgb limb_color) None 1) in
  run emit (rectangle (float (robot_x + robot_width / 2),
                       float (robot_y - robot_height / 4),
                       float (robot_x + robot_width / 2 + arm_width),
                       float (robot_y + robot_height / 4))
                      (rgb limb_color) None 1) in
  run emit (rectangle (float (robot_x - robot_width / 3),
                       float (robot_y + robot_height / 2),
                       float (robot_x - robot_width / 6),
                       float (robot_y + robot_height / 2 + robot_height / 3))
                      (rgb limb_color) None 1) in
  run emit (rectangle (float (robot_x + robot_width / 6),
                       float (robot_y + robot_height / 2),
                       float (robot_x + robot_width / 3),
                       float (robot_y + robot_height / 2 + robot_height / 3))
                      (rgb limb_color) None 1) in
  for_each (range 5) (fun _ =>
    let* detail_x := rand_int (robot_x - robot_width / 2 + 10)
                              (robot_x + robot_width / 2 - 10) in
    let* detail_y := rand_int (robot_y - robot_height / 2 + head_size + 10)
                              (robot_y + robot_height / 2 - 10) in
    let* detail_size := rand_int 5 15 in
    let* r := rand in
    let detail_color := if Qlt_le_dec 0.5 r then (0, 200, 255) else (255, 50, 50) in
    let* r' := rand in
    if Qlt_le_dec 0.5 r' then
      emit (rectangle (float (detail_x - detail_size),
                       float (detail_y - detail_size / 2),
                       float (detail_x + detail_size),
                       float (detail_y + detail_size / 2))
                      (rgb detail_color) None 1)
    else
      emit (ellipse (float (detail_x - detail_size), float (detail_y - detail_size),
                     float (detail_x + detail_size), float (detail_y + detail_size))
                    (Some (rgb detail_color)) None)).

(** lines 824-835 *)
Definition pick_font : font := if has_arial then arial_20 else load_default.

Definition draw_caption (prompt : string) : Out W draw_call unit :=
  let font := pick_font in
  run emit (rectangle (0%Q, float (img_height - 50), float img_width, float img_height)
                      (rgb (0, 0, 0)) None 1) in
  emit (text (20%Q, float (img_height - 40)) ("Prompt: " +++ prompt)
             (rgb (255, 255, 255)) font).

Definition is_scene (a b : SceneType) : bool :=
  match a, b with
  | dragon, dragon | robot, robot | city, city | space, space
  | landscape, landscape => true
  | _, _ => false
  end.

(** lines 676-822: the elements added for a scene type *)
Definition draw_additional (image_type : SceneType) (prompt_lower : string)
  (main_color : colour) : Out W op unit :=
  if (is_scene image_type space && negb (contains "dragon" prompt_lower))%bool
  then block SpaceScene (draw_space prompt_lower main_color)
  else if (is_scene image_type city && negb (contains "dragon" prompt_lower))%bool
  then block CityScene (draw_city prompt_lower)
  else if (is_scene image_type robot && negb (contains "dragon" prompt_lower))%bool
  then block RobotFigure (draw_robot main_color)
  else ret tt.

(** test_app.py, lines 234-837.  The function takes the prompt and nothing
    else; its random draws come from the host's generator. *)
Definition create_ai_image (prompt : string) : Out W op unit :=
  let prompt_lower := lower prompt in
  let image_type := Classify.image_type prompt in
  run block Sky (draw_sky image_type) in
  let main_color := Classify.main_color prompt in
  let dragon_color := main_color in
  run block Mountains draw_mountains in
  run block Forest (draw_forest prompt) in
  run block Magic (draw_magic prompt) in
  run block Dragon (draw_dragon_body dragon_color) in
  run block Fire (draw_fire prompt) in
  run draw_additional image_type prompt_lower main_color in
  block Caption (draw_caption prompt).

End WithHost.
End Render.

(** ** The renderer of main.py: [create_dragon_forest_image] *)

Module RenderMain.
Import Str Num Render.

#[local] Coercion float : Z >-> Q.

Section WithHost.
Context {W : Type} `{Host W} {U : Unicode}.

(** main.py, lines 350-356 *)
Definition draw_sky : Out W draw_call unit :=
  for_each (range img_height) (fun y =>
    let intensity := (1 - (y / img_height * 0.7))%Q in
    let r := int (20 + 40 * intensity)%Q in
    let g := int (40 + 60 * intensity)%Q in
    let b := int (60 + 90 * intensity)%Q in
    emit (line [(0%Q, float y); (float img_width, float y)] (rgb (r, g, b)) 1)).

(** main.py, lines 393-429 *)
Definition draw_tree (prompt : string) (i : Z) : Out W draw_call unit :=
  let* x := rand_int 0 img_width in
  let size_modifier := (1.0 - (Qabs (x - img_width / 2) / (img_width * 0.8)))%Q in
  let* height := rand_int (int (img_height * 0.2 * size_modifier))
                          (int (img_height * 0.4 * size_modifier)) in
  let width := (height * 0.6)%Q in
  let* r := rand_int 0 (int (img_height * 0.1)) in
  let y := img_height - height - r in
  let trunk_width := (width * 0.15)%Q in
  let* t0 := rand_int (-20) 20 in
  let* t1 := rand_int (-10) 10 in
  let* t2 := rand_int (-10) 10 in
  let trunk_color := (60 + t0, 40 + t1, 20 + t2) in
  run emit (rectangle (x - trunk_width / 2, y + height * 0.7,
                       x + trunk_width / 2, float (y + height))%Q
                      (rgb trunk_color) None 1) in
  let* foliage_color :=
    if contains "magical" (lower prompt) then
      let* f0 := rand_int (-10) 30 in
      let* f1 := rand_int (-20) 50 in
      let* f2 := rand_int (-10) 30 in
      ret (30 + f0, 100 + f1, 30 + f2)
    else
      let* f0 := rand_int (-20) 20 in
      let* f1 := rand_int (-20) 20 in
      let* f2 := rand_int (-20) 20 in
      ret (30 + f0, 80 + f1, 30 + f2)
  in
  for_each (range 3) (fun j =>
    let* dx := rand_int (- int (width * 0.3)) (int (width * 0.3)) in
    let ellipse_x := x + dx in
    let* dy := rand_int (- int (height * 0.2)) (int (height * 0.2)) in
    let ellipse_y := (y + height * 0.3 + dy)%Q in
    let* ellipse_size := rand_int (int (width * 0.4)) (int (width * 0.7)) in
    emit (ellipse (ellipse_x - ellipse_size / 2, ellipse_y - ellipse_size / 2,
                   ellipse_x + ellipse_size / 2, ellipse_y + ellipse_size / 2)%Q
                  (Some (rgb foliage_color)) None)).

Definition draw_forest (prompt : string) : Out W draw_call unit :=
  for_each (range 30) (draw_tree prompt).

(** main.py, lines 463-550 *)
Definition body_length : Q := (dragon_size * 1.2)%Q.
Definition body_width : Q := (dragon_size * 0.2)%Q.

Definition body_points : list point :=
  map (fun i : Z =>
         let t := (i / 19.0)%Q in
         let x := (dragon_x - head_size + t * body_length)%Q in
         let y := (dragon_y + sin (t * pi) * body_width * 0.5)%Q in
         (x, y)) (range 20)
  ++
  map (fun i : Z =>
         let t := (i / 19.0)%Q in
         let x := (dragon_x - head_size + t * body_length)%Q in
         let y := (dragon_y + sin (t * pi) * body_width * 0.5 + body_width)%Q in
         (x, y)) (range_rev 20).

(** The dragon, main.py lines 463-550.  The wing colour is the dragon colour
    with each channel multiplied by the float 0.8. *)
Definition draw_dragon_body (dragon_color : colour) : Out W draw_call (option unit) :=
  draw! ellipse (dragon_x - head_size, dragon_y - head_size,
                 dragon_x + head_size, dragon_y + head_size)%Q
                (Some (rgb dragon_color)) None in
  draw! polygon body_points (rgb dragon_color) in
  let '(c0, c1, c2) := dragon_color in
  let wing_color := rgb_float (c0 * 0.8) (c1 * 0.8) (c2 * 0.8) in
  let left_wing :=
    [(dragon_x, dragon_y);
     (dragon_x - dragon_size * 0.5, dragon_y - dragon_size * 0.5);
     (dragon_x - dragon_size * 0.3, dragon_y - dragon_size * 0.3);
     (dragon_x - dragon_size * 0.2, dragon_y - dragon_size * 0.1)]%Q in
  draw! polygon left_wing wing_color in
  let right_wing :=
    [(dragon_x, dragon_y);
     (dragon_x + dragon_size * 0.5, dragon_y - dragon_size * 0.5);
     (dragon_x + dragon_size * 0.3, dragon_y - dragon_size * 0.3);
     (dragon_x + dragon_size * 0.2, dragon_y - dragon_size * 0.1)]%Q in
  draw! polygon right_wing wing_color in
  let eye_color := (255, 255, 0) in
  let eye_size := (head_size * 0.15)%Q in
  draw! ellipse (dragon_x - head_size * 0.5, dragon_y - head_size * 0.2,
                 dragon_x - head_size * 0.5 + eye_size,
                 dragon_y - head_size * 0.2 + eye_size)%Q
                (Some (rgb eye_color)) None in
  draw! ellipse (dragon_x + head_size * 0.5 - eye_size, dragon_y - head_size * 0.2,
                 dragon_x + head_size * 0.5,
                 dragon_y - head_size * 0.2 + eye_size)%Q
                (Some (rgb eye_color)) None in
  let horn_points_1 :=
    [(dragon_x - head_size * 0.3, dragon_y - head_size * 0.8);
     (dragon_x - head_size * 0.5, dragon_y - head_size * 1.3);
     (dragon_x - head_size * 0.2, dragon_y - head_size * 0.6)]%Q in
  let horn_points_2 :=
    [(dragon_x + head_size * 0.3, dragon_y - head_size * 0.8);
     (dragon_x + head_size * 0.5, dragon_y - head_size * 1.3);
     (dragon_x + head_size * 0.2, dragon_y - head_size * 0.6)]%Q in
  draw! polygon horn_points_1 wing_color in
  draw! polygon horn_points_2 wing_color in
  draw! ellipse (dragon_x - head_size * 0.2, dragon_y + head_size * 0.1,
                 dragon_x - head_size * 0.1, dragon_y + head_size * 0.2)%Q
                (Some (rgb (0, 0, 0))) None in
  draw (ellipse (dragon_x + head_size * 0.1, dragon_y + head_size * 0.1,
                 dragon_x + head_size * 0.2, dragon_y + head_size * 0.2)%Q
                (Some (rgb (0, 0, 0))) None).

(** main.py, lines 596-608 *)
Definition draw_caption (prompt : string) : Out W draw_call unit :=
  let font := pick_font in
  run emit (rectangle (0%Q, float (img_height - 50), float img_width, float img_height)
                      (rgba (0, 0, 0) 200) None 1) in
  let wrapped_text := textwrap_fill ("Prompt: " +++ prompt) 80 in
  emit (text (20%Q, float (img_height - 40)) wrapped_text
             (rgb (255, 255, 255)) font).

(** main.py, lines 343-610.  Mountains, magical effects and fire breath are
    the same code as in test_app.py.  The colours of the sky, the mountains,
    the trees, the magical effects, the fire and the caption are tuples of
    integers, which Pillow takes; [Some tt] stands for the image returned,
    [None] for the exception that leaves the function. *)
Definition create_dragon_forest_image (prompt : string) : Out W op (option unit) :=
  run block Sky draw_sky in
  let dragon_color := Classify.dragon_color prompt in
  run block Mountains draw_mountains in
  run block Forest (draw_forest prompt) in
  run block Magic (draw_magic prompt) in
  run! block Dragon (draw_dragon_body dragon_color) in
  run block Fire (draw_fire prompt) in
  run block Caption (draw_caption prompt) in
  ret (Some tt).

End WithHost.
End RenderMain.

(** ** The 3D model payload *)

Module Mesh.
Import Str.

Definition cube_lines : list string :=
  ["# Simple cube OBJ file";
   "v -1.0 -1.0 -1.0";
   "v -1.0 -1.0 1.0";
   "v -1.0 1.0 -1.0";
   "v -1.0 1.0 1.0";
   "v 1.0 -1.0 -1.0";
   "v 1.0 -1.0 1.0";
   "v 1.0 1.0 -1.0";
   "v 1.0 1.0 1.0";
   "f 1 3 7 5";
   "f 2 6 8 4";
   "f 1 5 6 2";
   "f 3 4 8 7";
   "f 1 2 4 3";
   "f 5 7 8 6"].

(** main.py, lines 649-665: the triple-quoted literal opens with a line
    break and ends with one. *)
Definition obj_data : string := nl +++ join nl cube_lines +++ nl.

(** main.py, [generate_image_to_3d]: stub, image and uid are not read. *)
Definition generate_image_to_3d {Stub : Type} (stub : Stub) (image_data : string)
  (uid : string) : option string :=
  let model_data := obj_data in Some model_data.

(** test_app.py, lines 135-149: the literal written to the model file; no
    line break before the comment line or after the last face. *)
Definition model_file_text : string := join nl cube_lines.

(** Reading the payload back as Wavefront OBJ. *)
Definition lines (payload : string) : list string :=
  split_on (ascii_of_nat 10) payload.

Definition is_digit (c : ascii) : bool :=
  let n := nat_of_ascii c in (Nat.leb 48 n && Nat.leb n 57)%bool.

Fixpoint parse_digits (s : string) (acc : Z) : option Z :=
  match s with
  | EmptyString => Some acc
  | String c t =>
      if is_digit c then parse_digits t (10 * acc + Z.of_nat (nat_of_ascii c - 48))
      else None
  end.

Definition parse_index (s : string) : option Z :=
  match s with
  | EmptyString => None
  | _ => parse_digits s 0
  end.

(** a coordinate written as [d.d] or [-d.d] *)
Definition parse_unsigned (s : string) : option Q :=
  match split_on "." s with
  | [i; f] =>
      match parse_index i, parse_index f with
      | Some a, Some b =>
          Some (inject_Z a + inject_Z b / inject_Z (10 ^ Z.of_nat (String.length f)))%Q
      | _, _ => None
      end
  | _ => None
  end.

Definition parse_coord (s : string) : option Q :=
  match s with
  | String "-" t => option_map Qopp (parse_unsigned t)
  | _ => parse_unsigned s
  end.

Definition vertex : Type := Q * Q * Q.

Definition parse_vertex (l : string) : option vertex :=
  match split_on " " l with
  | ["v"; x; y; z] =>
      match parse_coord x, parse_coord y, parse_coord z with
      | Some a, Some b, Some c => Some (a, b, c)
      | _, _, _ => None
      end
  | _ => None
  end.

(** a quadrilateral face: four 1-based vertex indices *)
Definition parse_face (l : string) : option (Z * Z * Z * Z) :=
  match split_on " " l with
  | ["f"; a; b; c; d] =>
      match parse_index a, parse_index b, parse_index c, parse_index d with
      | Some i, Some j, Some k, Some m => Some (i, j, k, m)
      | _, _, _, _ => None
      end
  | _ => None
  end.

Definition is_vertex_line (l : string) : bool :=
  match parse_vertex l with Some _ => true | None => false end.
Definition is_face_line (l : string) : bool :=
  match parse_face l with Some _ => true | None => false end.

(** The payload is eight vertex lines followed by six face lines and
    nothing else. *)
Definition eight_vertices_six_faces (payload : string) : bool :=
  let ls := lines payload in
  ((length ls =? 14)%nat && forallb is_vertex_line (firstn 8 ls)
   && forallb is_face_line (skipn 8 ls))%bool.

Fixpoint somes {A} (l : list (option A)) : list A :=
  match l with
  | [] => []
  | Some a :: t => a :: somes t
  | None :: t => somes t
  end.

Definition vertices (payload : string) : list vertex :=
  somes (map parse_vertex (lines payload)).
Definition faces (payload : string) : list (Z * Z * Z * Z) :=
  somes (map parse_face (lines payload)).

Definition nth_vertex (vs : list vertex) (i : Z) : vertex :=
  nth (Z.to_nat (i - 1)) vs (0, 0, 0)%Q.

Definition dist2 (p q : vertex) : Q :=
  let '(a, b, c) := p in
  let '(x, y, z) := q in
  ((a - x) * (a - x) + (b - y) * (b - y) + (c - z) * (c - z))%Q.

(** squared lengths of the four sides of a face *)
Definition side_lengths2 (vs : list vertex) (f : Z * Z * Z * Z) : list Q :=
  let '(i, j, k, m) := f in
  [dist2 (nth_vertex vs i) (nth_vertex vs j);
   dist2 (nth_vertex vs j) (nth_vertex vs k);
   dist2 (nth_vertex vs k) (nth_vertex vs m);
   dist2 (nth_vertex vs m) (nth_vertex vs i)].

(** squared lengths of the two diagonals of a face *)
Definition diagonals2 (vs : list vertex) (f : Z * Z * Z * Z) : list Q :=
  let '(i, j, k, m) := f in
  [dist2 (nth_vertex vs i) (nth_vertex vs k);
   dist2 (nth_vertex vs j) (nth_vertex vs m)].

(** the coordinate shared by the four corners of a face, if there is one:
    (axis, value) *)
Definition face_plane (vs : list vertex) (f : Z * Z * Z * Z) : option (Z * Q) :=
  let '(i, j, k, m) := f in
  let ps := [nth_vertex vs i; nth_vertex vs j; nth_vertex vs k; nth_vertex vs m] in
  let same (g : vertex -> Q) :=
    forallb (fun p => Qeq_bool (g p) (g (nth_vertex vs i))) ps in
  if same (fun p => fst (fst p)) then Some (0, fst (fst (nth_vertex vs i)))
  else if same (fun p => snd (fst p)) then Some (1, snd (fst (nth_vertex vs i)))
  else if same snd then Some (2, snd (nth_vertex vs i))
  else None.

(** An axis-aligned cube of edge [e]: eight vertices, six quadrilateral
    faces, every side of every face of length [e], both diagonals of every
    face of squared length [2 e^2], and each face lying in a coordinate
    plane. *)
Definition is_axis_aligned_cube (e : Q) (payload : string) : bool :=
  let vs := vertices payload in
  let fs := faces payload in
  ((length vs =? 8)%nat && (length fs =? 6)%nat
   && forallb (fun f => forallb (Qeq_bool (e * e)) (side_lengths2 vs f)) fs
   && forallb (fun f => forallb (Qeq_bool (2 * (e * e))) (diagonals2 vs f)) fs
   && forallb (fun f => match face_plane vs f with Some _ => true | None => false end) fs)%bool.

End Mesh.

(** ** Paths ([os.path], POSIX flavour) *)

Module Path.
Import Str.

Fixpoint endswith_slash (s : string) : bool :=
  match s with
  | EmptyString => false
  | String c EmptyString => Ascii.eqb c "/"
  | String _ t => endswith_slash t
  end.

(** [os.path.join(a, b)] *)
Definition join (a b : string) : string :=
  if startswith "/" b then b
  else if (String.eqb a EmptyString || endswith_slash a)%bool then a +++ b
  else a +++ "/" +++ b.

(** [os.path.split(p)]: the text up to and including the last slash, and
    the rest. *)
Fixpoint split_last (p : string) : string * string :=
  match p with
  | EmptyString => (EmptyString, EmptyString)
  | String c t =>
      let '(h, tl) := split_last t in
      if (Ascii.eqb c "/" && negb (contains "/" t))%bool then (String c EmptyString, t)
      else if contains "/" t then (String c h, tl)
      else (EmptyString, String c tl)
  end.

Fixpoint all_slashes (s : string) : bool :=
  match s with
  | EmptyString => true
  | String c t => (Ascii.eqb c "/" && all_slashes t)%bool
  end.

Fixpoint rstrip_slashes (s : string) : string :=
  match s with
  | EmptyString => EmptyString
  | String c t =>
      match rstrip_slashes t with
      | EmptyString => if Ascii.eqb c "/" then EmptyString else String c EmptyString
      | t' => String c t'
      end
  end.

(** A name without a slash in it. *)
Definition slash_free (s : string) : Prop := contains "/" s = false.

(** [os.path.basename(p)] *)
Definition basename (p : string) : string := snd (split_last p).

(** [os.path.dirname(p)] *)
Definition dirname (p : string) : string :=
  let head := fst (split_last p) in
  if all_slashes head then head else rstrip_slashes head.

End Path.

(** ** The SQLite-backed store of main.py: [MemoryManager] *)

Module Sqlite.
Import Str Num.

(** The columns written by [store]; also the value kept in [short_term].
    The [tags] column holds [json.dumps(tags)] and is read back with
    [json.loads]; the model keeps the list itself. *)
Record creation := {
  timestamp : string;
  prompt : string;
  expanded_prompt : string;
  image_path : string;
  model_path : string;
  tags : list string
}.

Record row := { id : Z; fields : creation }.

Record MemoryManager := {
  short_term : gmap Z creation;
  table : list row;          (* the [memory] table, in rowid order *)
  last_id : Z                (* AUTOINCREMENT counter *)
}.

(** [tags or []] *)
Definition tags_or_empty (tags : option (list string)) : list string :=
  match tags with
  | Some (t :: ts) => t :: ts
  | _ => []
  end.

Section WithHost.
Context {W : Type} `{Host W}.

(** main.py, lines 138-179 *)
Definition store (mm : MemoryManager)
  (prompt expanded_prompt image_path model_path : string)
  (tags : option (list string)) (w : W) : MemoryManager * W :=
  let '(timestamp, w) := now_isoformat w in
  let '(t, w) := time_time w in
  let memory_id := int t in
  let c := {| timestamp := timestamp; prompt := prompt;
              expanded_prompt := expanded_prompt; image_path := image_path;
              model_path := model_path; tags := tags_or_empty tags |} in
  let short_term' := <[memory_id := c]> (short_term mm) in
  let '(ok, w) := insert_succeeds w in
  if ok then
    ({| short_term := short_term';
        table := table mm ++ [{| id := last_id mm + 1; fields := c |}];
        last_id := last_id mm + 1 |}, w)
  else
    (* the exception is logged and dropped *)
    ({| short_term := short_term'; table := table mm; last_id := last_id mm |}, w).

End WithHost.

(** The text SQLite's string functions see: what comes before the first
    NUL. *)
Fixpoint c_string (s : string) : string :=
  match s with
  | EmptyString => EmptyString
  | String c t => if Ascii.eqb c zero then EmptyString else String c (c_string t)
  end.

(** Two characters that are the same up to the case of the letters A-Z. *)
Definition same_nocase (a b : string) : bool :=
  String.eqb (ascii_lower a) (ascii_lower b).

(** SQLite's [LIKE] on the characters of a pattern and of a text: [%]
    matches any run of characters, [_] any one character, and every other
    character itself up to ASCII case. *)
Fixpoint like_chars (pat text : list string) : bool :=
  match pat with
  | [] => match text with [] => true | _ => false end
  | p :: pat' =>
      if String.eqb p "%" then
        (fix star (t : list string) : bool :=
           (like_chars pat' t ||
            match t with
            | [] => false
            | _ :: t' => star t'
            end)%bool) text
      else
        match text with
        | [] => false
        | c :: text' =>
            ((String.eqb p "_" || same_nocase p c) && like_chars pat' text')%bool
        end
  end.

Definition like (pat text : string) : bool :=
  like_chars (chars (c_string pat)) (chars (c_string text)).

(** [q] occurs in [t] as [LIKE] reads the two: some run of the characters
    of [t], up to its first NUL, is [q] character by character, up to the
    case of the letters A-Z. *)
Definition occurs_nocase (q t : string) : Prop :=
  exists a m b,
    chars (c_string t) = a ++ m ++ b
    /\ Forall2 (fun x y => same_nocase x y = true) (chars q) m.

(** [SQLITE_MAX_LIKE_PATTERN_LENGTH]: a longer pattern makes [LIKE] fail
    with "LIKE or GLOB pattern too complex". *)
Definition max_like_pattern_length : Z := 50000.

Definition hex_digit (n : Z) : ascii :=
  if n <? 10 then byte (48 + n) else byte (87 + n).

(** [format(n, "04x")] *)
Definition hex4 (n : Z) : string :=
  String (hex_digit (n / 4096 mod 16))
    (String (hex_digit (n / 256 mod 16))
       (String (hex_digit (n / 16 mod 16)) (String (hex_digit (n mod 16)) EmptyString))).

Definition quote : string := String (ascii_of_nat 34) EmptyString.
Definition backslash : string := String (ascii_of_nat 92) EmptyString.

(** One character inside a JSON string, as [json.dumps] writes it with
    [ensure_ascii]: the printable ASCII characters as they are, apart from
    the quote and the backslash; every other character as an escape, one
    outside the basic plane as a surrogate pair. *)
Definition json_char (ch : string) : string :=
  let n := ord ch in
  if n =? 34 then backslash +++ quote
  else if n =? 92 then backslash +++ backslash
  else if n =? 10 then backslash +++ "n"
  else if n =? 13 then backslash +++ "r"
  else if n =? 9 then backslash +++ "t"
  else if n =? 8 then backslash +++ "b"
  else if n =? 12 then backslash +++ "f"
  else if ((32 <=? n) && (n <? 127))%bool then ch
  else if n <? 65536 then backslash +++ "u" +++ hex4 n
  else
    let v := n - 65536 in
    backslash +++ "u" +++ hex4 (55296 + v / 1024)
    +++ backslash +++ "u" +++ hex4 (56320 + v mod 1024).

Definition json_string_body (s : string) : string :=
  join EmptyString (map json_char (chars s)).

(** [json.dumps(tags)] for a list of strings *)
Definition json_dumps (tags : list string) : string :=
  "[" +++ join ", " (map (fun t => quote +++ json_string_body t +++ quote) tags) +++ "]".

(** The rows [SELECT * FROM memory WHERE prompt LIKE ? OR expanded_prompt
    LIKE ? OR tags LIKE ?] returns for a pattern. *)
Definition select_like (mm : MemoryManager) (pat : string) : list row :=
  List.filter (fun r =>
            (like pat (prompt (fields r)) || like pat (expanded_prompt (fields r))
             || like pat (json_dumps (tags (fields r))))%bool)
         (table mm).

(** [ORDER BY timestamp DESC]: text compared byte by byte; rows with equal
    timestamps are kept in rowid order. *)
Fixpoint insert_desc (r : row) (l : list row) : list row :=
  match l with
  | [] => [r]
  | y :: l' =>
      if String.leb (timestamp (fields y)) (timestamp (fields r)) then r :: l
      else y :: insert_desc r l'
  end.

Definition order_by_timestamp_desc (l : list row) : list row :=
  fold_right insert_desc [] l.

(** [LIMIT n]: a negative [n] means no limit. *)
Definition sql_limit {A} (n : Z) (l : list A) : list A :=
  if n <? 0 then l else firstn (Z.to_nat n) l.

(** An [int] SQLite takes as a parameter: one of 64 bits.  Binding another
    raises [OverflowError]. *)
Definition fits_int64 (n : Z) : bool :=
  ((- 2 ^ 63 <=? n) && (n <? 2 ^ 63))%bool.

(** The rows [SELECT * FROM memory ORDER BY timestamp DESC LIMIT ?] returns. *)
Definition select_recent (mm : MemoryManager) (limit : Z) : list row :=
  sql_limit limit (order_by_timestamp_desc (table mm)).

Section Queries.
Context {W : Type} `{Host W}.

(** main.py, lines 181-207.  Whatever is raised inside the [try] (the
    database does not answer, the pattern is longer than [LIKE] takes) is
    logged, and the answer is the empty list. *)
Definition search (mm : MemoryManager) (query : string) (w : W) : list row * W :=
  let '(ok, w) := select_succeeds w in
  let pat := "%" +++ query +++ "%" in
  if (ok && (Z.of_nat (String.length pat) <=? max_like_pattern_length))%bool
  then (select_like mm pat, w)
  else ([], w).

(** main.py, lines 209-232.  Whatever is raised inside the [try] (the
    database does not answer, the limit does not fit 64 bits) is logged, and
    the answer is the empty list. *)
Definition get_recent (mm : MemoryManager) (limit : Z) (w : W) : list row * W :=
  let '(ok, w) := select_succeeds w in
  if (ok && fits_int64 limit)%bool then (select_recent mm limit, w) else ([], w).

End Queries.

Definition empty : MemoryManager :=
  {| short_term := ∅; table := []; last_id := 0 |}.

Definition ts (r : row) : string := timestamp (fields r).

(** newest first: each row's timestamp is at most its predecessor's *)
Definition newest_first (l : list row) : Prop :=
  Sorted (fun a b => String.leb (ts b) (ts a) = true) l.

End Sqlite.

(** ** The vector-store manager of chroma_memory.py: [ChromaMemoryManager] *)

Module Chroma.
Import Str Num.

Record metadata := {
  timestamp : Q;
  prompt : string;
  expanded_prompt : string;
  image_path : string;
  model_path : string;
  tags : list string
}.

Record item := { id : string; document : string; meta : metadata }.

(** The collection, in the order the records were added; ids are unique. *)
Record ChromaMemoryManager := { collection : list item }.

(** A returned memory: [{"id": memory_id, **metadata}] *)
Definition memory : Type := string * metadata.

Definition has_id (i : string) (c : list item) : bool :=
  existsb (fun it => String.eqb (id it) i) c.

Section WithHost.
Context {W : Type} `{Host W}.

(** chroma_memory.py, lines 44-80.  [collection.add] leaves the collection
    as it was when it raises and when the id is already present. *)
Definition store (mm : ChromaMemoryManager)
  (prompt expanded_prompt image_path model_path : string)
  (tags : option (list string)) (w : W) : ChromaMemoryManager * W :=
  let '(t, w) := time_time w in
  let memory_id := str_of_int (int t) in
  let combined_text :=
    prompt +++ " " +++ expanded_prompt +++ " " +++ join " " (Sqlite.tags_or_empty tags) in
  let '(t', w) := time_time w in
  let metadata := {| timestamp := t'; prompt := prompt;
                     expanded_prompt := expanded_prompt;
                     image_path := image_path; model_path := model_path;
                     tags := Sqlite.tags_or_empty tags |} in
  let '(ok, w) := insert_succeeds w in
  if (ok && negb (has_id memory_id (collection mm)))%bool then
    ({| collection := collection mm ++
          [{| id := memory_id; document := combined_text; meta := metadata |}] |}, w)
  else (mm, w).

End WithHost.

(** [collection.get(limit=limit)]: the first [limit] records. *)
Definition collection_get (mm : ChromaMemoryManager) (limit : nat) : list item :=
  firstn limit (collection mm).

(** [sorted(l, key=timestamp, reverse=True)]: stable. *)
Fixpoint insert_desc (m : memory) (l : list memory) : list memory :=
  match l with
  | [] => [m]
  | y :: l' =>
      if Qle_bool (timestamp (snd y)) (timestamp (snd m)) then m :: l
      else y :: insert_desc m l'
  end.

Definition sorted_desc (l : list memory) : list memory :=
  fold_right insert_desc [] l.

(** chroma_memory.py, lines 160-201, for a limit that is not negative. *)
Definition get_recent (mm : ChromaMemoryManager) (limit : nat) : list memory :=
  let results := collection_get mm limit in
  match results with
  | [] => []
  | _ =>
      let memories_with_ts := map (fun it => (id it, meta it)) results in
      let memories := sorted_desc memories_with_ts in
      firstn limit memories
  end.

Definition empty : ChromaMemoryManager := {| collection := [] |}.

(** newest first: each memory's timestamp is at most its predecessor's *)
Definition newest_first (l : list memory) : Prop :=
  Sorted (fun a b => (timestamp (snd b) <= timestamp (snd a))%Q) l.

End Chroma.

(** ** What a request handler hands back *)

Inductive exn :=
| TypeError_not_iterable     (* ['prompt' in data] on a number or a boolean *)
| AttributeError_lower       (* [.lower()] on a value that is not a string *)
| TypeError_indices          (* [data['prompt']] on a string or a list *)
| SaveError.                 (* Pillow raised while drawing or saving *)

(** The dictionary [execute] / [generate] returns. *)
Inductive reply :=
| message_only (message : string)
| created (message image model viewer : string) (output_dir : option string).

Inductive payload :=
| error_text (e : string)
| error_exn (e : exn)
| json_reply (r : reply).

Record response := { status : Z; body : payload }.

(** What was written to disk. *)
Inductive content :=
| image_bytes (png : string)
| model_bytes (obj : string)
| model_text (obj : string)
| viewer_page (timestamp : Z)      (* main.py: the HTML text built around the timestamp *)
| gallery_page (timestamp : Z) (prompt label image_filename model_filename : string).
                                   (* test_app.py: the HTML text built around these *)

Definition disk : Type := list (string * content).

(** Python truth value of a decoded JSON value. *)
Definition truthy (v : json) : bool :=
  match v with
  | JNull => false
  | JBool b => b
  | JNum n => negb (n =? 0)
  | JStr s => negb (String.eqb s EmptyString)
  | JArr l => match l with [] => false | _ => true end
  | JObj m => match m with [] => false | _ => true end
  end.

(** [d[key]] on a decoded object: the last binding of a repeated key wins. *)
Fixpoint get_member (key : string) (m : list (string * json)) : option json :=
  match m with
  | [] => None
  | (k, v) :: rest =>
      match get_member key rest with
      | Some v' => Some v'
      | None => if String.eqb k key then Some v else None
      end
  end.

(** ['prompt' in data]; [None] when Python raises [TypeError]. *)
Definition prompt_in (data : json) : option bool :=
  match data with
  | JObj m => Some (match get_member "prompt" m with Some _ => true | None => false end)
  | JStr s => Some (Str.contains "prompt" s)
  | JArr l => Some (existsb (fun v => match v with
                                      | JStr s => String.eqb s "prompt"
                                      | _ => false
                                      end) l)
  | JNull | JBool _ | JNum _ => None
  end.

(** ** main.py: prompt expansion, memory references and [execute] *)

Module Main.
Import Str Num.

(** [LocalLLM.generate], lines 78-126 *)
Definition enhancements : list (string * string) :=
  [("dragon", "a majestic dragon with intricate scales, powerful wings outspread, standing on a rocky cliff overlooking a vast landscape, with dramatic sunset lighting creating golden highlights on its scales");
   ("robot", "a sleek, futuristic robot with glowing LED details, metallic surface reflecting ambient light, detailed mechanical joints and panels, standing in a high-tech laboratory environment with subtle blue lighting");
   ("city", "a sprawling cyberpunk cityscape with neon signs illuminating rain-slicked streets, towering skyscrapers with holographic advertisements, flying vehicles navigating between buildings, and crowds of people under a night sky filled with industrial haze");
   ("forest", "an enchanted forest with ancient trees covered in luminescent moss, shaft of golden sunlight filtering through the dense canopy, magical creatures hiding among colorful mushrooms, and a misty atmosphere creating depth and mystery");
   ("dragon forest", "a majestic dragon with emerald scales and golden eyes in an enchanted forest, surrounded by ancient trees with glowing moss, magical fireflies illuminating the scene, and a misty atmosphere creating depth with shafts of moonlight breaking through the dense canopy");
   ("dragon in forest", "a majestic dragon with emerald scales and golden eyes in an enchanted forest, surrounded by ancient trees with glowing moss, magical fireflies illuminating the scene, and a misty atmosphere creating depth with shafts of moonlight breaking through the dense canopy");
   ("magical forest", "an enchanted forest with ancient trees covered in luminescent moss, shaft of golden sunlight filtering through the dense canopy, magical creatures hiding among colorful mushrooms, and a misty atmosphere creating depth and mystery")].

Definition combined_keywords : list string :=
  ["dragon forest"; "dragon in forest"; "magical forest"].

Definition enhancement_of (key : string) : string :=
  match find (fun kv => String.eqb (fst kv) key) enhancements with
  | Some kv => snd kv
  | None => EmptyString
  end.

Section WithUnicode.
Context {U : Unicode}.

Definition generate (prompt : string) : string :=
  let '(expanded, prompt') :=
    match find (fun combo => contains (lower combo) (lower prompt)) combined_keywords with
    | Some combo => (enhancement_of combo, combo +++ ": " +++ prompt)
    | None =>
        let original_prompt := prompt in
        match find (fun kv => (contains (lower (fst kv)) (lower prompt)
                               && negb (mem (fst kv) combined_keywords))%bool)
                   enhancements with
        | Some kv => (snd kv, fst kv +++ ": " +++ original_prompt)
        | None => (prompt, prompt)
        end
    end in
  if String.eqb expanded prompt' then
    prompt' +++ ", with highly detailed textures, dramatic lighting, cinematic composition, photo-realistic quality"
  else expanded.

(** the tags stored with a creation, line 824 *)
Definition tags_of (user_prompt : string) : list string :=
  map lower (List.filter (fun word => 3 <? len word) (split user_prompt)).

End WithUnicode.

(** [extract_memory_references], lines 274-321 *)
Definition reference_keywords : list string :=
  ["like the one"; "similar to"; "same as"; "like I created"; "like the"; "like my"].

Definition stop_words : list string :=
  ["like"; "the"; "one"; "similar"; "same"; "created"; "make"; "generate"].

(** [max(matches, key=lambda x: x["timestamp"])]: the first of the largest. *)
Fixpoint max_by_timestamp (best : Sqlite.row) (l : list Sqlite.row) : Sqlite.row :=
  match l with
  | [] => best
  | r :: rest =>
      if String.ltb (Sqlite.timestamp (Sqlite.fields best))
                    (Sqlite.timestamp (Sqlite.fields r))
      then max_by_timestamp r rest
      else max_by_timestamp best rest
  end.

Record process (W : Type) := {
  host : W;
  memory_manager : Sqlite.MemoryManager;
  files : disk
}.
Arguments host {W} _.
Arguments memory_manager {W} _.
Arguments files {W} _.

Section WithHost.
Context {W : Type} `{Host W} {U : Unicode}.

(** [for tag in potential_tags: matches.extend(memory_manager.search(tag))] *)
Fixpoint search_all (mm : Sqlite.MemoryManager) (tags : list string) (w : W)
  : list Sqlite.row * W :=
  match tags with
  | [] => ([], w)
  | tag :: rest =>
      let '(results, w) := Sqlite.search mm tag w in
      let '(more, w) := search_all mm rest w in
      (results ++ more, w)
  end.

(** The words of the prompt the memory is searched for. *)
Definition potential_tags (prompt : string) : list string :=
  List.filter (fun word => (3 <? len word) && negb (mem (lower word) stop_words))%bool
         (split prompt).

Definition extract_memory_references (mm : Sqlite.MemoryManager) (prompt : string)
  (w : W) : (string * option Sqlite.row) * W :=
  let lower_prompt := lower prompt in
  let reference_found := existsb (fun k => contains k lower_prompt) reference_keywords in
  if reference_found then
    let '(matches, w) := search_all mm (potential_tags prompt) w in
    match matches with
    | m :: ms =>
        let best_match := max_by_timestamp m ms in
        match find (fun k => contains k lower_prompt) reference_keywords with
        | Some keyword =>
            let clean_prompt := strip (before_first keyword (lower prompt)) in
            ((clean_prompt, Some best_match), w)
        | None => ((prompt, None), w)
        end
    | [] => ((prompt, None), w)
    end
  else ((prompt, None), w).

(** [generate_text_to_image], lines 323-625: the image is drawn and encoded
    inside a [try]; whatever is raised there is caught and [None] is
    returned. *)
Definition generate_text_to_image (prompt : string) (w : W) : option string * W :=
  let '(img, ops, w) := RenderMain.create_dragon_forest_image prompt w in
  match img with
  | Some _ => (save_png ops, w)
  | None => (None, w)
  end.

Definition output_dir : string := Path.join app_dir "output".

(** [save_results], lines 675-740 *)
Definition save_results (image_data model_data : string) (p : process W)
  : (string * string) * process W :=
  let '(t, w) := time_time (host p) in
  let timestamp := int t in
  let image_path := Path.join output_dir ("image_" +++ str_of_int timestamp +++ ".png") in
  let model_path := Path.join output_dir ("model_" +++ str_of_int timestamp +++ ".obj") in
  let html_path := Path.join output_dir ("view_" +++ str_of_int timestamp +++ ".html") in
  ((image_path, model_path),
   {| host := w; memory_manager := memory_manager p;
      files := files p ++ [(image_path, image_bytes image_data);
                           (model_path, model_bytes model_data);
                           (html_path, viewer_page timestamp)] |}).

(** [str(request_data)] *)
Definition str_of_json (v : json) : string :=
  match v with
  | JNull => "None"
  | JBool true => "True"
  | JBool false => "False"
  | JNum n => str_of_int n
  | JStr s => s
  | JArr _ | JObj _ => repr_container v
  end.

(** lines 760-772: the prompt read from the request *)
Definition requested_prompt (request_data : json) : json :=
  match request_data with
  | JObj m =>
      match get_member "prompt" m with
      | Some v => v
      | None => JStr (str_of_json request_data)
      end
  | _ => JStr (str_of_json request_data)
  end.

(** [execute], lines 745-851.  [inl e]: the exception [e] leaves the
    function. *)
Definition execute (request_data : json) (p : process W)
  : (exn + reply) * process W :=
  let prompt_value := requested_prompt request_data in
  if negb (truthy prompt_value) then
    (inr (message_only "Please provide a prompt to generate content."), p)
  else
    match prompt_value with
    | JStr user_prompt =>
        let '((clean_prompt, referenced_memory), w) :=
          extract_memory_references (memory_manager p) user_prompt (host p) in
        let expanded_prompt :=
          match referenced_memory with
          | Some m =>
              generate (clean_prompt +++ ", similar to "
                        +++ Sqlite.expanded_prompt (Sqlite.fields m))
          | None => generate clean_prompt
          end in
        let '(image_data, w) := generate_text_to_image expanded_prompt w in
        let p := {| host := w; memory_manager := memory_manager p; files := files p |} in
        match image_data with
        | None | Some EmptyString =>
            (inr (message_only "Failed to generate image from prompt."), p)
        | Some image_data =>
            match Mesh.generate_image_to_3d tt image_data "super-user" with
            | None | Some EmptyString =>
                (inr (message_only "Failed to generate 3D model from image."), p)
            | Some model_data =>
                let '((image_path, model_path), p) :=
                  save_results image_data model_data p in
                let tags := tags_of user_prompt in
                let '(mm, w) :=
                  Sqlite.store (memory_manager p) user_prompt expanded_prompt
                               image_path model_path (Some tags) (host p) in
                let image_filename := Path.basename image_path in
                let model_filename := Path.basename model_path in
                let '(t, w) := time_time w in
                let html_filename := "view_" +++ str_of_int (int t) +++ ".html" in
                let output_dir := Path.dirname image_path in
                let response_message :=
                  "Created: " +++ user_prompt +++ nl +++
                  "Expanded: " +++ expanded_prompt +++ nl +++
                  "Image saved to: " +++ image_path +++ nl +++
                  "3D model saved to: " +++ model_path +++ nl +++
                  "View results at: " +++ Path.join output_dir html_filename +++ nl in
                (inr (created response_message image_filename model_filename
                              html_filename (Some output_dir)),
                 {| host := w; memory_manager := mm; files := files p |})
            end
        end
    | _ => (inl AttributeError_lower, p)
    end.

(** app.py, lines 23-34: [POST /generate] *)
Definition generate_endpoint (data : json) (p : process W) : response * process W :=
  if negb (truthy data) then
    ({| status := 400; body := error_text "Missing 'prompt' in request" |}, p)
  else
    match prompt_in data with
    | None => ({| status := 500; body := error_exn TypeError_not_iterable |}, p)
    | Some false =>
        ({| status := 400; body := error_text "Missing 'prompt' in request" |}, p)
    | Some true =>
        match execute data p with
        | (inr result, p') => ({| status := 200; body := json_reply result |}, p')
        | (inl e, p') => ({| status := 500; body := error_exn e |}, p')
        end
    end.

End WithHost.
End Main.

(** ** test_app.py: [POST /generate] *)

Module TestApp.
Import Str Num.

Record process (W : Type) := {
  host : W;
  memory_manager : Chroma.ChromaMemoryManager;
  files : disk
}.
Arguments host {W} _.
Arguments memory_manager {W} _.
Arguments files {W} _.

(** lines 152-161 *)
Definition image_type_label (prompt_lower : string) : string :=
  if contains "dragon" prompt_lower then "Dragon"
  else if contains "robot" prompt_lower then "Robot"
  else if contains "city" prompt_lower then "City"
  else if contains "space" prompt_lower then "Space"
  else "Image".

(** the tags stored with a creation, line 214 *)
Definition tags_of {U : Unicode} (prompt : string) : list string :=
  map lower (List.filter (fun word => 3 <? len word) (split prompt)).

Section WithHost.
Context {W : Type} `{Host W} {U : Unicode}.

Definition output_dir : string := Path.join app_dir "output".

Definition server_error (e : exn) : response :=
  {| status := 500; body := error_exn e |}.

(** lines 109-231 *)
Definition generate (data : json) (p : process W) : response * process W :=
  if negb (truthy data) then
    ({| status := 400; body := error_text "Missing 'prompt' in request" |}, p)
  else
    match prompt_in data with
    | None => (server_error TypeError_not_iterable, p)
    | Some false =>
        ({| status := 400; body := error_text "Missing 'prompt' in request" |}, p)
    | Some true =>
        match data with
        | JObj m =>
            match get_member "prompt" m with
            | Some (JStr prompt) =>
                let '(_, image, w) := Render.create_ai_image prompt (host p) in
                let '(t, w) := time_time w in
                let timestamp := int t in
                let image_filename := "image_" +++ str_of_int timestamp +++ ".png" in
                let image_path := Path.join output_dir image_filename in
                match save_png image with
                | None =>
                    (server_error SaveError,
                     {| host := w; memory_manager := memory_manager p; files := files p |})
                | Some png =>
                    let model_filename := "model_" +++ str_of_int timestamp +++ ".obj" in
                    let model_path := Path.join output_dir model_filename in
                    let prompt_lower := lower prompt in
                    let label := image_type_label prompt_lower in
                    let html_filename := "view_" +++ str_of_int timestamp +++ ".html" in
                    let html_path := Path.join output_dir html_filename in
                    let files' :=
                      files p ++
                      [(image_path, image_bytes png);
                       (model_path, model_text Mesh.model_file_text);
                       (html_path, gallery_page timestamp prompt label image_filename
                                                model_filename)] in
                    let tags := tags_of prompt in
                    let '(mm, w) :=
                      Chroma.store (memory_manager p) prompt prompt image_path model_path
                                   (Some tags) w in
                    ({| status := 200;
                        body := json_reply
                          (created ("Created image from prompt: " +++ prompt)
                                   ("/output/" +++ image_filename)
                                   ("/output/" +++ model_filename)
                                   ("/output/" +++ html_filename) None) |},
                     {| host := w; memory_manager := mm; files := files' |})
                end
            | Some _ => (server_error AttributeError_lower, p)
            | None => (server_error TypeError_indices, p)
            end
        | _ => (server_error TypeError_indices, p)
        end
    end.

End WithHost.
End TestApp.

(** ** A small concrete host, for running the model *)

Module Demo.
Import Str Num.

(** [seed] drives the generator, [clock] is the time in seconds and advances
    by [tick] at each reading, [db_up] says whether the database answers. *)
Record world := { seed : Z; clock : Q; tick : Q; db_up : bool }.

Definition next (w : world) : world :=
  {| seed := seed w + 1; clock := clock w; tick := tick w; db_up := db_up w |}.

Definition advance (w : world) : world :=
  {| seed := seed w; clock := Qred (clock w + tick w); tick := tick w; db_up := db_up w |}.

#[export] Instance demo_host : Host world := {
  randint a b w := (a + (seed w * 7919) mod (b - a + 1), next w);
  random w := (inject_Z ((seed w * 7) mod 10) / 10, next w)%Q;
  time_time w := (clock w, advance w);
  now_isoformat w := (str_of_int (1000000000 + int (clock w)), advance w);
  sin x := 0%Q;
  pi := (355 # 113)%Q;
  has_arial := false;
  save_png img := if forallb (fun o => accepted (snd o)) img then Some "PNG" else None;
  textwrap_fill text width := text;
  insert_succeeds w := (db_up w, w);
  select_succeeds w := (db_up w, w);
  app_dir := "/app";
  repr_container v := "[...]"
}.

Definition boot (s : Z) : world :=
  {| seed := s; clock := 1700000000; tick := 1; db_up := true |}.

(** A small Unicode table: the capital letters of Latin-1 (U+00C0 to U+00DE,
    the multiplication sign apart) are folded, every other character is left
    as it is. *)
Definition latin1_lower (ch : string) : string :=
  let cp := ord ch in
  if ((String.length ch =? 2)%nat && (192 <=? cp) && (cp <=? 222) && negb (cp =? 215))%bool
  then chr (cp + 32) else ch.

#[export, refine] Instance demo_unicode : Unicode := {
  lower_wide before ch after := latin1_lower ch
}.
Proof.
  intros _ ch _ Hne Hw. unfold latin1_lower.
  destruct ((String.length ch =? 2)%nat && (192 <=? ord ch) && (ord ch <=? 222)
            && negb (ord ch =? 215))%bool eqn:E; [|now split].
  apply andb_true_iff in E as [E _]. apply andb_true_iff in E as [E Hhi].
  apply andb_true_iff in E as [_ Hlo]. apply Z.leb_le in Hlo, Hhi.
  assert (Hk : exists k, (k <= 30)%nat /\ ord ch = 192 + Z.of_nat k)
    by (exists (Z.to_nat (ord ch - 192)); lia).
  destruct Hk as (k & Hk & ->).
  do 31 (destruct k as [|k]; [split; [discriminate | reflexivity]|]). lia.
Defined.

End Demo.

(** ** Tags, in the specification's words *)

Module SpecTags.
Import Str.

Definition flush (cur : string) : list string :=
  match cur with
  | EmptyString => []
  | _ => [cur]
  end.

(** The tokens of a text: read its characters from left to right, gathering
    them into the current token and closing the token at white space. *)
Fixpoint scan (l : list string) (cur : string) : list string :=
  match l with
  | [] => flush cur
  | c :: t =>
      if is_space c then flush cur ++ scan t EmptyString
      else scan t (cur +++ c)
  end.

Definition tokens (s : string) : list string := scan (chars s) EmptyString.

(** Whether a run of characters opens with a token character. *)
Definition starts_token (l : list string) : bool :=
  match l with
  | d :: _ => negb (is_space d)
  | [] => false
  end.

Section WithUnicode.
Context {U : Unicode}.

(** The tags derivable from a prompt: its tokens longer than 3 characters,
    case-folded, in order. *)
Definition derived_tags (prompt : string) : list string :=
  map lower (List.filter (fun t => 3 <? len t) (tokens prompt)).



End WithUnicode.

End SpecTags.

(** ** A host whose database rejects every insert *)

Module Offline.

Record world := { inner : Demo.world }.

Definition lift {A} (r : A * Demo.world) : A * world :=
  (fst r, {| inner := snd r |}).

#[export] Instance offline_host : Host world := {
  randint a b w := lift (@randint _ Demo.demo_host a b (inner w));
  random w := lift (@random _ Demo.demo_host (inner w));
  time_time w := lift (@time_time _ Demo.demo_host (inner w));
  now_isoformat w := lift (@now_isoformat _ Demo.demo_host (inner w));
  sin := @sin _ Demo.demo_host;
  pi := @pi _ Demo.demo_host;
  has_arial := @has_arial _ Demo.demo_host;
  save_png := @save_png _ Demo.demo_host;
  textwrap_fill := @textwrap_fill _ Demo.demo_host;
  insert_succeeds w := (false, w);
  select_succeeds w := lift (@select_succeeds _ Demo.demo_host (inner w));
  app_dir := @app_dir _ Demo.demo_host;
  repr_container := @repr_container _ Demo.demo_host
}.

Definition boot (s : Z) : world := {| inner := Demo.boot s |}.

End Offline.

(** ** Hosts that deliver the same draws *)

(** [R] relates states of two hosts from which [random.randint] and
    [random.random] return the same values, again and again; the two hosts
    also share the mathematics library, the font and the PNG encoder. *)
Record same_draws {W1 W2 : Type} (H1 : Host W1) (H2 : Host W2)
  (R : W1 -> W2 -> Prop) : Prop := {
  sd_randint : forall a b w1 w2, R w1 w2 ->
    fst (randint a b w1) = fst (randint a b w2)
    /\ R (snd (randint a b w1)) (snd (randint a b w2));
  sd_random : forall w1 w2, R w1 w2 ->
    fst (random w1) = fst (random w2) /\ R (snd (random w1)) (snd (random w2));
  sd_sin : @sin W1 H1 = @sin W2 H2;
  sd_pi : @pi W1 H1 = @pi W2 H2;
  sd_font : @has_arial W1 H1 = @has_arial W2 H2;
  sd_png : @save_png W1 H1 = @save_png W2 H2;
  sd_wrap : @textwrap_fill W1 H1 = @textwrap_fill W2 H2
}.

(** Two computations that, from related states, return the same value, record
    the same output and end in related states. *)
Definition sim {W1 W2 O A : Type} (R : W1 -> W2 -> Prop)
  (m1 : Out W1 O A) (m2 : Out W2 O A) : Prop :=
  forall w1 w2, R w1 w2 ->
    val m1 w1 = val m2 w2 /\ calls m1 w1 = calls m2 w2
    /\ R (after m1 w1) (after m2 w2).

(** ** The row a [store] writes *)

Module Stored.
Import Str Num Sqlite.

Section WithHost.
Context {W : Type} `{Host W}.

(** The row [MemoryManager.store] inserts (main.py, lines 150-170), from the
    values it is given and the time it reads. *)
Definition new_row (mm : MemoryManager) (p e i m : string)
  (tags : option (list string)) (w : W) : row :=
  {| id := last_id mm + 1;
     fields := {| timestamp := fst (now_isoformat w); prompt := p;
                  expanded_prompt := e; image_path := i; model_path := m;
                  tags := tags_or_empty tags |} |}.

End WithHost.
End Stored.

(** ** The suffix of [LocalLLM.generate] *)

Module Expansion.

(** main.py, line 124: what is appended to a prompt no keyword matched. *)
Definition generic_suffix : string :=
  ", with highly detailed textures, dramatic lighting, cinematic composition, photo-realistic quality".

End Expansion.

Module Sky.
Import Num Render.

(** The colour of row [y] of the sky: the body of the loop of lines 257-277
    of test_app.py. *)
Definition row_colour (image_type : SceneType) (y : Z) : colour :=
  sky_rgb image_type (1 - (float y / float img_height * 0.7))%Q.

(** [a] is at most [b] in each channel. *)
Definition dimmer (a b : colour) : bool :=
  let '(r, g, b') := a in
  let '(r0, g0, b0) := b in
  ((r <=? r0) && (g <=? g0) && (b' <=? b0))%bool.

(** A colour Pillow accepts as it is: each channel within 0..255. *)
Definition in_gamut (a : colour) : bool :=
  let '(r, g, b) := a in
  ((0 <=? r) && (r <=? 255) && (0 <=? g) && (g <=? 255) && (0 <=? b) && (b <=? 255))%bool.

End Sky.

(** ** The layers of the flame *)

Module Flame.
Import Num.

(** The flame core: the line through the mean of the ordinates of the
    outline. *)
Definition core (outline : list point) : Q :=
  (sumQ (map snd outline) / float (Z.of_nat (length outline)))%Q.

(** The outline drawn toward the core: every point keeps its abscissa, and
    its distance to the core is multiplied by [s]. *)
Definition toward_core (outline : list point) (s : Q) : list point :=
  map (fun p => (fst p, ((snd p - core outline) * s + core outline)%Q)) outline.

(** [c] is the mean of the ordinates of [pts]. *)
Definition mean_y (c : Q) (pts : list point) : Prop :=
  (c * inject_Z (Z.of_nat (length pts)) == fold_right Qplus 0 (map snd pts))%Q.

(** [inner] is [outer] with every point moved toward the line [y = c]: the
    abscissa is kept and the distance to the line is multiplied by [s]. *)
Definition scaled_toward (c s : Q) (outer inner : list point) : Prop :=
  Forall2 (fun p q => fst q = fst p /\ (snd q - c == (snd p - c) * s)%Q) outer inner.

End Flame.

Module Token.
Import Str.

(** No character of [s] is white space. *)
Definition solid (s : string) : bool :=
  forallb (fun ch => negb (is_space ch)) (chars s).

End Token.

(** ** model_viewer.py: the date shown under a model *)

Module Browser.
Import Str.

Section WithPython.
(** [int(s)] on a text; [None] when it raises [ValueError]. *)
Variable int_of_text : string -> option Z.
(** [time.strftime("%Y-%m-%d %H:%M:%S", time.localtime(t))]; [None] when
    [localtime] raises. *)
Variable format_time : Z -> option string.

(** [display_3d_viewer], lines 172-178: the date read off the name of a
    model file.  [None]: [split("_")[1]] raises [IndexError], outside the
    [try]. *)
Definition formatted_date (model_path : string) : option string :=
  let model_filename := Path.basename model_path in
  match split_on "_" model_filename with
  | _ :: second :: _ =>
      match split_on "." second with
      | timestamp_str :: _ =>
          match int_of_text timestamp_str with
          | Some timestamp =>
              match format_time timestamp with
              | Some formatted => Some formatted
              | None => Some "Unknown date"
              end
          | None => Some "Unknown date"
          end
      | [] => None
      end
  | _ => None
  end.

End WithPython.
End Browser.

(** ** What the drawing code asks of [random] and of Pillow *)

Module Safety.
Import Num.

(** The corners of a box in the order Pillow wants them: [x0 <= x1] and
    [y0 <= y1]. *)
Definition ordered (b : box) : bool :=
  let '(x0, y0, x1, y1) := b in (Qle_bool x0 x1 && Qle_bool y0 y1)%bool.

(** A call whose box, if it takes one, is ordered. *)
Definition well_formed (c : draw_call) : bool :=
  match c with
  | ellipse xy _ _ | rectangle xy _ _ _ | arc xy _ _ _ _ => ordered xy
  | line _ _ _ | polygon _ _ | text _ _ _ _ => true
  end.

(** A host over [W] that also remembers whether [random.randint(a, b)] was
    ever called with [b < a], the call [random] answers with [ValueError]. *)
Record checked (W : Type) := { inner : W; empty_range : bool }.
Arguments inner {W} _.
Arguments empty_range {W} _.

Definition keep {W A} (flag : bool) (r : A * W) : A * checked W :=
  (fst r, {| inner := snd r; empty_range := flag |}).

Definition checked_host {W : Type} `{Host W} : Host (checked W) := {|
  randint a b w :=
    keep (empty_range w || (b <? a))%bool (randint a b (inner w));
  random w := keep (empty_range w) (random (inner w));
  time_time w := keep (empty_range w) (time_time (inner w));
  now_isoformat w := keep (empty_range w) (now_isoformat (inner w));
  sin := sin;
  pi := pi;
  has_arial := has_arial (W := W);
  save_png := save_png (W := W);
  textwrap_fill := textwrap_fill (W := W);
  insert_succeeds w := keep (empty_range w) (insert_succeeds (inner w));
  select_succeeds w := keep (empty_range w) (select_succeeds (inner w));
  app_dir := app_dir (W := W);
  repr_container := repr_container (W := W)
|}.

(** The generator as the [random] module documents it: [randint(a, b)]
    lies within [a..b] when [a <= b], and [random()] within [0, 1). *)
Definition lawful (W : Type) `{Host W} : Prop :=
  (forall a b (w : W), a <= b -> a <= fst (randint a b w) <= b)
  /\ (forall w : W, (0 <= fst (random w))%Q /\ (fst (random w) < 1)%Q).

(** [m], run from a state satisfying [good], ends in such a state, records
    only outputs satisfying [P] and returns a value satisfying [Q]. *)
Definition sound {W O A : Type} (good : W -> Prop) (P : O -> Prop)
  (m : Out W O A) (Q : A -> Prop) : Prop :=
  forall w, good w -> good (after m w) /\ Forall P (calls m w) /\ Q (val m w).

End Safety.

(** ** core/stub.py: [Stub._has_resource_fields] *)

Module StubSchema.

(** Whether a later member of the object has the key: the member at hand is
    then not an item of the dictionary. *)
Definition rebound (key : string) (rest : list (string * json)) : bool :=
  existsb (fun kv => String.eqb (fst kv) key) rest.

(** [isinstance(value, (dict, list))] *)
Definition is_container (v : json) : bool :=
  match v with
  | JObj _ | JArr _ => true
  | _ => false
  end.

(** stub.py, lines 71-84.  The items of a dictionary are the members that
    no later member rebinds; the order they are visited in does not bear on
    the answer. *)
Fixpoint has_resource_fields (schema : json) : bool :=
  match schema with
  | JObj members =>
      (fix items (l : list (string * json)) : bool :=
         match l with
         | [] => false
         | (key, value) :: rest =>
             (negb (rebound key rest)
              && ((String.eqb key "resource" && truthy value)
                  || (is_container value && has_resource_fields value))
              || items rest)%bool
         end) members
  | JArr l =>
      (fix each (l : list json) : bool :=
         match l with
         | [] => false
         | item :: rest => (has_resource_fields item || each rest)%bool
         end) l
  | _ => false
  end.

(** A schema that holds, at some depth, a dictionary whose "resource" item
    is truthy. *)
Inductive resourceful : json -> Prop :=
| resource_here (members : list (string * json)) (value : json) :
    get_member "resource" members = Some value -> truthy value = true ->
    resourceful (JObj members)
| resource_under (members : list (string * json)) (key : string) (value : json) :
    get_member key members = Some value -> resourceful value ->
    resourceful (JObj members)
| resource_inside (l : list json) (item : json) :
    In item l -> resourceful item -> resourceful (JArr l).

End StubSchema.

(** * Properties *)

(** ** Substring search and case folding *)

Module StrFacts.
Import Str.

Lemma append_assoc (a b c : string) : (a +++ b) +++ c = a +++ b +++ c.
Proof. induction a as [|x a IH]; simpl; [reflexivity | now rewrite IH]. Qed.

Lemma append_empty_r (a : string) : a +++ EmptyString = a.
Proof. induction a as [|x a IH]; simpl; [reflexivity | now rewrite IH]. Qed.

Lemma startswith_spec (p s : string) :
  startswith p s = true <-> exists b, s = p +++ b.
Proof.
  revert s; induction p as [|a p IH]; intros s; simpl.
  - split; [intros _; now exists s | reflexivity].
  - destruct s as [|b s].
    + split; [discriminate | intros [x Hx]; discriminate].
    + rewrite andb_true_iff, IH. split.
      * intros [Hab [x ->]]. apply Ascii.eqb_eq in Hab as ->. now exists x.
      * intros [x Hx]. injection Hx as -> ->. split; [apply Ascii.eqb_refl | now exists x].
Qed.

Lemma contains_spec (n s : string) :
  contains n s = true <-> exists a b, s = a +++ n +++ b.
Proof.
  induction s as [|c s IH].
  - simpl. rewrite orb_false_r, startswith_spec. split.
    + intros [b Hb]. now exists EmptyString, b.
    + intros [a [b Hab]]. destruct a; [now exists b | discriminate].
  - cbn [contains]. rewrite orb_true_iff, startswith_spec, IH. split.
    + intros [[b Hb] | [a [b Hab]]].
      * now exists EmptyString, b.
      * exists (String c a), b. simpl. now rewrite Hab.
    + intros [a [b Hab]]. destruct a as [|x a]; simpl in Hab.
      * left. now exists b.
      * right. injection Hab as _ ->. now exists a, b.
Qed.

(** A text occurs wherever a text that holds it occurs. *)
Lemma contains_part (n n' s : string) :
  contains n' n = true -> contains n s = true -> contains n' s = true.
Proof.
  intros Hn Hs. apply contains_spec in Hn as (x & y & ->).
  apply contains_spec in Hs as (a & b & ->). apply contains_spec.
  exists (a +++ x), (y +++ b). now rewrite !append_assoc.
Qed.

(** *** The characters of a text *)

Lemma ascii_not_continuation (c : ascii) : is_ascii c = true -> is_continuation c = false.
Proof.
  unfold is_ascii, is_continuation. intros Hc. apply Nat.ltb_lt in Hc.
  apply andb_false_iff. left. apply Nat.leb_gt. exact Hc.
Qed.

Lemma chars_cons_ascii (c : ascii) (t : string) :
  is_ascii c = true -> chars (String c t) = String c EmptyString :: chars t.
Proof. intros Hc. cbn [chars]. rewrite Hc. now destruct (chars t). Qed.

Lemma chars_app_ascii (a : string) (c : ascii) (t : string) :
  is_ascii c = true -> chars (a +++ String c t) = chars a ++ chars (String c t).
Proof.
  intros Hc. rewrite (chars_cons_ascii c t Hc).
  induction a as [|x a IH]; [now rewrite <- (chars_cons_ascii c t Hc)|].
  cbn [String.append chars]. rewrite IH.
  destruct (chars a) as [|ch rest]; cbn [app].
  - cbn [starts_inside]. rewrite (ascii_not_continuation c Hc), andb_false_r. reflexivity.
  - now destruct (negb (is_ascii x) && starts_inside ch)%bool.
Qed.

Lemma chars_ascii_app (m b : string) :
  ascii_only m = true -> chars (m +++ b) = chars m ++ chars b.
Proof.
  induction m as [|c m IH]; intros Hm; [reflexivity|].
  cbn [ascii_only] in Hm. apply andb_true_iff in Hm as [Hc Hm].
  cbn [String.append]. rewrite !(chars_cons_ascii c _ Hc), (IH Hm). reflexivity.
Qed.

Lemma join_cons (ch : string) (l : list string) :
  join EmptyString (ch :: l) = ch +++ join EmptyString l.
Proof. destruct l; cbn [join]; [now rewrite append_empty_r | reflexivity]. Qed.

Lemma join_app (l l' : list string) :
  join EmptyString (l ++ l') = join EmptyString l +++ join EmptyString l'.
Proof.
  induction l as [|ch l IH]; [reflexivity|].
  cbn [app]. now rewrite !join_cons, IH, append_assoc.
Qed.

(** A text is its characters, one after the other. *)
Lemma join_chars (s : string) : join EmptyString (chars s) = s.
Proof.
  induction s as [|c s IH]; [reflexivity|]. cbn [chars].
  destruct (chars s) as [|ch rest].
  - cbn in IH. now subst s.
  - rewrite join_cons in IH.
    destruct (negb (is_ascii c) && starts_inside ch)%bool; rewrite !join_cons;
      cbn [String.append]; now rewrite IH.
Qed.


(** *** Texts that spell a word *)

Lemma opens_with_spec (l : list string) (w : string) :
  opens_with l w = true <-> exists m b, l = m ++ b /\ spells m w = true.
Proof.
  revert l. induction w as [|x w IH]; intros l.
  - split; [intros _; now exists [], l | reflexivity].
  - destruct l as [|ch rest].
    + split; [discriminate|]. intros (m & b & E & Hs).
      symmetry in E. apply app_eq_nil in E as [-> _]. discriminate Hs.
    + cbn [opens_with]. rewrite orb_true_iff, andb_true_iff, IH. split.
      * intros [[Hf (m & b & -> & Hs)] | Hd].
        -- exists (ch :: m), b. split; [reflexivity|]. cbn [spells]. now rewrite Hf, Hs.
        -- exists [ch], rest. split; [reflexivity|]. cbn [spells].
           rewrite Hd. apply orb_true_r.
      * intros (m & b & E & Hs). destruct m as [|c m]; [discriminate Hs|].
        injection E as -> ->. cbn [spells] in Hs.
        apply orb_true_iff in Hs as [Hs | Hs].
        -- apply andb_true_iff in Hs as [Hf Hs]. left. split; [exact Hf | now exists m, b].
        -- right. apply andb_true_iff in Hs as [Hs _]. exact Hs.
Qed.

Lemma spelt_in_spec (w : string) (l : list string) :
  spelt_in w l = true <-> exists a m b, l = a ++ m ++ b /\ spells m w = true.
Proof.
  induction l as [|c t IH]; cbn [spelt_in]; rewrite orb_true_iff, opens_with_spec.
  - split.
    + intros [(m & b & E & Hs) | Hf]; [now exists [], m, b | discriminate].
    + intros (a & m & b & E & Hs). left. destruct a; [now exists m, b | discriminate].
  - rewrite IH. split.
    + intros [(m & b & E & Hs) | (a & m & b & -> & Hs)];
        [now exists [], m, b | now exists (c :: a), m, b].
    + intros (a & m & b & E & Hs). destruct a as [|c' a].
      * left. now exists m, b.
      * right. injection E as _ ->. now exists a, m, b.
Qed.

(** *** What a character is *)

Lemma chars_like (s : string) :
  List.Forall (fun ch => ch <> EmptyString
                         /\ ((exists c, ch = String c EmptyString) \/ wide ch = true))
              (chars s).
Proof.
  induction s as [|c s IH]; [constructor|]. cbn [chars].
  destruct (chars s) as [|ch rest];
    [constructor; [split; [discriminate | left; now exists c] | constructor]|].
  inversion IH as [|? ? [Hne Hch] Hrest]; subst.
  destruct (negb (is_ascii c) && starts_inside ch)%bool eqn:E.
  - apply andb_true_iff in E as [Hc Hi]. constructor; [|exact Hrest].
    split; [discriminate|]. right.
    cbn [wide]. rewrite Hc. cbn [andb].
    destruct Hch as [[d ->] | Hw]; [|exact Hw].
    cbn [starts_inside] in Hi. cbn [wide]. rewrite andb_true_r.
    unfold is_continuation in Hi. apply andb_true_iff in Hi as [Hi _].
    apply Nat.leb_le in Hi. unfold is_ascii. apply negb_true_iff, Nat.ltb_ge. exact Hi.
  - constructor; [split; [discriminate | left; now exists c]|].
    constructor; [now split | exact Hrest].
Qed.

Lemma startswith_wide (x : ascii) (w o r : string) :
  is_ascii x = true -> o <> EmptyString -> wide o = true ->
  startswith (String x w) (o +++ r) = false.
Proof.
  intros Hx Hne Ho. destruct o as [|c o]; [congruence|].
  cbn [String.append startswith]. cbn [wide] in Ho. apply andb_true_iff in Ho as [Hc _].
  destruct (Ascii.eqb_spec x c) as [-> | _]; [|reflexivity].
  rewrite Hx in Hc. discriminate Hc.
Qed.

Lemma contains_skip_wide (x : ascii) (w o r : string) :
  is_ascii x = true -> wide o = true ->
  contains (String x w) (o +++ r) = contains (String x w) r.
Proof.
  intros Hx. induction o as [|c o IH]; intros Ho; [reflexivity|].
  cbn [wide] in Ho. apply andb_true_iff in Ho as [Hc Ho].
  cbn [String.append contains startswith].
  destruct (Ascii.eqb_spec x c) as [-> | _]; [rewrite Hx in Hc; discriminate Hc|].
  cbn [andb orb]. now apply IH.
Qed.

Lemma ascii_lower_length (s : string) : String.length (ascii_lower s) = String.length s.
Proof. induction s as [|c s IH]; simpl; [reflexivity | now rewrite IH]. Qed.

Lemma lower_ascii_is_ascii (c : ascii) : is_ascii (lower_ascii c) = is_ascii c.
Proof. destruct c as [[] [] [] [] [] [] [] []]; vm_compute; reflexivity. Qed.

Lemma ascii_lower_ascii_only (s : string) : ascii_only (ascii_lower s) = ascii_only s.
Proof.
  induction s as [|c s IH]; [reflexivity|]. cbn [ascii_lower ascii_only].
  now rewrite lower_ascii_is_ascii, IH.
Qed.

(** *** Case folding *)

Section WithUnicode.
Context {U : Unicode}.

Lemma lower_chars_app (before : string) (l l' : list string) :
  exists x, lower_chars before (l ++ l')
            = x +++ lower_chars (before +++ join EmptyString l) l'.
Proof.
  revert before. induction l as [|ch l IH]; intros before.
  - exists EmptyString. cbn [app join]. now rewrite append_empty_r.
  - cbn [app lower_chars]. destruct (IH (before +++ ch)) as [x ->].
    exists (lower_char before ch (join EmptyString (l ++ l')) +++ x).
    now rewrite join_cons, !append_assoc.
Qed.

(** ASCII text is folded letter by letter, whatever stands around it. *)
Lemma lower_chars_ascii (before m : string) (l : list string) :
  ascii_only m = true ->
  lower_chars before (chars m ++ l) = ascii_lower m +++ lower_chars (before +++ m) l.
Proof.
  revert before. induction m as [|c m IH]; intros before Hm.
  - cbn [chars app ascii_lower String.append]. now rewrite append_empty_r.
  - cbn [ascii_only] in Hm. apply andb_true_iff in Hm as [Hc Hm].
    rewrite (chars_cons_ascii c m Hc). cbn [app lower_chars lower_char].
    rewrite Hc, (IH _ Hm), append_assoc. reflexivity.
Qed.

Lemma lower_ascii_only (s : string) : ascii_only s = true -> lower s = ascii_lower s.
Proof.
  intros Hs. unfold lower. rewrite <- (app_nil_r (chars s)).
  rewrite (lower_chars_ascii _ s [] Hs). cbn [lower_chars]. apply append_empty_r.
Qed.

(** The lower case of one character, by the kind of the character. *)
Lemma lower_char_cases (before ch after : string) :
  ch <> EmptyString ->
  (exists c, ch = String c EmptyString) \/ wide ch = true ->
  (exists c, ch = String c EmptyString /\ is_ascii c = true
             /\ lower_char before ch after = String (lower_ascii c) EmptyString)
  \/ (ch = kelvin_sign /\ lower_char before ch after = "k")
  \/ (ch = capital_i_dotted /\ lower_char before ch after = "i" +++ combining_dot)
  \/ ((forall x, folds_to ch x = false) /\ ch <> capital_i_dotted
      /\ lower_char before ch after <> EmptyString
      /\ wide (lower_char before ch after) = true).
Proof.
  intros Hne Hch.
  assert (Hw : wide ch = true ->
               lower_wide before ch after <> EmptyString
               /\ wide (lower_wide before ch after) = true)
    by (intros Hw; now apply lower_wide_wide).
  destruct ch as [|c [|d ch]]; [congruence| |].
  - cbn [lower_char]. destruct (is_ascii c) eqn:Ec.
    + left. now exists c.
    + right. right. right.
      split; [intros x; cbn [folds_to]; now rewrite Ec|].
      split; [discriminate|]. apply Hw. cbn [wide]. now rewrite Ec.
  - destruct Hch as [[c' E] | Hwide]; [discriminate E|].
    unfold lower_char.
    destruct (String.eqb_spec (String c (String d ch)) kelvin_sign) as [Ek | Nk];
      [right; left; now split|].
    destruct (String.eqb_spec (String c (String d ch)) capital_i_dotted) as [Ed | Nd];
      [right; right; left; now split|].
    right. right. right. split; [|split; [exact Nd | now apply Hw]].
    intros x. cbn [folds_to]. apply String.eqb_neq in Nk. now rewrite Nk.
Qed.

Lemma lower_char_head (before ch after : string) :
  ch <> EmptyString ->
  (exists c, ch = String c EmptyString) \/ wide ch = true ->
  exists a o, lower_char before ch after = String a o /\ wide o = true.
Proof.
  intros Hne Hch.
  destruct (lower_char_cases before ch after Hne Hch)
    as [(c & _ & _ & ->) | [[_ ->] | [[_ ->] | (_ & _ & Hn & Hw)]]].
  - now eexists _, _.
  - now eexists _, _.
  - now eexists _, _.
  - destruct (lower_char before ch after) as [|a o]; [congruence|].
    cbn [wide] in Hw. apply andb_true_iff in Hw as [_ Hw]. now exists a, o.
Qed.

(** Where the lower-case form opens with an ASCII word: where the
    characters open with a run that spells it. *)
Lemma startswith_lower (l : list string) (w before : string) :
  ascii_only w = true ->
  List.Forall (fun ch => ch <> EmptyString
                         /\ ((exists c, ch = String c EmptyString) \/ wide ch = true)) l ->
  startswith w (lower_chars before l) = opens_with l w.
Proof.
  intros Hw Hl. revert w before Hw.
  induction Hl as [|ch rest [Hne Hch] Hrest IH]; intros w before Hw.
  - now destruct w.
  - destruct w as [|x w]; [reflexivity|].
    cbn [ascii_only] in Hw. apply andb_true_iff in Hw as [Hx Hw].
    cbn [lower_chars opens_with].
    set (r := lower_chars (before +++ ch) rest).
    destruct (lower_char_cases before ch (join EmptyString rest) Hne Hch)
      as [(c & -> & Hc & ->) | [[-> ->] | [[-> ->] | (Hf & Hd & Hn & Hwd)]]].
    + cbn [String.append startswith folds_to]. rewrite Hc. cbn [andb].
      unfold r. rewrite (IH w _ Hw).
      replace (String.eqb (String c EmptyString) capital_i_dotted) with false
        by (symmetry; apply String.eqb_neq; intros E;
            apply (f_equal String.length) in E; vm_compute in E; discriminate E).
      cbn [andb]. rewrite orb_false_r. now rewrite Ascii.eqb_sym.
    + cbn [String.append startswith]. unfold r. rewrite (IH w _ Hw).
      change (folds_to kelvin_sign x) with (Ascii.eqb x "k").
      change (String.eqb kelvin_sign capital_i_dotted) with false.
      cbn [andb]. now rewrite orb_false_r.
    + change ("i" +++ combining_dot) with (String "i" combining_dot).
      cbn [String.append startswith].
      change (folds_to capital_i_dotted x) with false.
      change (String.eqb capital_i_dotted capital_i_dotted) with true.
      cbn [andb orb]. f_equal.
      destruct w as [|y w]; [reflexivity|].
      cbn [ascii_only] in Hw. apply andb_true_iff in Hw as [Hy _].
      now rewrite (startswith_wide y w combining_dot r Hy).
    + rewrite (startswith_wide x w _ r Hx Hn Hwd), Hf.
      apply String.eqb_neq in Hd. now rewrite Hd.
Qed.

Lemma contains_lower (l : list string) (w before : string) :
  ascii_only w = true ->
  List.Forall (fun ch => ch <> EmptyString
                         /\ ((exists c, ch = String c EmptyString) \/ wide ch = true)) l ->
  contains w (lower_chars before l) = spelt_in w l.
Proof.
  intros Hw Hl. revert before.
  induction Hl as [|ch rest [Hne Hch] Hrest IH]; intros before.
  - now destruct w.
  - destruct w as [|x w];
      [cbn [spelt_in opens_with orb]; now destruct (lower_chars before (ch :: rest))|].
    cbn [spelt_in]. rewrite <- (IH (before +++ ch)).
    rewrite <- (startswith_lower (ch :: rest) (String x w) before Hw)
      by (constructor; [now split | exact Hrest]).
    cbn [lower_chars].
    destruct (lower_char_head before ch (join EmptyString rest) Hne Hch)
      as (a & o & -> & Ho).
    cbn [ascii_only] in Hw. apply andb_true_iff in Hw as [Hx _].
    cbn [String.append]. cbn [contains]. f_equal.
    now apply contains_skip_wide.
Qed.

(** A word of ASCII occurs in a text up to case exactly when it is found in
    the lower-case form of the text. *)
Lemma occurs_ci_contains (w s : string) :
  ascii_only w = true -> occurs_ci w s <-> contains w (lower s) = true.
Proof.
  intros Hw. unfold occurs_ci, lower.
  rewrite (contains_lower _ w _ Hw (chars_like s)). symmetry. apply spelt_in_spec.
Qed.

(** A word written in any mix of upper and lower case occurs, up to case,
    in every text that holds it. *)
Lemma occurs_variant (a m b : string) :
  ascii_only m = true -> occurs_ci (ascii_lower m) (a +++ m +++ b).
Proof.
  intros Hm. apply occurs_ci_contains; [now rewrite ascii_lower_ascii_only|].
  unfold lower. apply contains_spec.
  destruct m as [|c m]; [now exists EmptyString, (lower_chars EmptyString (chars (a +++ b)))|].
  assert (E : chars (a +++ String c m +++ b) = chars a ++ chars (String c m) ++ chars b).
  { pose proof Hm as Hm'. cbn [ascii_only] in Hm'. apply andb_true_iff in Hm' as [Hc _].
    cbn [String.append]. rewrite (chars_app_ascii a c _ Hc).
    change (String c (m +++ b)) with (String c m +++ b).
    now rewrite chars_ascii_app. }
  rewrite E. set (m' := String c m) in *.
  destruct (lower_chars_app EmptyString (chars a) (chars m' ++ chars b)) as [x ->].
  rewrite (lower_chars_ascii _ m' _ Hm). now eexists x, _.
Qed.

Lemma occurs_keyword (k a m b : string) :
  ascii_only k = true -> ascii_lower m = k -> occurs_ci k (a +++ m +++ b).
Proof.
  intros Hk <-. apply occurs_variant. now rewrite <- ascii_lower_ascii_only.
Qed.

Lemma any_in_spec (kws : list string) (s : string) :
  forallb ascii_only kws = true ->
  any_in kws (lower s) = true <-> exists k, In k kws /\ occurs_ci k s.
Proof.
  intros Hk. unfold any_in. rewrite existsb_exists. rewrite forallb_forall in Hk.
  split; intros (k & Hin & Hc); exists k; (split; [exact Hin|]);
    now apply (occurs_ci_contains k s (Hk k Hin)).
Qed.

Lemma any_in_false (kws : list string) (s : string) :
  forallb ascii_only kws = true ->
  (forall k, In k kws -> ~ occurs_ci k s) -> any_in kws (lower s) = false.
Proof.
  intros Hk H. destruct (any_in kws (lower s)) eqn:E; [|reflexivity].
  apply (any_in_spec _ _ Hk) in E as (k & Hin & Hc). now destruct (H k Hin).
Qed.

Lemma contains_true (w s : string) :
  ascii_only w = true -> occurs_ci w s -> contains w (lower s) = true.
Proof. intros Hw. apply occurs_ci_contains, Hw. Qed.

Lemma contains_false (w s : string) :
  ascii_only w = true -> ~ occurs_ci w s -> contains w (lower s) = false.
Proof.
  intros Hw H. destruct (contains w (lower s)) eqn:E; [|reflexivity].
  destruct H. now apply occurs_ci_contains.
Qed.

(** No lower-case text holds a capital I. *)
Lemma lower_no_upper_i (s : string) : contains "I" (lower s) = false.
Proof.
  destruct (contains "I" (lower s)) eqn:E; [|reflexivity].
  apply (occurs_ci_contains "I" s eq_refl) in E as (a & m & b & _ & Hs).
  destruct m as [|ch [|ch' m]]; try discriminate Hs.
  - cbn [spells] in Hs. rewrite andb_true_r in Hs.
    change (Ascii.eqb "I" "i") with false in Hs.
    rewrite andb_false_r, orb_false_r in Hs.
    destruct ch as [|c [|d ch]]; cbn [folds_to] in Hs.
    + discriminate Hs.
    + apply andb_true_iff in Hs as [_ Hs].
      destruct c as [[] [] [] [] [] [] [] []]; discriminate Hs.
    + change (Ascii.eqb "I" "k") with false in Hs. now rewrite andb_false_r in Hs.
  - cbn [spells] in Hs. rewrite !andb_false_r in Hs. discriminate Hs.
Qed.

End WithUnicode.

End StrFacts.

(** ** Scene type and palette *)

Module ClassifyFacts.
Import Str StrFacts Classify.

Section WithUnicode.
Context {U : Unicode}.

(** C1.  A prompt in which "dragon", "drake", "wyvern" or "serpent" occurs
    up to case is classified [dragon], whatever other category keywords it
    holds, because the dragon keywords are tested first; in particular every
    prompt that holds one of these words written in any mix of upper and
    lower case.  A prompt in which no category keyword occurs up to case is
    classified [landscape].  (A word occurs up to case when some run of
    characters of the prompt spells it, capitals read as small letters and
    the Kelvin sign as [k]: [occurs_ci], which is the code's test on
    [prompt.lower()] by [occurs_ci_contains].) *)
Theorem dragon_wins_and_landscape_default (prompt : string) :
  ((exists k, In k dragon_keywords /\ occurs_ci k prompt) ->
   image_type prompt = dragon)
  /\ ((forall k, In k category_keywords -> ~ occurs_ci k prompt) ->
      image_type prompt = landscape)
  /\ (forall a m b, In (ascii_lower m) dragon_keywords -> prompt = a +++ m +++ b ->
        image_type prompt = dragon).
Proof.
  assert (Hd : (exists k, In k dragon_keywords /\ occurs_ci k prompt) ->
               image_type prompt = dragon).
  { intros H. unfold image_type.
    apply (any_in_spec dragon_keywords prompt eq_refl) in H. now rewrite H. }
  split; [exact Hd|]. split.
  - intros H. unfold image_type, category_keywords in *.
    rewrite !any_in_false; [reflexivity | | | | | | | |]; try reflexivity;
      intros k Hk; apply H; rewrite !in_app_iff; auto.
  - intros a m b Hk ->. apply Hd. exists (ascii_lower m). split; [exact Hk|].
    apply occurs_variant. rewrite <- ascii_lower_ascii_only.
    cbn [dragon_keywords In] in Hk.
    repeat (destruct Hk as [<- | Hk]; [reflexivity|]). destruct Hk.
Qed.

(** The lower case of the Kelvin sign is the letter k: a "drake" spelt with
    it is a dragon. *)
Lemma kelvin_drake : image_type ("a dra" +++ kelvin_sign +++ "e") = dragon.
Proof. reflexivity. Qed.

End WithUnicode.

Import Demo.

(** The test the specification names: a dragon in a city is a dragon scene,
    and a prompt without keywords is a landscape. *)
Lemma dragon_wins_and_landscape_default_witness :
  image_type "a Dragon in a city" = dragon /\ image_type "a quiet lake" = landscape.
Proof.
  split.
  - apply (proj1 (dragon_wins_and_landscape_default "a Dragon in a city")).
    exists "dragon". split; [simpl; auto | now apply occurs_ci_contains].
  - apply (proj1 (proj2 (dragon_wins_and_landscape_default "a quiet lake"))).
    intros k Hk Hc. simpl in Hk.
    repeat (destruct Hk as [<- | Hk];
            [apply occurs_ci_contains in Hc; [discriminate Hc | reflexivity]|]).
    exact Hk.
Defined.

End ClassifyFacts.

Module PaletteFacts.
Import Str StrFacts Classify.

Section WithUnicode.
Context {U : Unicode}.

(** C6, amended.  In test_app.py ([main_color]): green for "green" or
    "emerald"; otherwise blue for "blue", "sapphire" or "ice"; red when no
    palette keyword occurs.  In main.py ([dragon_color]): green for "green" or
    "emerald"; otherwise blue for "blue" or "ice" only; red when none of that
    table's keywords occurs.  A keyword occurs when some run of characters of
    the prompt spells it up to case ([occurs_ci]), as in every prompt that
    holds the word in any mix of upper and lower case. *)
Theorem palette_selection (prompt : string) :
  (* test_app.py *)
  ((occurs_ci "green" prompt \/ occurs_ci "emerald" prompt) ->
   main_color prompt = green)
  /\ (~ occurs_ci "green" prompt -> ~ occurs_ci "emerald" prompt ->
      (occurs_ci "blue" prompt \/ occurs_ci "ice" prompt \/ occurs_ci "sapphire" prompt) ->
      main_color prompt = blue)
  /\ ((forall k, In k palette_keywords -> ~ occurs_ci k prompt) ->
      main_color prompt = red)
  (* main.py *)
  /\ ((occurs_ci "green" prompt \/ occurs_ci "emerald" prompt) ->
      dragon_color prompt = green)
  /\ (~ occurs_ci "green" prompt -> ~ occurs_ci "emerald" prompt ->
      (occurs_ci "blue" prompt \/ occurs_ci "ice" prompt) ->
      dragon_color prompt = blue)
  /\ ((forall k, In k ["green"; "emerald"; "blue"; "ice"; "gold"; "yellow";
                       "black"; "dark"; "white"; "silver"] ->
       ~ occurs_ci k prompt) ->
      dragon_color prompt = red)
  (* both *)
  /\ (forall a m b, In (ascii_lower m) ["green"; "emerald"] -> prompt = a +++ m +++ b ->
        main_color prompt = green /\ dragon_color prompt = green).
Proof.
  assert (G : (occurs_ci "green" prompt \/ occurs_ci "emerald" prompt) ->
              main_color prompt = green /\ dragon_color prompt = green).
  { unfold main_color, dragon_color.
    intros [H | H]; apply contains_true in H; try reflexivity; rewrite H;
      [now split | now rewrite orb_true_r]. }
  unfold main_color, dragon_color. repeat split.
  - intros H. now apply G.
  - intros Hg He H.
    rewrite (contains_false "green" _ eq_refl Hg), (contains_false "emerald" _ eq_refl He).
    simpl.
    destruct H as [H | [H | H]]; apply contains_true in H; try reflexivity; rewrite H;
      [reflexivity | now rewrite !orb_true_r | now rewrite orb_true_r].
  - intros H.
    rewrite !contains_false; [reflexivity | ..]; try reflexivity; apply H; simpl; tauto.
  - intros H. now apply G.
  - intros Hg He H.
    rewrite (contains_false "green" _ eq_refl Hg), (contains_false "emerald" _ eq_refl He).
    simpl.
    destruct H as [H | H]; apply contains_true in H; try reflexivity; rewrite H;
      [reflexivity | now rewrite orb_true_r].
  - intros H.
    rewrite !contains_false; [reflexivity | ..]; try reflexivity; apply H; simpl; tauto.
  - apply G. cbn [In] in H.
    destruct H as [E | [E | []]]; [left | right]; subst prompt;
      now apply occurs_keyword.
  - apply G. cbn [In] in H.
    destruct H as [E | [E | []]]; [left | right]; subst prompt;
      now apply occurs_keyword.
Qed.

(** The lower case of the Kelvin sign is the letter k: "black" spelt with it
    selects the dark dragon in both tables. *)
Lemma kelvin_black :
  main_color ("a blac" +++ kelvin_sign +++ " lake") = dark
  /\ dragon_color ("a blac" +++ kelvin_sign +++ " lake") = dark.
Proof. split; reflexivity. Qed.

End WithUnicode.

Import Demo.

(** C6, where the claim fails: in main.py's palette table "sapphire" is not a
    keyword, so a sapphire prompt without "blue" or "ice" keeps the default
    red. *)
Lemma sapphire_is_red_in_main_py :
  occurs_ci "sapphire" "a sapphire dragon"
  /\ ~ occurs_ci "green" "a sapphire dragon"
  /\ ~ occurs_ci "emerald" "a sapphire dragon"
  /\ dragon_color "a sapphire dragon" <> blue
  /\ dragon_color "a sapphire dragon" = red.
Proof.
  split; [now apply occurs_ci_contains|].
  split; [intros H; apply occurs_ci_contains in H; [discriminate H | reflexivity]|].
  split; [intros H; apply occurs_ci_contains in H; [discriminate H | reflexivity]|].
  split; [discriminate | reflexivity].
Qed.

Lemma palette_selection_witness :
  main_color "An EMERALD wyvern" = green
  /\ main_color "a sapphire dragon" = blue
  /\ main_color "a quiet lake" = red
  /\ dragon_color "An EMERALD wyvern" = green
  /\ dragon_color "a nice dragon" = blue
  /\ dragon_color "a sapphire dragon" = red.
Proof.
  pose proof (palette_selection "An EMERALD wyvern") as (G & _ & _ & G' & _).
  pose proof (palette_selection "a sapphire dragon") as (_ & B & _ & _ & _ & R' & _).
  pose proof (palette_selection "a quiet lake") as (_ & _ & R & _).
  pose proof (palette_selection "a nice dragon") as (_ & _ & _ & _ & B' & _).
  assert (N : forall w s, ascii_only w = true -> contains w (lower s) = false ->
                          ~ occurs_ci w s).
  { intros w s Hw Hc Ho. apply (occurs_ci_contains w s Hw) in Ho. congruence. }
  refine (conj _ (conj _ (conj _ (conj _ (conj _ _))))).
  - apply G. right. now apply occurs_ci_contains.
  - apply B; [now apply N | now apply N | right; right; now apply occurs_ci_contains].
  - apply R. intros k Hk. simpl in Hk.
    repeat (destruct Hk as [<- | Hk]; [now apply N|]). destruct Hk.
  - apply G'. right. now apply occurs_ci_contains.
  - apply B'; [now apply N | now apply N | right; now apply occurs_ci_contains].
  - apply R'. intros k Hk. simpl in Hk.
    repeat (destruct Hk as [<- | Hk]; [now apply N|]). destruct Hk.
Defined.

End PaletteFacts.

(** ** Running recorded computations *)

Module OutFacts.

Section Laws.
Context {W O : Type}.

Lemma run_eta {A} (m : Out W O A) (w : W) : m w = (val m w, calls m w, after m w).
Proof. unfold val, calls, after. now destruct (m w) as [[a o] w']. Qed.

Lemma calls_bind {A B} (m : Out W O A) (k : A -> Out W O B) (w : W) :
  calls (bind m k) w = calls m w ++ calls (k (val m w)) (after m w).
Proof.
  unfold calls, val, after, bind. destruct (m w) as [[a o1] w1]. simpl.
  now destruct (k a w1) as [[b o2] w2].
Qed.

Lemma after_bind {A B} (m : Out W O A) (k : A -> Out W O B) (w : W) :
  after (bind m k) w = after (k (val m w)) (after m w).
Proof.
  unfold calls, val, after, bind. destruct (m w) as [[a o1] w1]. simpl.
  now destruct (k a w1) as [[b o2] w2].
Qed.

Lemma val_bind {A B} (m : Out W O A) (k : A -> Out W O B) (w : W) :
  val (bind m k) w = val (k (val m w)) (after m w).
Proof.
  unfold calls, val, after, bind. destruct (m w) as [[a o1] w1]. simpl.
  now destruct (k a w1) as [[b o2] w2].
Qed.

Lemma val_ret {A} (a : A) (w : W) : val (ret (O := O) a) w = a.
Proof. reflexivity. Qed.

Lemma calls_ask {A} (f : W -> A * W) (w : W) : calls (ask (O := O) f) w = [].
Proof. unfold calls, ask. now destruct (f w). Qed.

Lemma val_ask {A} (f : W -> A * W) (w : W) : val (ask (O := O) f) w = fst (f w).
Proof. unfold val, ask. now destruct (f w). Qed.

Lemma after_ask {A} (f : W -> A * W) (w : W) : after (ask (O := O) f) w = snd (f w).
Proof. unfold after, ask. now destruct (f w). Qed.

End Laws.

Lemma calls_block {W A} (p : part) (m : Out W draw_call A) (w : W) :
  calls (block p m) w = tag p (calls m w).
Proof. unfold calls, block, tag. now destruct (m w) as [[a o] w']. Qed.

Lemma after_block {W A} (p : part) (m : Out W draw_call A) (w : W) :
  after (block p m) w = after m w.
Proof. unfold after, block. now destruct (m w) as [[a o] w']. Qed.

Lemma val_block {W A} (p : part) (m : Out W draw_call A) (w : W) :
  val (block p m) w = val m w.
Proof. unfold val, block. now destruct (m w) as [[a o] w']. Qed.

(** *** Counting the calls a computation records *)

Section Counting.
Context {W O : Type}.

Lemma emits_ret {A} (a : A) : emits (ret (W := W) (O := O) a) 0.
Proof. intros w. reflexivity. Qed.

Lemma emits_emit (o : O) : emits (emit (W := W) o) 1.
Proof. intros w. reflexivity. Qed.

Lemma emits_ask {A} (f : W -> A * W) : emits (ask (O := O) f) 0.
Proof. intros w. now rewrite calls_ask. Qed.

Lemma emits_bind {A B} (m : Out W O A) (k : A -> Out W O B) (n n' : nat) :
  emits m n -> (forall a, emits (k a) n') -> emits (bind m k) (n + n').
Proof.
  intros Hm Hk w. rewrite calls_bind, length_app, Hm, Hk. reflexivity.
Qed.

Lemma emits_bind0 {A B} (m : Out W O A) (k : A -> Out W O B) :
  emits m 0 -> (forall a, emits (k a) 0) -> emits (bind m k) 0.
Proof. intros Hm Hk. now apply (emits_bind m k 0 0). Qed.

Lemma emits_for_each {A} (xs : list A) (body : A -> Out W O unit) (n : nat) :
  (forall x, emits (body x) n) -> emits (for_each xs body) (length xs * n).
Proof.
  intros Hb. induction xs as [|x xs IH]; simpl.
  - apply emits_ret.
  - apply emits_bind; [apply Hb | intros _; exact IH].
Qed.

Lemma emits_collect {A B} (xs : list A) (f : A -> Out W O B) :
  (forall x, emits (f x) 0) -> emits (collect xs f) 0.
Proof.
  intros Hf. induction xs as [|x xs IH]; simpl.
  - apply emits_ret.
  - apply emits_bind0; [apply Hf | intros b].
    apply emits_bind0; [exact IH | intros bs; apply emits_ret].
Qed.

Lemma emits_eq {A} (m : Out W O A) (n n' : nat) : emits m n -> n = n' -> emits m n'.
Proof. now intros H <-. Qed.

End Counting.

End OutFacts.

(** ** The renderer of test_app.py *)

Module RenderFacts.
Import Str StrFacts Num OutFacts Render.

#[local] Ltac count_step :=
  lazymatch goal with
  | |- emits (ret _) _ => apply emits_ret
  | |- emits (emit _) _ => apply emits_emit
  | |- emits (ask _) _ => apply emits_ask
  | |- emits (bind _ _) ?n =>
      tryif is_evar n then (eapply emits_bind; [ | intros ])
      else (apply emits_bind0; [ | intros ])
  | |- emits (for_each _ _) _ => apply emits_for_each; intros
  | |- emits (collect _ _) _ => apply emits_collect; intros
  | |- emits (let '(_, _) := ?x in _) _ => destruct x
  | |- emits (if ?b then _ else _) _ => destruct b
  end.

#[local] Ltac count := unfold rand_int, rand, uniform; cbv zeta; repeat count_step.

Section WithHost.
Context {W : Type} `{Host W} {U : Unicode}.

Lemma sky_count (ty : SceneType) : emits (draw_sky (W := W) ty) 600.
Proof. unfold draw_sky. eapply emits_eq; [count | reflexivity]. Qed.

Lemma mountain_count (i : Z) : emits (draw_mountain i) 1.
Proof. unfold draw_mountain. eapply emits_eq; [count | reflexivity]. Qed.

Lemma mountains_count : emits draw_mountains 5.
Proof.
  unfold draw_mountains.
  eapply emits_eq; [apply emits_for_each, mountain_count | reflexivity].
Qed.

Lemma foliage_count (prompt : string) (distance_factor : Q) :
  emits (if contains "magical" (lower prompt)
         then let* g := rand_int (-10) 30 in
              let base_green := 100 + g in
              let* glow_factor := rand_int 30 80 in
              ret (30 + glow_factor / 3, base_green, 30 + glow_factor)
         else let* season_variation := rand_int (-20) 20 in
              let* g := rand_int (-10) 30 in
              ret (30 + season_variation, 80 + g, 30 + int (distance_factor * 100))) 0.
Proof.
  destruct (contains "magical" (lower prompt));
    (eapply emits_eq; [count | reflexivity]).
Qed.

Lemma tree_count (prompt : string) (i : Z) : emits (draw_tree prompt i) 6.
Proof.
  unfold draw_tree.
  eapply emits_eq.
  - unfold rand_int.
    eapply emits_bind; [apply emits_ask | intros x].
    eapply emits_bind; [apply emits_ask | intros height].
    eapply emits_bind; [apply emits_ask | intros r].
    eapply emits_bind; [apply emits_emit | intros _].
    eapply emits_bind; [apply foliage_count | intros [[f0 f1] f2]].
    apply emits_for_each. intros j. count.
  - reflexivity.
Qed.

Lemma forest_count (prompt : string) : emits (draw_forest prompt) 240.
Proof.
  unfold draw_forest.
  eapply emits_eq; [apply emits_for_each, tree_count | reflexivity].
Qed.

(** The dragon figure reads nothing from the host: 39 calls, the same from
    every state, and the state is left as it was. *)
Lemma dragon_figure_fixed (c : colour) (w w' : W) :
  calls (draw_dragon_body c) w = calls (draw_dragon_body c) w'
  /\ after (draw_dragon_body c) w = w
  /\ length (calls (draw_dragon_body c) w) = 39%nat.
Proof. destruct c as [[c0 c1] c2]. repeat split. Qed.

End WithHost.
End RenderFacts.

Module LayerFacts.
Import Str StrFacts Num OutFacts Render RenderFacts.

Lemma calls_of_app (p : part) (a b : list op) :
  calls_of p (a ++ b) = calls_of p a ++ calls_of p b.
Proof. unfold calls_of. now rewrite List.filter_app, map_app. Qed.

Lemma part_eqb_refl (p : part) : part_eqb p p = true.
Proof. now destruct p. Qed.

Lemma calls_of_tag_same (p : part) (l : list draw_call) : calls_of p (tag p l) = l.
Proof.
  unfold calls_of, tag. induction l as [|c l IH]; simpl; [reflexivity|].
  rewrite part_eqb_refl. simpl. now rewrite IH.
Qed.

Lemma calls_of_tag_other (p q : part) (l : list draw_call) :
  part_eqb q p = false -> calls_of p (tag q l) = [].
Proof.
  intros E. unfold calls_of, tag. induction l as [|c l IH]; simpl; [reflexivity|].
  now rewrite E.
Qed.

Section WithHost.
Context {W : Type} `{Host W} {U : Unicode}.

(** The drawing of test_app.py, block by block.  The dragon and the fire
    breath are drawn before the scene type is looked at again. *)
Lemma create_ai_image_layers (prompt : string) (w : W) :
  exists w1 w2 w3 w4 w5,
    calls (create_ai_image prompt) w =
      tag Sky (calls (draw_sky (Classify.image_type prompt)) w)
      ++ tag Mountains (calls draw_mountains w1)
      ++ tag Forest (calls (draw_forest prompt) w2)
      ++ tag Magic (calls (draw_magic prompt) w3)
      ++ tag Dragon (calls (draw_dragon_body (Classify.main_color prompt)) w4)
      ++ tag Fire (calls (draw_fire prompt) w4)
      ++ calls (draw_additional (Classify.image_type prompt) (lower prompt)
                                (Classify.main_color prompt)) w5
      ++ tag Caption (calls (draw_caption prompt) w).
Proof.
  unfold create_ai_image. cbv zeta.
  repeat (rewrite calls_bind; cbv beta).
  repeat (rewrite after_bind; cbv beta).
  rewrite !calls_block, !after_block.
  set (w1 := after (draw_sky _) w).
  set (w2 := after draw_mountains w1).
  set (w3 := after (draw_forest prompt) w2).
  set (w4 := after (draw_magic prompt) w3).
  destruct (dragon_figure_fixed (Classify.main_color prompt) w4 w4) as (_ & -> & _).
  exists w1, w2, w3, w4, (after (draw_fire prompt) w4).
  repeat f_equal.
Qed.

Lemma flame_calls (w : W) : calls draw_flame w = flame_layers (val fire_outline w).
Proof.
  unfold draw_flame. rewrite calls_bind.
  replace (calls fire_outline w) with (@nil draw_call).
  - reflexivity.
  - symmetry. apply length_zero_iff_nil.
    assert (E : emits (W := W) fire_outline 0).
    { unfold fire_outline, uniform, rand.
      change 0%nat with (0 + (0 + 0))%nat.
      apply emits_bind; [apply emits_collect; intros i | intros upper].
      - change 0%nat with (0 + 0)%nat.
        apply emits_bind; [|intros u; apply emits_ret].
        change 0%nat with (0 + 0)%nat.
        apply emits_bind; [apply emits_ask | intros r; apply emits_ret].
      - apply emits_bind; [apply emits_collect; intros i | intros lower; apply emits_ret].
        change 0%nat with (0 + 0)%nat.
        apply emits_bind; [|intros u; apply emits_ret].
        change 0%nat with (0 + 0)%nat.
        apply emits_bind; [apply emits_ask | intros r; apply emits_ret]. }
    apply E.
Qed.

Lemma length_collect {O A B} (xs : list A) (f : A -> Out W O B) (w : W) :
  length (val (collect xs f) w) = length xs.
Proof.
  revert w; induction xs as [|x xs IH]; intros w; simpl; [reflexivity|].
  rewrite val_bind, val_bind, val_ret. simpl. now rewrite IH.
Qed.

Lemma fire_outline_length (w : W) : length (val fire_outline w) = 20%nat.
Proof.
  unfold fire_outline. rewrite val_bind, val_bind, val_ret.
  rewrite length_app, !length_collect. reflexivity.
Qed.

Lemma flame_count : emits (W := W) draw_flame 4.
Proof. intros w. rewrite flame_calls. reflexivity. Qed.

Lemma fire_count (prompt : string) (w : W) :
  calls (draw_fire prompt) w = [] \/ length (calls (draw_fire prompt) w) = 4%nat.
Proof.
  unfold draw_fire. destruct (contains "fire" (lower prompt)).
  - right. apply flame_count.
  - unfold rand. rewrite calls_bind, calls_ask. simpl.
    destruct (Qlt_le_dec 0.5 _); [right; apply flame_count | now left].
Qed.

(** With "fire" in the prompt the generator is not asked: the flame is drawn
    from the state the dragon figure left. *)
Lemma fire_calls_forced (prompt : string) (w : W) :
  contains "fire" (lower prompt) = true ->
  calls (draw_fire prompt) w = flame_layers (val fire_outline w).
Proof. intros E. unfold draw_fire. rewrite E. apply flame_calls. Qed.

Lemma additional_part (p : part) (ty : SceneType) (pl : string) (mc : colour) (w : W) :
  (p = Fire \/ p = Dragon) ->
  calls_of p (calls (draw_additional ty pl mc) w) = [].
Proof.
  intros Hp. unfold draw_additional.
  repeat match goal with
         | |- context [if ?b then _ else _] => destruct b
         end;
    try rewrite calls_block;
    try (apply calls_of_tag_other; destruct Hp as [-> | ->]; reflexivity);
    reflexivity.
Qed.

Lemma additional_landscape (pl : string) (mc : colour) (w : W) :
  calls (draw_additional landscape pl mc) w = [].
Proof. reflexivity. Qed.

Lemma caption_calls (prompt : string) (w : W) :
  calls (draw_caption prompt) w =
    [rectangle (0, 550, 800, 600)%Q (rgb (0, 0, 0)) None 1;
     text (20, 560)%Q ("Prompt: " +++ prompt) (rgb (255, 255, 255))
                 (pick_font (W := W))].
Proof. reflexivity. Qed.

(** C3, amended.  For a prompt classified [landscape] the canvas holds, in
    this order: the 600 sky lines, the 5 mountains, the 240 calls of the 40
    trees, the magical overlay (nothing unless "magic" occurs in the prompt),
    the 39 calls of the dragon figure in the palette colour, the fire breath
    (nothing or 4 polygons), and the caption bar with the prompt text.  None
    of the space, city or robot elements is drawn. *)
Theorem landscape_rendering (prompt : string) (w : W) :
  Classify.image_type prompt = landscape ->
  exists sky mountains forest magic fire : list draw_call,
    calls (create_ai_image prompt) w =
      tag Sky sky ++ tag Mountains mountains ++ tag Forest forest ++ tag Magic magic
      ++ tag Dragon (calls (draw_dragon_body (Classify.main_color prompt)) w)
      ++ tag Fire fire
      ++ tag Caption
           [rectangle (0, 550, 800, 600)%Q (rgb (0, 0, 0)) None 1;
            text (20, 560)%Q ("Prompt: " +++ prompt) (rgb (255, 255, 255))
                 (pick_font (W := W))]
    /\ length sky = 600%nat /\ length mountains = 5%nat /\ length forest = 240%nat
    /\ (~ occurs_ci "magic" prompt -> magic = [])
    /\ length (calls (draw_dragon_body (Classify.main_color prompt)) w) = 39%nat
    /\ (fire = [] \/ length fire = 4%nat).
Proof.
  intros Hty.
  destruct (create_ai_image_layers prompt w) as (w1 & w2 & w3 & w4 & w5 & E).
  rewrite Hty, additional_landscape, app_nil_l in E.
  destruct (dragon_figure_fixed (Classify.main_color prompt) w4 w) as (Ed & _ & _).
  destruct (dragon_figure_fixed (Classify.main_color prompt) w w) as (_ & _ & Hd).
  rewrite Ed, caption_calls in E.
  exists (calls (draw_sky landscape) w), (calls draw_mountains w1),
    (calls (draw_forest prompt) w2), (calls (draw_magic prompt) w3),
    (calls (draw_fire prompt) w4).
  split; [exact E|].
  split; [apply sky_count|].
  split; [apply mountains_count|].
  split; [apply forest_count|].
  split.
  - intros Hm. unfold draw_magic.
    assert (E1 : contains "magic" (lower prompt) = false) by now apply contains_false.
    assert (E2 : contains "magical" (lower prompt) = false).
    { destruct (contains "magical" (lower prompt)) eqn:Em; [|reflexivity].
      rewrite (contains_part "magical" "magic" _ eq_refl Em) in E1. discriminate E1. }
    now rewrite E1, E2.
  - split; [exact Hd | apply fire_count].
Qed.

End WithHost.

Import Demo.

(** C3, where the claim fails: "a quiet lake" is a landscape, and its canvas
    holds calls outside the background stages and the caption (the dragon
    figure). *)
Lemma landscape_draws_the_dragon :
  Classify.image_type "a quiet lake" = landscape
  /\ paints_background_only (calls (create_ai_image "a quiet lake") (Demo.boot 0)) = false.
Proof. split; vm_compute; reflexivity. Qed.

Lemma landscape_rendering_witness :
  exists sky mountains forest magic fire : list draw_call,
    calls (create_ai_image "a quiet lake") (Demo.boot 0) =
      tag Sky sky ++ tag Mountains mountains ++ tag Forest forest ++ tag Magic magic
      ++ tag Dragon (calls (draw_dragon_body (Classify.main_color "a quiet lake"))
                           (Demo.boot 0))
      ++ tag Fire fire
      ++ tag Caption
           [rectangle (0, 550, 800, 600)%Q (rgb (0, 0, 0)) None 1;
            text (20, 560)%Q ("Prompt: " +++ "a quiet lake") (rgb (255, 255, 255))
                 pick_font]
    /\ length sky = 600%nat /\ length mountains = 5%nat /\ length forest = 240%nat
    /\ (~ occurs_ci "magic" "a quiet lake" -> magic = [])
    /\ length (calls (draw_dragon_body (Classify.main_color "a quiet lake"))
                     (Demo.boot 0)) = 39%nat
    /\ (fire = [] \/ length fire = 4%nat).
Proof. apply (landscape_rendering "a quiet lake" (Demo.boot 0)). reflexivity. Defined.

End LayerFacts.

(** ** The fire breath *)

Module FlameFacts.
Import Str StrFacts Num OutFacts Render RenderFacts LayerFacts Flame.

Lemma sumQ_from (l : list Q) (a : Q) :
  (fold_left (fun a b => Qred (a + b)) l a == a + fold_right Qplus 0 l)%Q.
Proof.
  revert a. induction l as [|x l IH]; intros a; cbn [fold_left fold_right].
  - ring.
  - rewrite IH, Qred_correct. ring.
Qed.

(** [center_y] is the mean of the ordinates. *)
Lemma center_y_mean (pts : list point) : pts <> [] -> mean_y (center_y pts) pts.
Proof.
  intros Hne. unfold mean_y, center_y, sumQ, float. rewrite sumQ_from.
  assert (Hn : ~ (inject_Z (Z.of_nat (length pts)) == 0)%Q).
  { destruct pts as [|p pts]; [congruence|]. unfold Qeq. cbn. lia. }
  field. exact Hn.
Qed.

(** Each layer keeps the outline's abscissas and multiplies the distance of
    every ordinate to the centre line by its scale. *)
Lemma scaled_points_spec (fire_points : list point) (s : Q) :
  scaled_toward (center_y fire_points) s fire_points (scaled_points fire_points s).
Proof.
  unfold scaled_toward, scaled_points.
  set (c := center_y fire_points). clearbody c.
  induction fire_points as [|[x y] l IH]; cbn [map]; constructor; [|exact IH].
  cbn [fst snd]. split; [reflexivity | ring].
Qed.

(** The layer the code computes is the outline drawn toward the core. *)
Lemma toward_core_scaled_points (outline : list point) (s : Q) :
  scaled_points outline s = toward_core outline s.
Proof.
  unfold scaled_points, toward_core, core, center_y.
  apply map_ext. now intros [x y].
Qed.

(** The scales of the four layers: the outline itself, then ever closer to
    the centre line. *)
Lemma flame_scales_ordered :
  (flame_scale 0 == 1)%Q /\ (0 < flame_scale 3)%Q /\ (flame_scale 3 < flame_scale 2)%Q
  /\ (flame_scale 2 < flame_scale 1)%Q /\ (flame_scale 1 < flame_scale 0)%Q.
Proof. repeat split. Qed.

Section WithHost.
Context {W : Type} `{Host W} {U : Unicode}.

(** The dragon of main.py stops at its third call: the head and the body are
    drawn, the left wing is refused, and the generator is not read. *)
Lemma main_dragon_raises (c : colour) (w : W) :
  RenderMain.draw_dragon_body c w
  = (None,
     [ellipse (dragon_x - head_size, dragon_y - head_size,
               dragon_x + head_size, dragon_y + head_size)%Q (Some (rgb c)) None;
      polygon RenderMain.body_points (rgb c)],
     w).
Proof. destruct c as [[c0 c1] c2]. reflexivity. Qed.

(** The drawing of main.py, block by block, up to the call that raises. *)
Lemma create_dragon_forest_image_raises (prompt : string) (w : W) :
  exists w1 w2 w3,
    calls (RenderMain.create_dragon_forest_image prompt) w =
      tag Sky (calls RenderMain.draw_sky w)
      ++ tag Mountains (calls draw_mountains w1)
      ++ tag Forest (calls (RenderMain.draw_forest prompt) w2)
      ++ tag Magic (calls (draw_magic prompt) w3)
      ++ tag Dragon
           [ellipse (dragon_x - head_size, dragon_y - head_size,
                     dragon_x + head_size, dragon_y + head_size)%Q
                    (Some (rgb (Classify.dragon_color prompt))) None;
            polygon RenderMain.body_points (rgb (Classify.dragon_color prompt))]
    /\ val (RenderMain.create_dragon_forest_image prompt) w = None
    /\ after (RenderMain.create_dragon_forest_image prompt) w
       = after (draw_magic prompt) w3.
Proof.
  unfold RenderMain.create_dragon_forest_image, and_then. cbv zeta.
  repeat (rewrite calls_bind; cbv beta).
  repeat (rewrite val_bind; cbv beta).
  repeat (rewrite after_bind; cbv beta).
  rewrite !calls_block, !after_block, !val_block.
  set (w1 := after RenderMain.draw_sky w).
  set (w2 := after draw_mountains w1).
  set (w3 := after (RenderMain.draw_forest prompt) w2).
  set (w4 := after (draw_magic prompt) w3).
  unfold val, calls, after.
  rewrite (main_dragon_raises (Classify.dragon_color prompt) w4). cbn [fst snd].
  exists w1, w2, w3. cbn [ret fst snd]. rewrite app_nil_r.
  split; [|split; reflexivity]. reflexivity.
Qed.

(** What [generate_text_to_image] of main.py returns, for every prompt: the
    exception raised while the dragon is drawn is caught and the result is
    [None]. *)
Lemma image_never_generated (prompt : string) (w : W) :
  fst (Main.generate_text_to_image prompt w) = None.
Proof.
  unfold Main.generate_text_to_image.
  destruct (create_dragon_forest_image_raises prompt w) as (w1 & w2 & w3 & _ & Ev & _).
  rewrite (run_eta (RenderMain.create_dragon_forest_image prompt) w), Ev. reflexivity.
Qed.

Lemma main_fire_block_empty (prompt : string) (w : W) :
  calls_of Fire (calls (RenderMain.create_dragon_forest_image prompt) w) = [].
Proof.
  destruct (create_dragon_forest_image_raises prompt w) as (w1 & w2 & w3 & E & _).
  rewrite E, !calls_of_app. now rewrite !calls_of_tag_other by reflexivity.
Qed.

(** C7.  When "fire" occurs in the prompt up to case, the renderer of
    test_app.py draws the flame whatever the generator delivers: the calls
    of its fire block are four polygons in the colours of [flame_colors],
    each the 20 points of one outline drawn toward the flame core (the mean
    of the outline's ordinates) by the scale of its layer, [1 - i * 0.2];
    the first scale is 1 and each later one is smaller, above 0.  The
    renderer of main.py never reaches its fire block: it raises while the
    dragon is drawn, so no flame is drawn and no image returned. *)
Theorem fire_forces_flame (prompt : string) (w : W) :
  occurs_ci "fire" prompt ->
  (exists outline,
      length outline = 20%nat
      /\ calls_of Fire (calls (create_ai_image prompt) w)
         = [polygon (toward_core outline (flame_scale 0)) (rgb (255, 255, 200));
            polygon (toward_core outline (flame_scale 1)) (rgb (255, 200, 50));
            polygon (toward_core outline (flame_scale 2)) (rgb (255, 150, 0));
            polygon (toward_core outline (flame_scale 3)) (rgb (255, 50, 0))])
  /\ ((flame_scale 0 == 1)%Q /\ (0 < flame_scale 3)%Q
      /\ (flame_scale 3 < flame_scale 2)%Q /\ (flame_scale 2 < flame_scale 1)%Q
      /\ (flame_scale 1 < flame_scale 0)%Q)
  /\ calls_of Fire (calls (RenderMain.create_dragon_forest_image prompt) w) = []
  /\ val (RenderMain.create_dragon_forest_image prompt) w = None.
Proof.
  intros Hf. split; [|split; [exact flame_scales_ordered|]].
  - destruct (create_ai_image_layers prompt w) as (w1 & w2 & w3 & w4 & w5 & E).
    exists (val fire_outline w4).
    split; [apply fire_outline_length|].
    rewrite E, !calls_of_app, additional_part by now left.
    rewrite !calls_of_tag_other by reflexivity.
    rewrite calls_of_tag_same, app_nil_r. cbn [app].
    rewrite (fire_calls_forced prompt w4 (contains_true "fire" prompt eq_refl Hf)).
    unfold flame_layers, flame_layer. rewrite <- !toward_core_scaled_points.
    reflexivity.
  - split; [apply main_fire_block_empty|].
    now destruct (create_dragon_forest_image_raises prompt w) as (w1 & w2 & w3 & _ & Ev & _).
Qed.

End WithHost.

Import Demo.

Lemma fire_forces_flame_witness :
  exists outline,
    length outline = 20%nat
    /\ calls_of Fire (calls (create_ai_image "a blue ice dragon breathing FIRE")
                            (Demo.boot 0))
       = [polygon (toward_core outline (flame_scale 0)) (rgb (255, 255, 200));
          polygon (toward_core outline (flame_scale 1)) (rgb (255, 200, 50));
          polygon (toward_core outline (flame_scale 2)) (rgb (255, 150, 0));
          polygon (toward_core outline (flame_scale 3)) (rgb (255, 50, 0))].
Proof.
  refine (proj1 (fire_forces_flame "a blue ice dragon breathing FIRE" (Demo.boot 0) _)).
  now apply occurs_ci_contains.
Defined.

(** C7 at the failing input: the example of the specification, sent to
    main.py.  Nothing is recorded for the fire block, and no image comes
    back. *)
Lemma main_draws_no_flame :
  occurs_ci "fire" "a blue ice dragon breathing fire"
  /\ calls_of Fire (calls (RenderMain.create_dragon_forest_image
                             "a blue ice dragon breathing fire") (Demo.boot 0)) = []
  /\ fst (Main.generate_text_to_image "a blue ice dragon breathing fire" (Demo.boot 0))
     = None.
Proof.
  split; [now apply occurs_ci_contains|]. split; [apply main_fire_block_empty|].
  apply image_never_generated.
Qed.

End FlameFacts.

(** ** Rendering follows the draws *)

Module DrawFacts.
Import Str Num OutFacts Render.

Section Simulation.
Context {W1 W2 : Type} (R : W1 -> W2 -> Prop).

Lemma sim_ret {O A} (a1 a2 : A) :
  a1 = a2 -> sim (O := O) R (ret a1) (ret a2).
Proof. intros -> w1 w2 HR. now repeat split. Qed.

Lemma sim_emit {O} (o1 o2 : O) : o1 = o2 -> sim R (emit o1) (emit o2).
Proof. intros -> w1 w2 HR. now repeat split. Qed.

Lemma sim_bind {O A B} (m1 : Out W1 O A) (m2 : Out W2 O A)
  (k1 : A -> Out W1 O B) (k2 : A -> Out W2 O B) :
  sim R m1 m2 -> (forall a, sim R (k1 a) (k2 a)) -> sim R (bind m1 k1) (bind m2 k2).
Proof.
  intros Hm Hk w1 w2 HR. destruct (Hm w1 w2 HR) as (Ev & Ec & HR').
  rewrite !val_bind, !calls_bind, !after_bind, Ev, Ec.
  destruct (Hk (val m2 w2) _ _ HR') as (Ev' & Ec' & HR'').
  now rewrite Ev', Ec'.
Qed.

Lemma sim_for_each {O A} (xs : list A) (b1 : A -> Out W1 O unit) (b2 : A -> Out W2 O unit) :
  (forall x, sim R (b1 x) (b2 x)) -> sim R (for_each xs b1) (for_each xs b2).
Proof.
  intros Hb. induction xs as [|x xs IH]; simpl.
  - now apply sim_ret.
  - apply sim_bind; [apply Hb | intros _; exact IH].
Qed.

Lemma sim_collect {O A B} (xs : list A) (f1 : A -> Out W1 O B) (f2 : A -> Out W2 O B) :
  (forall x, sim R (f1 x) (f2 x)) -> sim R (collect xs f1) (collect xs f2).
Proof.
  intros Hf. induction xs as [|x xs IH]; simpl.
  - now apply sim_ret.
  - apply sim_bind; [apply Hf | intros b].
    apply sim_bind; [exact IH | intros bs; now apply sim_ret].
Qed.

Lemma sim_block {A} (p : part) (m1 : Out W1 draw_call A) (m2 : Out W2 draw_call A) :
  sim R m1 m2 -> sim R (block p m1) (block p m2).
Proof.
  intros Hm w1 w2 HR. destruct (Hm w1 w2 HR) as (Ev & Ec & HR').
  now rewrite !val_block, !calls_block, !after_block, Ev, Ec.
Qed.

Lemma sim_draw (c : draw_call) : sim R (draw c) (draw c).
Proof.
  unfold draw. destruct (accepted c); [|now apply sim_ret].
  apply sim_bind; [now apply sim_emit | intros _; now apply sim_ret].
Qed.

Lemma sim_and_then {O A B} (m1 : Out W1 O (option A)) (m2 : Out W2 O (option A))
  (k1 : A -> Out W1 O (option B)) (k2 : A -> Out W2 O (option B)) :
  sim R m1 m2 -> (forall a, sim R (k1 a) (k2 a)) ->
  sim R (and_then m1 k1) (and_then m2 k2).
Proof.
  intros Hm Hk. unfold and_then. apply sim_bind; [exact Hm|].
  intros [a|]; [apply Hk | now apply sim_ret].
Qed.

Context {H1 : Host W1} {H2 : Host W2} (HD : same_draws H1 H2 R).

Lemma sim_rand_int (a b : Z) : sim R (rand_int a b) (rand_int a b).
Proof.
  intros w1 w2 HR. unfold rand_int.
  rewrite !val_ask, !calls_ask, !after_ask.
  destruct (sd_randint _ _ _ HD a b w1 w2 HR) as [E HR']. now repeat split.
Qed.

Lemma sim_rand : sim R rand rand.
Proof.
  intros w1 w2 HR. unfold rand.
  rewrite !val_ask, !calls_ask, !after_ask.
  destruct (sd_random _ _ _ HD w1 w2 HR) as [E HR']. now repeat split.
Qed.

Lemma sim_uniform (a b : Q) : sim R (uniform a b) (uniform a b).
Proof.
  unfold uniform. apply sim_bind; [apply sim_rand | intros r; now apply sim_ret].
Qed.

End Simulation.

Ltac sim_step HD :=
  lazymatch goal with
  | |- sim _ (ret _) (ret _) => apply sim_ret; reflexivity
  | |- sim _ (emit _) (emit _) => apply sim_emit; reflexivity
  | |- sim _ (draw _) (draw _) => apply sim_draw
  | |- sim _ (and_then _ _) (and_then _ _) => apply sim_and_then; [ | intros ? ]
  | |- sim _ (rand_int _ _) (rand_int _ _) => apply (sim_rand_int _ HD)
  | |- sim _ rand rand => apply (sim_rand _ HD)
  | |- sim _ (uniform _ _) (uniform _ _) => apply (sim_uniform _ HD)
  | |- sim _ (bind _ _) (bind _ _) => apply sim_bind; [ | intros ? ]
  | |- sim _ (for_each _ _) (for_each _ _) => apply sim_for_each; intros ?
  | |- sim _ (collect _ _) (collect _ _) => apply sim_collect; intros ?
  | |- sim _ (block _ _) (block _ _) => apply sim_block
  | |- sim _ (if ?b then _ else _) (if ?b then _ else _) => destruct b
  | |- sim _ (let '(_, _) := ?x in _) (let '(_, _) := ?x in _) => destruct x
  end.

Ltac sim_auto HD :=
  cbv zeta;
  rewrite ?(sd_sin _ _ _ HD), ?(sd_pi _ _ _ HD), ?(sd_font _ _ _ HD);
  repeat sim_step HD.

Section Stages.
Context {W1 W2 : Type} {H1 : Host W1} {H2 : Host W2} {U : Unicode}
  (R : W1 -> W2 -> Prop) (HD : same_draws H1 H2 R).

Lemma draw_sky_sim ty : sim R (draw_sky ty) (draw_sky ty).
Proof. unfold draw_sky. sim_auto HD. Qed.

Lemma draw_mountains_sim : sim R draw_mountains draw_mountains.
Proof. unfold draw_mountains, draw_mountain. sim_auto HD. Qed.

Lemma draw_forest_sim prompt : sim R (draw_forest prompt) (draw_forest prompt).
Proof. unfold draw_forest, draw_tree. sim_auto HD. Qed.

Lemma draw_magic_sim prompt : sim R (draw_magic prompt) (draw_magic prompt).
Proof. unfold draw_magic, draw_sparkle, draw_mist. sim_auto HD. Qed.

Lemma draw_dragon_body_sim c : sim R (draw_dragon_body c) (draw_dragon_body c).
Proof.
  unfold draw_dragon_body, draw_bones, body_points. sim_auto HD.
Qed.

Lemma draw_fire_sim prompt : sim R (draw_fire prompt) (draw_fire prompt).
Proof. unfold draw_fire, draw_flame, fire_outline. sim_auto HD. Qed.

Lemma draw_additional_sim ty pl mc :
  sim R (draw_additional ty pl mc) (draw_additional ty pl mc).
Proof.
  unfold draw_additional, draw_space, draw_city, draw_building, draw_robot.
  sim_auto HD.
Qed.

Lemma draw_caption_sim prompt : sim R (draw_caption prompt) (draw_caption prompt).
Proof. unfold draw_caption, pick_font. sim_auto HD. Qed.

Lemma create_ai_image_sim prompt :
  sim R (create_ai_image prompt) (create_ai_image prompt).
Proof.
  unfold create_ai_image. cbv zeta.
  repeat (apply sim_bind; [apply sim_block | intros _]).
  - apply draw_sky_sim.
  - apply draw_mountains_sim.
  - apply draw_forest_sim.
  - apply draw_magic_sim.
  - apply draw_dragon_body_sim.
  - apply draw_fire_sim.
  - apply sim_bind; [apply draw_additional_sim | intros _].
    apply sim_block, draw_caption_sim.
Qed.

End Stages.
End DrawFacts.

Module Determinism.
Import Str Num OutFacts Render DrawFacts.

Section Stages.
Context {W1 W2 : Type} {H1 : Host W1} {H2 : Host W2} {U : Unicode}
  (R : W1 -> W2 -> Prop) (HD : same_draws H1 H2 R).

Lemma create_dragon_forest_image_sim prompt :
  sim R (RenderMain.create_dragon_forest_image prompt)
        (RenderMain.create_dragon_forest_image prompt).
Proof.
  unfold RenderMain.create_dragon_forest_image. cbv zeta.
  repeat (apply sim_bind; [apply sim_block | intros _]).
  - unfold RenderMain.draw_sky. sim_auto HD.
  - apply draw_mountains_sim, HD.
  - unfold RenderMain.draw_forest, RenderMain.draw_tree. sim_auto HD.
  - apply draw_magic_sim, HD.
  - apply sim_and_then; [apply sim_block | intros _].
    + unfold RenderMain.draw_dragon_body, RenderMain.body_points. sim_auto HD.
    + apply sim_bind; [apply sim_block, draw_fire_sim, HD | intros _].
      apply sim_bind; [apply sim_block | intros _; now apply sim_ret].
      unfold RenderMain.draw_caption, pick_font.
      rewrite (sd_wrap _ _ _ HD). sim_auto HD.
Qed.

(** C2.  Neither renderer takes a seed of its own: the draws come from the
    process-wide generator, whose state a caller sets with [random.seed].
    Two renders of one prompt that start from generator states delivering
    the same draws, as the states reached by seeding with one value do,
    record the same calls, encode to the same PNG bytes and leave the
    generators in states that again deliver the same draws; this holds for
    [create_ai_image] and for [generate_text_to_image], whose drawing records
    the same calls up to the point where it raises and whose result is the
    same. *)
Theorem rendering_follows_the_draws (prompt : string) (w1 : W1) (w2 : W2) :
  R w1 w2 ->
  calls (create_ai_image prompt) w1 = calls (create_ai_image prompt) w2
  /\ @save_png W1 H1 (calls (create_ai_image prompt) w1)
     = @save_png W2 H2 (calls (create_ai_image prompt) w2)
  /\ R (after (create_ai_image prompt) w1) (after (create_ai_image prompt) w2)
  /\ calls (RenderMain.create_dragon_forest_image prompt) w1
     = calls (RenderMain.create_dragon_forest_image prompt) w2
  /\ fst (Main.generate_text_to_image prompt w1)
     = fst (Main.generate_text_to_image prompt w2)
  /\ R (snd (Main.generate_text_to_image prompt w1))
       (snd (Main.generate_text_to_image prompt w2)).
Proof.
  intros HR.
  destruct (create_ai_image_sim R HD prompt w1 w2 HR) as (_ & Ec & HR').
  destruct (create_dragon_forest_image_sim prompt w1 w2 HR) as (Ev' & Ec' & HR'').
  split; [exact Ec|]. split; [now rewrite Ec, (sd_png _ _ _ HD)|]. split; [exact HR'|].
  split; [exact Ec'|].
  unfold Main.generate_text_to_image.
  rewrite (run_eta (RenderMain.create_dragon_forest_image prompt) w1).
  rewrite (run_eta (RenderMain.create_dragon_forest_image prompt) w2).
  rewrite Ev', Ec'.
  destruct (val (RenderMain.create_dragon_forest_image prompt) w2); cbn [fst snd];
    (split; [|exact HR'']); [now rewrite (sd_png _ _ _ HD) | reflexivity].
Qed.

End Stages.

Import Demo.

(** In the demo host, states with the same generator seed deliver the same
    draws, whatever the clock shows. *)
Lemma demo_same_draws :
  same_draws Demo.demo_host Demo.demo_host (fun a b => Demo.seed a = Demo.seed b).
Proof.
  constructor; try reflexivity.
  - intros a b w1 w2 E. simpl. now rewrite E.
  - intros w1 w2 E. simpl. now rewrite E.
Qed.

Lemma rendering_follows_the_draws_witness :
  calls (create_ai_image "a green dragon") (Demo.boot 7)
  = calls (create_ai_image "a green dragon")
          {| Demo.seed := 7; Demo.clock := 5; Demo.tick := 0; Demo.db_up := false |}.
Proof.
  refine (proj1 (rendering_follows_the_draws _ demo_same_draws "a green dragon"
                   (Demo.boot 7)
                   {| Demo.seed := 7; Demo.clock := 5; Demo.tick := 0;
                      Demo.db_up := false |} _)).
  reflexivity.
Defined.

(** Without a seed set in between, two renders of one prompt in one process
    start from different generator states and differ (here already in the
    number of outline points of the first mountain, call 600). *)
Lemma successive_renders_differ :
  calls (create_ai_image "a green dragon") (Demo.boot 0)
  <> calls (create_ai_image "a green dragon")
           (after (create_ai_image "a green dragon") (Demo.boot 0)).
Proof.
  intros E.
  apply (f_equal (fun l => match nth 600 l (Sky, polygon [] (rgb (0, 0, 0))) with
                           | (_, polygon pts _) => length pts
                           | _ => 0%nat
                           end)) in E.
  vm_compute in E. discriminate E.
Qed.

End Determinism.

(** ** The 3D model payload *)

Module MeshFacts.
Import Str Mesh.

(** C5, where the claim fails: the payload does not consist of eight vertex
    lines followed by six face lines (it opens with a comment line, and in
    main.py with an empty line before it), and the cube it describes is not a
    unit cube. *)
Lemma payload_is_not_bare_unit_cube :
  eight_vertices_six_faces obj_data = false
  /\ eight_vertices_six_faces model_file_text = false
  /\ is_axis_aligned_cube 1 obj_data = false
  /\ is_axis_aligned_cube 1 model_file_text = false.
Proof.
  repeat (lazymatch goal with |- _ /\ _ => split end; [vm_compute; reflexivity|]).
  vm_compute; reflexivity.
Qed.

(** C5, amended.  Each entry point emits one constant payload, whatever its
    input.  Its lines are the comment line "# Simple cube OBJ file", eight
    vertex lines and six quadrilateral face lines with 1-based indices;
    main.py's payload also has an empty first line and ends with a line
    break, test_app.py's has neither, so the two payloads differ.  The mesh
    is the axis-aligned cube with corners (+-1, +-1, +-1), of edge 2, one
    face in each of the planes x, y, z = +-1. *)
Theorem cube_payload :
  (forall (S S' : Type) (stub : S) (stub' : S') (image image' uid uid' : string),
      generate_image_to_3d stub image uid = Some obj_data
      /\ generate_image_to_3d stub image uid = generate_image_to_3d stub' image' uid')
  /\ lines obj_data = EmptyString :: cube_lines ++ [EmptyString]
  /\ lines model_file_text = cube_lines
  /\ obj_data <> model_file_text
  /\ (exists vs fs,
         cube_lines = "# Simple cube OBJ file" :: vs ++ fs
         /\ length vs = 8%nat /\ forallb is_vertex_line vs = true
         /\ length fs = 6%nat /\ forallb is_face_line fs = true)
  /\ map (fun v : vertex => let '(x, y, z) := v in (Qred x, Qred y, Qred z))
         (vertices obj_data)
     = [(-1, -1, -1); (-1, -1, 1); (-1, 1, -1); (-1, 1, 1);
        (1, -1, -1); (1, -1, 1); (1, 1, -1); (1, 1, 1)]%Q
  /\ vertices model_file_text = vertices obj_data
  /\ faces obj_data =
       [(1, 3, 7, 5); (2, 6, 8, 4); (1, 5, 6, 2); (3, 4, 8, 7); (1, 2, 4, 3); (5, 7, 8, 6)]
  /\ faces model_file_text = faces obj_data
  /\ is_axis_aligned_cube 2 obj_data = true
  /\ map (fun f => option_map (fun '(axis, v) => (axis, Qred v))
                              (face_plane (vertices obj_data) f))
         (faces obj_data)
     = [Some (2, (-1)%Q); Some (2, 1%Q); Some (1, (-1)%Q); Some (1, 1%Q);
        Some (0, (-1)%Q); Some (0, 1%Q)].
Proof.
  split; [intros; split; reflexivity|].
  split; [reflexivity|]. split; [reflexivity|]. split; [discriminate|].
  split.
  { exists (firstn 8 (tl cube_lines)), (skipn 9 cube_lines).
    repeat split; vm_compute; reflexivity. }
  repeat (lazymatch goal with |- _ /\ _ => split end; [vm_compute; reflexivity|]).
  vm_compute; reflexivity.
Qed.

End MeshFacts.

(** ** The SQLite store *)

Module SqliteFacts.
Import Str Num Sqlite.

Lemma insert_desc_head (r : row) (l : list row) (y : row) :
  String.leb (ts r) (ts y) = true ->
  HdRel (fun a b => String.leb (ts b) (ts a) = true) y l ->
  HdRel (fun a b => String.leb (ts b) (ts a) = true) y (insert_desc r l).
Proof.
  intros Hr Hl. destruct l as [|z l]; simpl.
  - now constructor.
  - fold (ts z) (ts r). destruct (String.leb (ts z) (ts r)); constructor; auto.
    now inversion Hl.
Qed.

Lemma insert_desc_sorted (r : row) (l : list row) :
  newest_first l -> newest_first (insert_desc r l).
Proof.
  unfold newest_first. induction l as [|y l IH]; intros Hs; simpl.
  - repeat constructor.
  - fold (ts y) (ts r). destruct (String.leb (ts y) (ts r)) eqn:E.
    + constructor; [exact Hs | now constructor].
    + inversion Hs as [|? ? Hs' Hh]; subst. constructor; [now apply IH|].
      apply insert_desc_head; [|exact Hh].
      destruct (String.leb_total (ts r) (ts y)) as [T | T]; [exact T | congruence].
Qed.

Lemma order_by_sorted (l : list row) : newest_first (order_by_timestamp_desc l).
Proof.
  unfold order_by_timestamp_desc. induction l as [|r l IH]; simpl.
  - constructor.
  - now apply insert_desc_sorted.
Qed.

Lemma insert_desc_length (r : row) (l : list row) :
  length (insert_desc r l) = S (length l).
Proof.
  induction l as [|y l IH]; simpl; [reflexivity|].
  destruct (String.leb _ _); simpl; [reflexivity | now rewrite IH].
Qed.

Lemma order_by_length (l : list row) : length (order_by_timestamp_desc l) = length l.
Proof.
  unfold order_by_timestamp_desc. induction l as [|r l IH]; simpl; [reflexivity|].
  now rewrite insert_desc_length, IH.
Qed.

Lemma sorted_firstn {A} (R : A -> A -> Prop) (n : nat) (l : list A) :
  Sorted R l -> Sorted R (firstn n l).
Proof.
  revert l; induction n as [|n IH]; intros l Hs; simpl; [constructor|].
  destruct l as [|a l]; [constructor|].
  inversion Hs as [|? ? Hs' Hh]; subst. constructor; [now apply IH|].
  destruct l as [|b l]; destruct n; simpl; constructor. now inversion Hh.
Qed.

(** The rows selected with [ORDER BY timestamp DESC LIMIT limit]: newest
    first, and at most [limit] rows when the limit is not negative; a
    negative limit selects every row. *)
Lemma select_recent_bounded_and_sorted (mm : MemoryManager) (limit : Z) :
  newest_first (select_recent mm limit)
  /\ (0 <= limit -> (Z.of_nat (length (select_recent mm limit)) <= limit)%Z)
  /\ (limit < 0 -> length (select_recent mm limit) = length (table mm)).
Proof.
  unfold select_recent, sql_limit. split; [|split].
  - destruct (limit <? 0); [apply order_by_sorted | apply sorted_firstn, order_by_sorted].
  - intros Hl. destruct (Z.ltb_spec limit 0); [lia|].
    rewrite length_firstn. lia.
  - intros Hl. destruct (Z.ltb_spec limit 0); [apply order_by_length | lia].
Qed.

Lemma newer_goes_first (r : row) (l : list row) :
  Forall (fun y => String.ltb (ts y) (ts r) = true) l ->
  fold_right insert_desc [r] l = r :: fold_right insert_desc [] l.
Proof.
  induction l as [|x l IH]; intros Hl; simpl; [reflexivity|].
  inversion Hl as [|? ? Hx Hl']; subst. rewrite (IH Hl'). simpl.
  fold (ts r) (ts x).
  assert (E : String.leb (ts r) (ts x) = false).
  { unfold String.ltb in Hx. unfold String.leb.
    rewrite String.compare_antisym. destruct (String.compare (ts x) (ts r)); try discriminate.
    reflexivity. }
  now rewrite E.
Qed.

Section WithHost.
Context {W : Type} `{Host W}.

(** What [get_recent] answers: the rows selected when the database answers
    and the limit fits 64 bits, and nothing otherwise. *)
Lemma get_recent_cases (mm : MemoryManager) (limit : Z) (w : W) :
  fst (get_recent mm limit w)
  = if (fst (select_succeeds w) && fits_int64 limit)%bool
    then select_recent mm limit else [].
Proof.
  unfold get_recent. destruct (select_succeeds w) as [ok w']. cbn [fst].
  now destruct (ok && fits_int64 limit)%bool.
Qed.

(** [get_recent(limit)] of main.py: newest first, and at most [limit] rows
    when the limit is not negative; a negative limit returns every row when
    the query goes through. *)
Lemma get_recent_bounded_and_sorted (mm : MemoryManager) (limit : Z) (w : W) :
  newest_first (fst (get_recent mm limit w))
  /\ (0 <= limit -> (Z.of_nat (length (fst (get_recent mm limit w))) <= limit)%Z)
  /\ (limit < 0 -> fst (select_succeeds w) = true -> fits_int64 limit = true ->
      length (fst (get_recent mm limit w)) = length (table mm)).
Proof.
  rewrite get_recent_cases.
  destruct (select_recent_bounded_and_sorted mm limit) as (Hs & Hb & Hn).
  destruct (fst (select_succeeds w) && fits_int64 limit)%bool eqn:E.
  - split; [exact Hs|]. split; [exact Hb | intros Hl _ _; now apply Hn].
  - split; [constructor|]. split; [cbn; lia|].
    intros _ E1 E2. now rewrite E1, E2 in E.
Qed.

(** [store] then [get_recent(1)] on the SQLite store: when the insert goes
    through, the query is answered and every stored timestamp is older than
    the new one, the result is exactly the new row. *)
Lemma store_then_get_recent (mm : MemoryManager)
  (p e i m : string) (tags : option (list string)) (w : W) :
  fst (insert_succeeds (snd (time_time (snd (now_isoformat w))))) = true ->
  fst (select_succeeds (snd (store mm p e i m tags w))) = true ->
  Forall (fun y => String.ltb (ts y) (fst (now_isoformat w)) = true) (table mm) ->
  fst (get_recent (fst (store mm p e i m tags w)) 1 (snd (store mm p e i m tags w))) =
    [{| id := last_id mm + 1;
        fields := {| timestamp := fst (now_isoformat w); prompt := p;
                     expanded_prompt := e; image_path := i; model_path := m;
                     tags := tags_or_empty tags |} |}].
Proof.
  intros Hok Hsel Hold. rewrite get_recent_cases, Hsel. cbn [andb fits_int64].
  change ((- 2 ^ 63 <=? 1) && (1 <? 2 ^ 63))%bool with true. cbv iota.
  unfold store.
  destruct (now_isoformat w) as [stamp w1]. simpl in *.
  destruct (time_time w1) as [t w2]. simpl in *.
  destruct (insert_succeeds w2) as [ok w3]. simpl in Hok. subst ok. simpl.
  unfold select_recent, sql_limit, order_by_timestamp_desc. simpl.
  rewrite fold_right_app. simpl.
  rewrite newer_goes_first; [reflexivity | exact Hold].
Qed.

End WithHost.
End SqliteFacts.

(** ** The vector store *)

Module ChromaFacts.
Import Str Num Chroma.

Lemma chroma_insert_desc_head (m : memory) (l : list memory) (y : memory) :
  (timestamp (snd m) <= timestamp (snd y))%Q ->
  HdRel (fun a b => (timestamp (snd b) <= timestamp (snd a))%Q) y l ->
  HdRel (fun a b => (timestamp (snd b) <= timestamp (snd a))%Q) y (insert_desc m l).
Proof.
  intros Hm Hl. destruct l as [|z l]; simpl.
  - now constructor.
  - destruct (Qle_bool _ _); constructor; auto. now inversion Hl.
Qed.

Lemma chroma_insert_desc_sorted (m : memory) (l : list memory) :
  newest_first l -> newest_first (insert_desc m l).
Proof.
  unfold newest_first. induction l as [|y l IH]; intros Hs; simpl.
  - repeat constructor.
  - destruct (Qle_bool (timestamp (snd y)) (timestamp (snd m))) eqn:E.
    + constructor; [exact Hs | constructor; now apply Qle_bool_iff].
    + inversion Hs as [|? ? Hs' Hh]; subst. constructor; [now apply IH|].
      apply chroma_insert_desc_head; [|exact Hh].
      destruct (Qlt_le_dec (timestamp (snd y)) (timestamp (snd m))) as [L | L];
        [|exact L].
      apply Qlt_le_weak, Qle_bool_iff in L. congruence.
Qed.

Lemma sorted_desc_sorted (l : list memory) : newest_first (sorted_desc l).
Proof.
  unfold sorted_desc. induction l as [|m l IH]; simpl;
    [constructor | now apply chroma_insert_desc_sorted].
Qed.

(** [get_recent(limit)] of chroma_memory.py returns at most [limit] memories,
    newest first among those it fetched. *)
Lemma chroma_get_recent_bounded_and_sorted (mm : ChromaMemoryManager) (limit : nat) :
  newest_first (get_recent mm limit)
  /\ (length (get_recent mm limit) <= limit)%nat.
Proof.
  unfold get_recent. destruct (collection_get mm limit) as [|it l] eqn:E.
  - split; [constructor | simpl; lia].
  - split.
    + apply SqliteFacts.sorted_firstn, sorted_desc_sorted.
    + rewrite length_firstn. lia.
Qed.

Section WithHost.
Context {W : Type} `{Host W} {U : Unicode}.

(** The records fetched are the first [limit] of the collection, so with a
    record already stored, [store] followed by [get_recent(1)] returns that
    older record, whatever is stored and whenever. *)
Lemma get_recent_after_store_is_oldest (mm : ChromaMemoryManager) (it : item)
  (rest : list item) (p e i m : string) (tags : option (list string)) (w : W) :
  collection mm = it :: rest ->
  get_recent (fst (store mm p e i m tags w)) 1 = [(id it, meta it)].
Proof.
  intros Hc. unfold store.
  destruct (time_time w) as [t w1]. destruct (time_time w1) as [t' w2].
  destruct (insert_succeeds w2) as [ok w3].
  destruct (ok && negb (has_id _ (collection mm)))%bool; simpl;
    unfold get_recent, collection_get; simpl; rewrite Hc; reflexivity.
Qed.

End WithHost.

Import Demo.

(** C4 at the failing input: a collection holding one record, stored at
    second 1700000000; a second record is stored three seconds later and
    [get_recent(1)] is asked.  The store does hold both records, the second
    with the larger timestamp, and the answer is the first. *)
Theorem chroma_get_recent_misses_the_new_record :
  let w0 := Demo.boot 0 in
  let '(mm1, w1) := store empty "first prompt" "first prompt" "a.png" "a.obj"
                          (Some ["first"; "prompt"]) w0 in
  let '(mm2, w2) := store mm1 "second prompt" "second prompt" "b.png" "b.obj"
                          (Some ["second"; "prompt"]) w1 in
  map (fun it => (prompt (meta it), timestamp (meta it))) (collection mm2)
    = [("first prompt", 1700000001%Q); ("second prompt", 1700000003%Q)]
  /\ map (fun m => prompt (snd m)) (get_recent mm2 1) = ["first prompt"]
  /\ map (fun m => prompt (snd m)) (get_recent mm2 2) = ["second prompt"; "first prompt"].
Proof. vm_compute. repeat split. Qed.

End ChromaFacts.

(** ** Tags *)

Module TagFacts.
Import Str StrFacts SpecTags.



Section WithUnicode.
Context {U : Unicode}.


End WithUnicode.


End TagFacts.

(** ** Requests *)

Module RequestFacts.
Import Str StrFacts SpecTags TagFacts.

Section WithHost.
Context {W : Type} `{Host W} {U : Unicode}.

Lemma truthy_string (s : string) : s <> EmptyString -> truthy (JStr s) = true.
Proof. intros Hs. simpl. destruct s; [congruence | reflexivity]. Qed.

(** [execute] on a non-empty string prompt: the image is never generated,
    so the reply is the failure message, and neither the memory nor the disk
    is touched. *)
Lemma execute_string (s : string) (data : json) (p : Main.process W) :
  Main.requested_prompt data = JStr s -> s <> EmptyString ->
  exists w',
    Main.execute data p =
      (inr (message_only "Failed to generate image from prompt."),
       {| Main.host := w'; Main.memory_manager := Main.memory_manager p;
          Main.files := Main.files p |}).
Proof.
  intros Hreq Hs.
  unfold Main.execute. rewrite Hreq, (truthy_string s Hs). cbn [negb].
  destruct (Main.extract_memory_references _ s _) as [[clean ref] w0].
  match goal with
  | |- context [Main.generate_text_to_image ?e ?w] =>
      pose proof (FlameFacts.image_never_generated e w) as Hg;
      destruct (Main.generate_text_to_image e w) as [img w1]
  end.
  cbn [fst] in Hg. subst img. now exists w1.
Qed.

End WithHost.
End RequestFacts.

(** ** File names *)

Module PathFacts.
Import Str StrFacts Path.

Lemma contains_slash_cons (c : ascii) (s : string) :
  contains "/" (String c s) = (Ascii.eqb "/" c || contains "/" s)%bool.
Proof. cbn [contains startswith]. now rewrite andb_true_r. Qed.

Lemma slash_free_append (a b : string) :
  slash_free a -> slash_free b -> slash_free (a +++ b).
Proof.
  unfold slash_free. induction a as [|c a IH]; intros Ha Hb; [exact Hb|].
  simpl String.append. rewrite contains_slash_cons in *.
  apply orb_false_iff in Ha as [Hc Ha]. rewrite Hc. simpl. now apply IH.
Qed.

Lemma split_last_slash_free (n : string) : slash_free n -> split_last n = (EmptyString, n).
Proof.
  unfold slash_free. induction n as [|c n IH]; intros Hn; [reflexivity|].
  rewrite contains_slash_cons in Hn. apply orb_false_iff in Hn as [Hc Hn].
  cbn [split_last]. rewrite (IH Hn), Hn. rewrite Ascii.eqb_sym, Hc. reflexivity.
Qed.

Lemma contains_slash_middle (x n : string) : contains "/" (x +++ String "/" n) = true.
Proof. apply contains_spec. now exists x, n. Qed.

Lemma split_last_join (x n : string) :
  slash_free n -> split_last (x +++ String "/" n) = (x +++ "/", n).
Proof.
  intros Hn. induction x as [|c x IH].
  - cbn [String.append split_last].
    rewrite (split_last_slash_free n Hn). unfold slash_free in Hn. now rewrite Hn.
  - cbn [String.append split_last]. rewrite IH, contains_slash_middle.
    rewrite andb_false_r. reflexivity.
Qed.

Lemma endswith_slash_cut (d : string) :
  endswith_slash d = true -> exists x, d = x +++ "/".
Proof.
  induction d as [|c d IH]; [discriminate|].
  destruct d as [|c' d'].
  - simpl. intros E. apply Ascii.eqb_eq in E as ->. now exists EmptyString.
  - intros E. change (endswith_slash (String c' d') = true) in E.
    destruct (IH E) as [x Hx]. exists (String c x). simpl. now rewrite Hx.
Qed.

(** [basename(join(d, n))] is [n] for a name without slashes. *)
Lemma basename_join (d n : string) : slash_free n -> basename (join d n) = n.
Proof.
  intros Hn. unfold basename, join.
  assert (Hs : startswith "/" n = false).
  { destruct (startswith "/" n) eqn:E; [|reflexivity].
    apply startswith_spec in E as [b ->]. discriminate Hn. }
  rewrite Hs. destruct (String.eqb_spec d EmptyString) as [-> | Hd]; simpl.
  - now rewrite split_last_slash_free.
  - destruct (endswith_slash d) eqn:E.
    + apply endswith_slash_cut in E as [x ->]. rewrite append_assoc.
      change ("/" +++ n) with (String "/" n). now rewrite split_last_join.
    + change ("/" +++ n) with (String "/" n). now rewrite split_last_join.
Qed.

Lemma digit_not_slash (d : Z) : 0 <= d < 10 -> Ascii.eqb "/" (digit d) = false.
Proof.
  intros Hd.
  assert (E : d = 0 \/ d = 1 \/ d = 2 \/ d = 3 \/ d = 4 \/ d = 5 \/ d = 6 \/ d = 7
              \/ d = 8 \/ d = 9) by lia.
  repeat (destruct E as [-> | E]; [reflexivity|]). now subst.
Qed.

Lemma digits_slash_free (fuel : nat) (n : Z) (acc : string) :
  slash_free acc -> slash_free (digits fuel n acc).
Proof.
  revert n acc; induction fuel as [|fuel IH]; intros n acc Ha; simpl; [exact Ha|].
  assert (Ha' : slash_free (String (digit (n mod 10)) acc)).
  { unfold slash_free. rewrite contains_slash_cons, digit_not_slash; [exact Ha|].
    apply Z.mod_pos_bound. lia. }
  destruct (n / 10 =? 0); [exact Ha' | now apply IH].
Qed.

Lemma str_of_int_slash_free (n : Z) : slash_free (str_of_int n).
Proof.
  unfold str_of_int. destruct (n <? 0).
  - unfold slash_free. rewrite contains_slash_cons. simpl.
    now apply digits_slash_free.
  - now apply digits_slash_free.
Qed.

(** The names of the artifacts, whatever the output directory. *)
Lemma artifact_basename (dir pre ext : string) (t : Z) :
  slash_free pre -> slash_free ext ->
  basename (join dir (pre +++ str_of_int t +++ ext)) = pre +++ str_of_int t +++ ext.
Proof.
  intros Hp He. apply basename_join.
  apply slash_free_append; [exact Hp|].
  apply slash_free_append; [apply str_of_int_slash_free | exact He].
Qed.

End PathFacts.

(** ** The outcomes of [execute] and of the two [generate] endpoints *)

Module OutcomeFacts.
Import Str StrFacts SpecTags TagFacts RequestFacts.

Section WithHost.
Context {W : Type} `{Host W} {U : Unicode}.

Lemma execute_falsy (data : json) (p : Main.process W) :
  truthy (Main.requested_prompt data) = false ->
  Main.execute data p =
    (inr (message_only "Please provide a prompt to generate content."), p).
Proof. intros E. unfold Main.execute. now rewrite E. Qed.

Lemma execute_not_string (data : json) (p : Main.process W) :
  truthy (Main.requested_prompt data) = true ->
  (forall s, Main.requested_prompt data <> JStr s) ->
  Main.execute data p = (inl AttributeError_lower, p).
Proof.
  intros E Hn. unfold Main.execute. rewrite E. cbn [negb].
  destruct (Main.requested_prompt data); try reflexivity. now destruct (Hn s).
Qed.

(** [store] always puts the creation into the session memory, under the
    clock's second. *)
Lemma store_short_term (mm : Sqlite.MemoryManager) (p e i m : string)
  (tags : option (list string)) (w : W) :
  Sqlite.short_term (fst (Sqlite.store mm p e i m tags w))
    !! Num.int (fst (time_time (snd (now_isoformat w))))
  = Some {| Sqlite.timestamp := fst (now_isoformat w); Sqlite.prompt := p;
            Sqlite.expanded_prompt := e; Sqlite.image_path := i;
            Sqlite.model_path := m; Sqlite.tags := Sqlite.tags_or_empty tags |}.
Proof.
  unfold Sqlite.store. destruct (now_isoformat w) as [stamp w1]. cbn [fst snd].
  destruct (time_time w1) as [t w2]. cbn [fst snd].
  destruct (insert_succeeds w2) as [[|] w3];
    cbn [fst snd Sqlite.short_term]; apply lookup_insert_eq.
Qed.

(** When the insert fails, the table is left as it was. *)
Lemma store_insert_failed (mm : Sqlite.MemoryManager) (p e i m : string)
  (tags : option (list string)) (w : W) :
  fst (insert_succeeds (snd (time_time (snd (now_isoformat w))))) = false ->
  Sqlite.table (fst (Sqlite.store mm p e i m tags w)) = Sqlite.table mm
  /\ Sqlite.last_id (fst (Sqlite.store mm p e i m tags w)) = Sqlite.last_id mm.
Proof.
  unfold Sqlite.store. destruct (now_isoformat w) as [stamp w1]. cbn [fst snd].
  destruct (time_time w1) as [t w2]. cbn [fst snd].
  destruct (insert_succeeds w2) as [[|] w3];
    cbn [fst snd]; [discriminate | now split].
Qed.


End WithHost.
End OutcomeFacts.

Module StoredTags.
Import Str StrFacts Num SpecTags TagFacts RequestFacts OutcomeFacts.

Section WithHost.
Context {W : Type} `{Host W} {U : Unicode}.







End WithHost.

Import Demo.

(** The tags of a prompt with capitals, short words and a letter outside
    ASCII. *)
Lemma demo_tags :
  derived_tags ("A Green Dragon in the CAF" +++ chr 201 +++ " forest")
  = ["green"; "dragon"; "caf" +++ chr 233; "forest"].
Proof. vm_compute. reflexivity. Qed.


End StoredTags.

(** ** Missing prompts *)

Module MissingPrompt.
Import Str StrFacts RequestFacts OutcomeFacts.

Section WithHost.
Context {W : Type} `{Host W} {U : Unicode}.


End WithHost.

Import Demo.



End MissingPrompt.

(** ** A failing insert *)

Module InsertFailure.
Import Str StrFacts RequestFacts OutcomeFacts PathFacts.

Section WithHost.
Context {W : Type} `{Host W} {U : Unicode}.

(** C10.  With a database that rejects the insert, [store] still returns: the
    table and the row counter are as before and the creation is in the
    session memory.  [execute], however, does not report a creation: for
    every non-empty string prompt the image step fails, the reply is the
    message "Failed to generate image from prompt.", [store] is not reached,
    and the memory (the session memory included) and the disk are as
    before. *)
Theorem insert_failure_is_swallowed
  (Hdown : forall w : W, fst (insert_succeeds w) = false) :
  (forall mm p e i m tags (w : W),
      let mm' := fst (Sqlite.store mm p e i m tags w) in
      Sqlite.table mm' = Sqlite.table mm
      /\ Sqlite.last_id mm' = Sqlite.last_id mm
      /\ exists k c, Sqlite.short_term mm' !! k = Some c
                     /\ Sqlite.prompt c = p /\ Sqlite.expanded_prompt c = e
                     /\ Sqlite.image_path c = i /\ Sqlite.model_path c = m)
  /\ (forall data s (p : Main.process W),
         Main.requested_prompt data = JStr s -> s <> EmptyString ->
         fst (Main.execute data p)
           = inr (message_only "Failed to generate image from prompt.")
         /\ Main.memory_manager (snd (Main.execute data p)) = Main.memory_manager p
         /\ Main.files (snd (Main.execute data p)) = Main.files p).
Proof.
  split.
  - intros mm p e i m tags w mm'. subst mm'.
    destruct (store_insert_failed mm p e i m tags w (Hdown _)) as [Et El].
    split; [exact Et|]. split; [exact El|].
    eexists _, _. split; [apply store_short_term|]. now repeat split.
  - intros data s p Hr Hs.
    destruct (execute_string s data p Hr Hs) as [w' ->]. now repeat split.
Qed.

End WithHost.

Import Demo Offline.

Lemma insert_failure_is_swallowed_witness :
  let data := JObj [("prompt", JStr "a dragon")] in
  let p := {| Main.host := Offline.boot 0; Main.memory_manager := Sqlite.empty;
              Main.files := [] |} in
  fst (Main.execute data p) = inr (message_only "Failed to generate image from prompt.")
  /\ Main.memory_manager (snd (Main.execute data p)) = Sqlite.empty
  /\ Main.files (snd (Main.execute data p)) = [].
Proof.
  refine (proj2 (insert_failure_is_swallowed (W := Offline.world) _)
                (JObj [("prompt", JStr "a dragon")]) "a dragon"
                {| Main.host := Offline.boot 0; Main.memory_manager := Sqlite.empty;
                   Main.files := [] |} eq_refl _).
  - intros w. reflexivity.
  - discriminate.
Defined.

End InsertFailure.

(** ** The byte order on timestamps *)

Module OrderFacts.

Lemma ascii_compare_refl (a : ascii) : Ascii.compare a a = Eq.
Proof. unfold Ascii.compare. apply N.compare_refl. Qed.

Lemma ascii_compare_lt_trans (a b c : ascii) :
  Ascii.compare a b = Lt -> Ascii.compare b c = Lt -> Ascii.compare a c = Lt.
Proof.
  unfold Ascii.compare. rewrite !N.compare_lt_iff. apply N.lt_trans.
Qed.

Lemma compare_le_trans (a b c : string) :
  String.compare a b <> Gt -> String.compare b c <> Gt -> String.compare a c <> Gt.
Proof.
  revert b c. induction a as [|x a IH]; intros [|y b] [|z c]; simpl; try congruence.
  destruct (Ascii.compare x y) eqn:E1; destruct (Ascii.compare y z) eqn:E2;
    try congruence.
  - apply Ascii.compare_eq_iff in E1, E2. subst. rewrite ascii_compare_refl. apply IH.
  - apply Ascii.compare_eq_iff in E1. subst. rewrite E2. congruence.
  - apply Ascii.compare_eq_iff in E2. subst. rewrite E1. congruence.
  - rewrite (ascii_compare_lt_trans _ _ _ E1 E2). congruence.
Qed.

Lemma leb_trans (a b c : string) :
  String.leb a b = true -> String.leb b c = true -> String.leb a c = true.
Proof.
  unfold String.leb. intros H1 H2.
  assert (N : String.compare a c <> Gt).
  { apply (compare_le_trans a b c).
    - destruct (String.compare a b); simpl in *; congruence.
    - destruct (String.compare b c); simpl in *; congruence. }
  destruct (String.compare a c); simpl in *; congruence.
Qed.

Lemma leb_refl (a : string) : String.leb a a = true.
Proof. destruct (String.leb_total a a); assumption. Qed.

Lemma ltb_leb (a b : string) : String.ltb a b = true -> String.leb a b = true.
Proof. unfold String.ltb, String.leb. destruct (String.compare a b); simpl; congruence. Qed.

Lemma ltb_false_leb (a b : string) : String.ltb a b = false -> String.leb b a = true.
Proof.
  unfold String.ltb, String.leb. rewrite (String.compare_antisym b a).
  destruct (String.compare a b); simpl; congruence.
Qed.


End OrderFacts.

Module RecentFacts.
Import Str Num Sqlite Stored.





Section WithHost.
Context {W : Type} `{Host W}.


(** X2: a [get_recent(n)], a [store] and a [get_recent(n + 1)] on the SQLite
    store, one after the other: when both queries and the insert go through,
    [n + 1] is an integer of 64 bits and every stored timestamp is older
    than the new one, the second answer is the new row followed by the first
    answer. *)
Theorem store_then_recent (mm : MemoryManager)
  (p e i m : string) (tags : option (list string)) (w : W) (n : Z) :
  let before := get_recent mm n w in
  let stored := store mm p e i m tags (snd before) in
  let after := get_recent (fst stored) (n + 1) (snd stored) in
  fst (select_succeeds w) = true ->
  fst (insert_succeeds (snd (time_time (snd (now_isoformat (snd before)))))) = true ->
  fst (select_succeeds (snd stored)) = true ->
  Forall (fun y => String.ltb (ts y) (fst (now_isoformat (snd before))) = true)
         (table mm) ->
  0 <= n -> n + 1 < 2 ^ 63 ->
  fst after = new_row mm p e i m tags (snd before) :: fst before.
Proof.
  cbv zeta. intros Hsel Hok Hsel' Hold Hn Hmax.
  rewrite !SqliteFacts.get_recent_cases, Hsel, Hsel'. cbn [andb].
  assert (F1 : fits_int64 (n + 1) = true).
  { unfold fits_int64. apply andb_true_iff. split; [apply Z.leb_le | apply Z.ltb_lt]; lia. }
  assert (F0 : fits_int64 n = true).
  { unfold fits_int64. apply andb_true_iff. split; [apply Z.leb_le | apply Z.ltb_lt]; lia. }
  rewrite F0, F1.
  set (w0 := snd (get_recent mm n w)) in *. clearbody w0.
  unfold store, new_row.
  destruct (now_isoformat w0) as [stamp w1]. cbn [fst snd] in *.
  destruct (time_time w1) as [t w2]. cbn [fst snd] in *.
  destruct (insert_succeeds w2) as [ok w3]. cbn [fst] in Hok. subst ok. cbn [fst].
  unfold select_recent, sql_limit, order_by_timestamp_desc. cbn [table].
  rewrite fold_right_app. cbn [fold_right insert_desc].
  rewrite SqliteFacts.newer_goes_first; [|exact Hold].
  destruct (Z.ltb_spec (n + 1) 0); [lia|]. destruct (Z.ltb_spec n 0); [lia|].
  replace (Z.to_nat (n + 1)) with (S (Z.to_nat n)) by lia. reflexivity.
Qed.

(** What [store] of main.py does to the table and to the session
    dictionary.  The table only grows at its end, by one row when the insert
    goes through and not at all otherwise; the session dictionary gets the
    creation under the current second whether or not the insert went
    through, replacing what was stored under that second before. *)
Lemma store_effect (mm : MemoryManager)
  (p e i m : string) (tags : option (list string)) (w : W) :
  let mm' := fst (store mm p e i m tags w) in
  let key := int (fst (time_time (snd (now_isoformat w)))) in
  let ok := fst (insert_succeeds (snd (time_time (snd (now_isoformat w))))) in
  table mm' = (if ok then table mm ++ [new_row mm p e i m tags w] else table mm)
  /\ short_term mm' = <[key := fields (new_row mm p e i m tags w)]> (short_term mm)
  /\ (forall k, k <> key -> short_term mm' !! k = short_term mm !! k).
Proof.
  unfold store, new_row.
  destruct (now_isoformat w) as [stamp w1]. simpl.
  destruct (time_time w1) as [t w2]. simpl.
  destruct (insert_succeeds w2) as [[|] w3]; simpl;
    (split; [reflexivity|]; split; [reflexivity|]);
    intros k Hk; now rewrite lookup_insert_ne.
Qed.

(** X3: two [store]s whose clock readings fall in the same second: both rows
    are in the table, and the session dictionary holds the second creation
    only under that second; it has no more keys than after the first. *)
Theorem same_second_stores (mm : MemoryManager)
  (p1 e1 i1 m1 p2 e2 i2 m2 : string) (t1 t2 : option (list string)) (w : W) :
  let r1 := store mm p1 e1 i1 m1 t1 w in
  let r2 := store (fst r1) p2 e2 i2 m2 t2 (snd r1) in
  let key1 := int (fst (time_time (snd (now_isoformat w)))) in
  let key2 := int (fst (time_time (snd (now_isoformat (snd r1))))) in
  key1 = key2 ->
  fst (insert_succeeds (snd (time_time (snd (now_isoformat w))))) = true ->
  fst (insert_succeeds (snd (time_time (snd (now_isoformat (snd r1)))))) = true ->
  table (fst r2)
  = table mm ++ [new_row mm p1 e1 i1 m1 t1 w;
                 new_row (fst r1) p2 e2 i2 m2 t2 (snd r1)]
  /\ short_term (fst r2) !! key1
     = Some (fields (new_row (fst r1) p2 e2 i2 m2 t2 (snd r1)))
  /\ dom (short_term (fst r2)) = dom (short_term (fst r1)).
Proof.
  intros r1 r2 key1 key2 Hk Hok1 Hok2.
  destruct (store_effect (fst r1) p2 e2 i2 m2 t2 (snd r1)) as (T2 & S2 & _).
  destruct (store_effect mm p1 e1 i1 m1 t1 w) as (T1 & S1 & _).
  fold r1 in T1, S1. fold r2 in T2, S2. fold key1 in S1. fold key2 in S2.
  rewrite Hok2 in T2. rewrite Hok1 in T1.
  split; [|split].
  - rewrite T2, T1, <- app_assoc. reflexivity.
  - rewrite S2, Hk. apply lookup_insert_eq.
  - rewrite S2, S1, <- Hk. rewrite !dom_insert_L.
    now rewrite (assoc_L (∪)), (idemp_L (∪)).
Qed.

End WithHost.

Import Demo.


Lemma store_then_recent_witness :
  let r1 := store empty "a dragon" "a dragon" "i1.png" "m1.obj" (Some ["dragon"])
                  (Demo.boot 0) in
  let before := get_recent (fst r1) 1 (snd r1) in
  let stored := store (fst r1) "a robot" "a robot" "i2.png" "m2.obj" (Some ["robot"])
                      (snd before) in
  fst (get_recent (fst stored) (1 + 1) (snd stored))
  = new_row (fst r1) "a robot" "a robot" "i2.png" "m2.obj" (Some ["robot"]) (snd before)
    :: fst before.
Proof.
  refine (store_then_recent _ "a robot" "a robot" "i2.png" "m2.obj" (Some ["robot"])
            _ 1 _ _ _ _ _ _).
  - reflexivity.
  - reflexivity.
  - reflexivity.
  - vm_compute. repeat constructor.
  - lia.
  - lia.
Defined.

Lemma same_second_stores_witness :
  let w := {| Demo.seed := 0; Demo.clock := 1700000000; Demo.tick := 1 # 4;
              Demo.db_up := true |} in
  let r1 := store empty "a dragon" "a dragon" "i1.png" "m1.obj" (Some ["dragon"]) w in
  let r2 := store (fst r1) "a robot" "a robot" "i2.png" "m2.obj" (Some ["robot"])
                  (snd r1) in
  table (fst r2)
  = table empty ++ [new_row empty "a dragon" "a dragon" "i1.png" "m1.obj"
                            (Some ["dragon"]) w;
                    new_row (fst r1) "a robot" "a robot" "i2.png" "m2.obj"
                            (Some ["robot"]) (snd r1)].
Proof.
  refine (proj1 (same_second_stores empty "a dragon" "a dragon" "i1.png" "m1.obj"
                   "a robot" "a robot" "i2.png" "m2.obj" (Some ["dragon"])
                   (Some ["robot"])
                   {| Demo.seed := 0; Demo.clock := 1700000000; Demo.tick := 1 # 4;
                      Demo.db_up := true |} _ _ _)); reflexivity.
Defined.

End RecentFacts.

(** ** [LIKE] and [MemoryManager.search] *)

Module SearchFacts.
Import Str StrFacts Num Sqlite.

Lemma like_chars_percent (p t : list string) :
  like_chars ("%" :: p) t
  = (like_chars p t || match t with
                       | [] => false
                       | _ :: t' => like_chars ("%" :: p) t'
                       end)%bool.
Proof. destruct t; reflexivity. Qed.

Lemma like_percent_iff (p t : list string) :
  like_chars ("%" :: p) t = true <-> exists a b, t = a ++ b /\ like_chars p b = true.
Proof.
  induction t as [|c t IH]; rewrite like_chars_percent, orb_true_iff.
  - split.
    + intros [Hl | Hf]; [|discriminate]. now exists [], [].
    + intros (a & b & Hab & Hl). left.
      destruct a; [|discriminate]. simpl in Hab. now subst b.
  - rewrite IH. split.
    + intros [Hl | (a & b & -> & Hl)].
      * now exists [], (c :: t).
      * now exists (c :: a), b.
    + intros (a & b & Hab & Hl). destruct a as [|x a]; simpl in Hab.
      * left. now subst b.
      * right. injection Hab as _ ->. now exists a, b.
Qed.

Lemma like_only_percent (t : list string) : like_chars ["%"] t = true.
Proof.
  induction t as [|c t IH]; rewrite like_chars_percent; [reflexivity|].
  rewrite IH. apply orb_true_r.
Qed.

Lemma like_chars_cons (c : string) (p t : list string) :
  c <> "%" ->
  like_chars (c :: p) t
  = match t with
    | [] => false
    | d :: t' => ((String.eqb c "_" || same_nocase c d) && like_chars p t')%bool
    end.
Proof.
  intros Hc. cbn [like_chars]. apply String.eqb_neq in Hc. now rewrite Hc.
Qed.

(** A pattern that opens with characters other than the wild cards matches
    the texts that open with those characters, up to case, and go on with a
    match of the rest. *)
Lemma like_literal (q rest t : list string) :
  List.Forall (fun ch => ch <> "%" /\ ch <> "_") q ->
  like_chars (q ++ rest) t = true
  <-> exists m t', t = m ++ t'
                   /\ Forall2 (fun x y => same_nocase x y = true) q m
                   /\ like_chars rest t' = true.
Proof.
  intros Hq. revert t. induction Hq as [|c q [Hc1 Hc2] Hq IH]; intros t.
  - cbn [app]. split.
    + intros Hl. exists [], t. now repeat split.
    + intros (m & t' & -> & Hm & Hl). now inversion Hm.
  - cbn [app]. rewrite (like_chars_cons c _ t Hc1).
    apply String.eqb_neq in Hc2. rewrite Hc2. cbn [orb].
    destruct t as [|d t].
    + split; [discriminate|]. intros (m & t' & Ht & Hm & _).
      inversion Hm; subst. discriminate Ht.
    + rewrite andb_true_iff, (IH t). split.
      * intros [Hcd (m & t' & -> & Hm & Hl)].
        exists (d :: m), t'. split; [reflexivity|]. split; [now constructor | exact Hl].
      * intros (m & t' & Ht & Hm & Hl). inversion Hm as [|? y ? m' Hy Hm']; subst.
        injection Ht as -> ->. split; [exact Hy|]. now exists m', t'.
Qed.

Lemma contains_char_cons (x c : ascii) (q : string) :
  contains (String x EmptyString) (String c q) = false ->
  Ascii.eqb c x = false /\ contains (String x EmptyString) q = false.
Proof.
  cbn [contains startswith]. rewrite orb_false_iff.
  intros [H1 H2]. split; [|exact H2].
  rewrite Ascii.eqb_sym. destruct (Ascii.eqb x c); [|reflexivity].
  destruct q; discriminate.
Qed.

(** A text without NUL is read whole. *)
Lemma c_string_whole (s : string) :
  contains (String zero EmptyString) s = false -> c_string s = s.
Proof.
  induction s as [|c s IH]; intros Hs; [reflexivity|].
  apply contains_char_cons in Hs as [Hc Hs]. cbn [c_string]. now rewrite Hc, IH.
Qed.

Lemma c_string_pattern (q : string) :
  contains (String zero EmptyString) q = false ->
  c_string ("%" +++ q +++ "%") = "%" +++ q +++ "%".
Proof.
  intros Hq. change ("%" +++ q +++ "%") with (String "%" (q +++ "%")).
  cbn [c_string]. change (Ascii.eqb "%" zero) with false. cbv iota. f_equal.
  induction q as [|c q IH]; [reflexivity|].
  apply contains_char_cons in Hq as [Hc Hq]. cbn [String.append c_string].
  now rewrite Hc, IH.
Qed.

Lemma chars_pattern (q : string) :
  chars ("%" +++ q +++ "%") = "%" :: chars q ++ ["%"].
Proof.
  change ("%" +++ q +++ "%") with (String "%" (q +++ String "%" "")).
  rewrite chars_cons_ascii by reflexivity.
  now rewrite chars_app_ascii by reflexivity.
Qed.

(** A character that does not occur in a text is none of its characters. *)
Lemma chars_free (x : ascii) (q : string) :
  contains (String x EmptyString) q = false ->
  List.Forall (fun ch => ch <> String x EmptyString) (chars q).
Proof.
  intros Hq. apply List.Forall_forall. intros ch Hin ->.
  apply in_split in Hin as (a & b & E).
  assert (Hc : contains (String x EmptyString) q = true).
  { apply contains_spec. exists (join EmptyString a), (join EmptyString b).
    rewrite <- (join_chars q), E, join_app, join_cons. reflexivity. }
  congruence.
Qed.

(** [text LIKE '%' || q || '%'] for a query without wild cards and without
    NUL: the query occurs in the text. *)
Lemma like_query (q t : string) :
  contains "%" q = false -> contains "_" q = false ->
  contains (String zero EmptyString) q = false ->
  like ("%" +++ q +++ "%") t = true <-> occurs_nocase q t.
Proof.
  intros Hp Hu Hz. unfold like, occurs_nocase.
  rewrite (c_string_pattern q Hz), chars_pattern, like_percent_iff.
  assert (Hq : List.Forall (fun ch => ch <> "%" /\ ch <> "_") (chars q)).
  { apply List.Forall_forall. intros ch Hin.
    pose proof (chars_free _ q Hp) as F1. pose proof (chars_free _ q Hu) as F2.
    rewrite List.Forall_forall in F1, F2. split; [now apply F1 | now apply F2]. }
  split.
  - intros (a & b & E & Hl). apply (like_literal _ ["%"] b Hq) in Hl
      as (m & t' & -> & Hm & _). now exists a, m, t'.
  - intros (a & m & b & E & Hm). exists a, (m ++ b). split; [exact E|].
    apply (like_literal _ ["%"] _ Hq). exists m, b.
    split; [reflexivity|]. split; [exact Hm | apply like_only_percent].
Qed.

Lemma like_everything (t : string) : like "%%" t = true.
Proof.
  unfold like. change (chars (c_string "%%")) with ["%"; "%"].
  apply like_percent_iff. exists (chars (c_string t)), [].
  split; [now rewrite app_nil_r | reflexivity].
Qed.

Section WithHost.
Context {W : Type} `{Host W}.

(** What [search] answers: the rows selected when the database answers and
    the pattern is one [LIKE] takes, and nothing otherwise. *)
Lemma search_cases (mm : MemoryManager) (query : string) (w : W) :
  fst (search mm query w)
  = if (fst (select_succeeds w)
        && (Z.of_nat (String.length ("%" +++ query +++ "%")) <=? max_like_pattern_length))%bool
    then select_like mm ("%" +++ query +++ "%") else [].
Proof.
  unfold search. destruct (select_succeeds w) as [ok w']. cbn [fst].
  now destruct (ok && _)%bool.
Qed.

Lemma pattern_length (query : string) :
  Z.of_nat (String.length ("%" +++ query +++ "%")) = Z.of_nat (String.length query) + 2.
Proof.
  change ("%" +++ query +++ "%") with (String "%" (query +++ "%")).
  cbn [String.length].
  assert (E : String.length (query +++ "%") = S (String.length query)).
  { induction query as [|c q IH]; cbn [String.append String.length]; [reflexivity|].
    now rewrite IH. }
  rewrite E. lia.
Qed.

(** X4: [search(query)] of main.py.  For a query that holds no [%], no [_]
    and no NUL and is at most 49998 bytes long, asked while the database
    answers, a row is returned exactly when it is in the table and the query
    occurs in its prompt, in its expanded prompt or in the JSON text of its
    tags, where to occur is to equal some run of characters of the text (up
    to its first NUL), character by character and up to the case of the
    letters A-Z; an empty query returns the whole table.  When the database
    does not answer, or the query is longer than 49998 bytes, the answer is
    the empty list. *)
Theorem search_finds_occurrences (mm : MemoryManager) (query : string) (w : W) :
  (fst (select_succeeds w) = true ->
   Z.of_nat (String.length query) + 2 <= max_like_pattern_length ->
   contains "%" query = false -> contains "_" query = false ->
   contains (String zero EmptyString) query = false ->
   forall r, In r (fst (search mm query w))
     <-> In r (table mm)
         /\ (occurs_nocase query (prompt (fields r))
             \/ occurs_nocase query (expanded_prompt (fields r))
             \/ occurs_nocase query (json_dumps (tags (fields r)))))
  /\ (fst (select_succeeds w) = true -> fst (search mm EmptyString w) = table mm)
  /\ (fst (select_succeeds w) = false
      \/ max_like_pattern_length < Z.of_nat (String.length query) + 2 ->
      fst (search mm query w) = []).
Proof.
  split; [|split].
  - intros Hsel Hlen Hp Hu Hz r. rewrite search_cases, Hsel, pattern_length.
    apply Z.leb_le in Hlen. rewrite Hlen. cbn [andb].
    unfold select_like. rewrite filter_In, !orb_true_iff.
    rewrite !(like_query query _ Hp Hu Hz). tauto.
  - intros Hsel. rewrite search_cases, Hsel. cbn [andb].
    change (Z.of_nat (String.length ("%" +++ "" +++ "%")) <=? max_like_pattern_length)
      with true. cbv iota.
    unfold select_like. change ("%" +++ "" +++ "%") with "%%".
    induction (table mm) as [|r l IH]; [reflexivity|].
    cbn [List.filter]. rewrite (like_everything (prompt (fields r))). cbn [orb].
    now rewrite IH.
  - intros Hf. rewrite search_cases, pattern_length.
    destruct Hf as [-> | Hlen]; [reflexivity|].
    apply Z.leb_gt in Hlen. rewrite Hlen. now rewrite andb_false_r.
Qed.

End WithHost.

Import Demo.

Lemma search_finds_occurrences_witness :
  let w := Demo.boot 0 in
  let mm := fst (store empty "A Red DRAGON" "a red dragon" "i.png" "m.obj"
                       (Some ["dragon"]) w) in
  let r := Stored.new_row empty "A Red DRAGON" "a red dragon" "i.png" "m.obj"
                          (Some ["dragon"]) w in
  In r (fst (search mm "dragon" w))
  <-> In r (table mm)
      /\ (occurs_nocase "dragon" (prompt (fields r))
          \/ occurs_nocase "dragon" (expanded_prompt (fields r))
          \/ occurs_nocase "dragon" (json_dumps (tags (fields r)))).
Proof.
  refine (proj1 (search_finds_occurrences _ "dragon" (Demo.boot 0)) _ _ _ _ _ _).
  - reflexivity.
  - vm_compute. discriminate.
  - reflexivity.
  - reflexivity.
  - reflexivity.
Defined.

(** The row is found through its prompt, written in capitals. *)
Lemma search_demo :
  let w := Demo.boot 0 in
  let mm := fst (store empty "A Red DRAGON" "a red dragon" "i.png" "m.obj"
                       (Some ["dragon"]) w) in
  map (fun r => prompt (fields r)) (fst (search mm "dragon" w)) = ["A Red DRAGON"]
  /\ fst (search mm "robot" w) = []
  /\ json_dumps ["caf" +++ chr 233; "a" +++ quote +++ "b"]
     = "[" +++ quote +++ "caf" +++ backslash +++ "u00e9" +++ quote +++ ", "
       +++ quote +++ "a" +++ backslash +++ quote +++ "b" +++ quote +++ "]".
Proof. cbv zeta. repeat split; vm_compute; reflexivity. Qed.

End SearchFacts.

(** ** [extract_memory_references] *)

Module ReferenceFacts.
Import Str StrFacts Num Sqlite.

Lemma max_by_timestamp_spec (l : list row) (best : row) :
  In (Main.max_by_timestamp best l) (best :: l)
  /\ forall x, In x (best :: l) ->
       String.leb (ts x) (ts (Main.max_by_timestamp best l)) = true.
Proof.
  revert best. induction l as [|r l IH]; intros best; simpl.
  - split; [now left|]. intros x [<- | []]. apply OrderFacts.leb_refl.
  - fold (ts best) (ts r). destruct (String.ltb (ts best) (ts r)) eqn:E.
    + destruct (IH r) as [Hin Hmax]. split.
      * right. exact Hin.
      * intros x [<- | Hx].
        -- apply (OrderFacts.leb_trans _ (ts r)); [now apply OrderFacts.ltb_leb|].
           apply Hmax. now left.
        -- apply Hmax. exact Hx.
    + destruct (IH best) as [Hin Hmax]. split.
      * destruct Hin as [<- | Hin]; [now left | right; now right].
      * intros x [<- | [<- | Hx]].
        -- apply Hmax. now left.
        -- apply (OrderFacts.leb_trans _ (ts best)); [now apply OrderFacts.ltb_false_leb|].
           apply Hmax. now left.
        -- apply Hmax. now right.
Qed.

Section WithHost.
Context {W : Type} `{Host W} {U : Unicode}.

Lemma search_in_table (mm : MemoryManager) (query : string) (w : W) (m : row) :
  In m (fst (search mm query w)) -> In m (select_like mm ("%" +++ query +++ "%")).
Proof.
  rewrite SearchFacts.search_cases. now destruct (_ && _)%bool.
Qed.

Lemma search_all_in (mm : MemoryManager) (words : list string) (w : W) (m : row) :
  In m (fst (Main.search_all mm words w)) ->
  exists word, In word words /\ In m (select_like mm ("%" +++ word +++ "%")).
Proof.
  revert w. induction words as [|word words IH]; intros w; [intros []|].
  cbn [Main.search_all].
  pose proof (search_in_table mm word w m) as Hs.
  destruct (search mm word w) as [results w1]. cbn [fst] in Hs.
  specialize (IH w1). destruct (Main.search_all mm words w1) as [more w2].
  cbn [fst] in *. intros Hin. apply in_app_or in Hin as [Hin | Hin].
  - exists word. split; [now left | now apply Hs].
  - destruct (IH Hin) as (word' & Hw & Hm). exists word'. split; [now right | exact Hm].
Qed.

Lemma search_all_empty (mm : MemoryManager) (words : list string) (w : W) :
  table mm = [] -> fst (Main.search_all mm words w) = [].
Proof.
  intros Ht. destruct (fst (Main.search_all mm words w)) as [|m l] eqn:E; [reflexivity|].
  destruct (search_all_in mm words w m) as (word & _ & Hin); [rewrite E; now left|].
  unfold select_like in Hin. rewrite Ht in Hin. destruct Hin.
Qed.

(** X5: [extract_memory_references] of main.py.  Without a reference phrase
    in the prompt (up to case), or with an empty table, the prompt comes
    back as it is and nothing is referenced.  In every case either
    nothing is referenced and the prompt comes back as it is, or the
    referenced row is one of the rows found by searching for the words of
    the prompt that are longer than three characters and outside the stop
    list, no row found is newer, and the prompt that comes back is the
    lower-case form of the prompt before a reference phrase, stripped.
    Every row found is a row of the table that matches the pattern of one of
    those words.  The phrase [like I created], with its capital letter,
    never occurs in the lower-case form of a prompt. *)
Theorem extract_memory_references_spec (mm : MemoryManager) (prompt : string) (w : W) :
  let words :=
    List.filter (fun word => (3 <? len word) && negb (mem (lower word) Main.stop_words))%bool
                (split prompt) in
  let found := fst (Main.search_all mm words w) in
  let result := fst (Main.extract_memory_references mm prompt w) in
  ((forall k, In k Main.reference_keywords -> ~ occurs_ci k prompt) ->
     result = (prompt, None))
  /\ (table mm = [] -> result = (prompt, None))
  /\ match snd result with
     | None => fst result = prompt
     | Some m =>
         In m found
         /\ (forall m', In m' found -> String.leb (ts m') (ts m) = true)
         /\ (exists k, In k Main.reference_keywords /\ occurs_ci k prompt
               /\ fst result = strip (before_first k (lower prompt)))
     end
  /\ (forall m, In m found ->
        In m (table mm)
        /\ exists word, In word words /\ In m (select_like mm ("%" +++ word +++ "%")))
  /\ contains "like I created" (lower prompt) = false.
Proof.
  cbv zeta. unfold Main.extract_memory_references, Main.potential_tags.
  set (words := List.filter _ (split prompt)).
  split; [|split; [|split; [|split]]].
  - intros Hno. fold (any_in Main.reference_keywords (lower prompt)).
    now rewrite (any_in_false Main.reference_keywords prompt eq_refl Hno).
  - intros Ht. destruct (existsb _ Main.reference_keywords); [|reflexivity].
    pose proof (search_all_empty mm words w Ht) as E.
    destruct (Main.search_all mm words w) as [found w1]. cbn [fst] in E. now subst found.
  - destruct (existsb _ Main.reference_keywords); [|reflexivity].
    destruct (Main.search_all mm words w) as [[|m ms] w1]; [reflexivity|].
    destruct (find _ Main.reference_keywords) as [k|] eqn:Ek; [|reflexivity].
    cbn [fst snd].
    destruct (max_by_timestamp_spec ms m) as [Hin Hmax].
    split; [exact Hin|]. split; [exact Hmax|].
    apply find_some in Ek as [Hk Hc]. exists k. split; [exact Hk|].
    split; [|reflexivity]. apply occurs_ci_contains; [|exact Hc].
    assert (Ha : forallb ascii_only Main.reference_keywords = true) by reflexivity.
    rewrite forallb_forall in Ha. now apply Ha.
  - intros m Hin. destruct (search_all_in mm words w m Hin) as (word & Hw & Hm).
    split; [|now exists word].
    unfold select_like in Hm. now apply filter_In in Hm.
  - destruct (contains "like I created" (lower prompt)) eqn:E; [|reflexivity].
    rewrite <- (lower_no_upper_i prompt). symmetry.
    now apply (contains_part "like I created" "I").
Qed.

End WithHost.

Import Demo.

(** A reference written with the Kelvin sign for its [k] is found: the row
    of the dragon is referenced and the prompt is cut before the phrase. *)
Lemma reference_demo :
  let mm := fst (store empty "A Red DRAGON" "a red dragon" "i.png" "m.obj"
                       (Some ["dragon"]) (Demo.boot 0)) in
  let result := fst (Main.extract_memory_references mm
                       ("A Castle li" +++ kelvin_sign +++ "e the one with the dragon")
                       (Demo.boot 5)) in
  fst result = "a castle"
  /\ option_map (fun m => prompt (fields m)) (snd result) = Some "A Red DRAGON".
Proof. cbv zeta. split; vm_compute; reflexivity. Qed.

End ReferenceFacts.

(** ** Prompt expansion *)

Module ExpansionFacts.
Import Str StrFacts Num Expansion.

#[local] Ltac generate_head :=
  cbv zeta; unfold Main.generate, Main.combined_keywords, Main.enhancements;
  cbn [find fst snd];
  change (lower "dragon forest") with "dragon forest";
  change (lower "dragon in forest") with "dragon in forest";
  change (lower "magical forest") with "magical forest";
  change (lower "dragon") with "dragon"; change (lower "robot") with "robot";
  change (lower "city") with "city"; change (lower "forest") with "forest";
  change (mem "dragon" _) with false; change (mem "robot" _) with false;
  change (mem "city" _) with false; change (mem "forest" _) with false;
  cbn [negb andb].

Section WithUnicode.
Context {U : Unicode}.

(** X6: [LocalLLM.generate] of main.py is a decision list on the case-folded
    prompt: the three combined phrases are tried first, in the order of
    [combined_keywords], then the single keywords in the order of the
    dictionary; the first that occurs selects its canned description, which
    replaces the prompt altogether; only when none occurs is the prompt
    kept, with the generic suffix appended. *)
Theorem generate_decision (prompt : string) :
  let has k := contains k (lower prompt) in
  Main.generate prompt =
    if has "dragon forest" then Main.enhancement_of "dragon forest"
    else if has "dragon in forest" then Main.enhancement_of "dragon in forest"
    else if has "magical forest" then Main.enhancement_of "magical forest"
    else if has "dragon" then Main.enhancement_of "dragon"
    else if has "robot" then Main.enhancement_of "robot"
    else if has "city" then Main.enhancement_of "city"
    else if has "forest" then Main.enhancement_of "forest"
    else prompt +++ generic_suffix.
Proof.
  generate_head.
  destruct (contains "dragon forest" (lower prompt)); [reflexivity|].
  destruct (contains "dragon in forest" (lower prompt)); [reflexivity|].
  destruct (contains "magical forest" (lower prompt)); [reflexivity|].
  destruct (contains "dragon" (lower prompt)); [reflexivity|].
  destruct (contains "robot" (lower prompt)); [reflexivity|].
  destruct (contains "city" (lower prompt)); [reflexivity|].
  destruct (contains "forest" (lower prompt)); [reflexivity|].
  cbn [andb find]. rewrite String.eqb_refl. reflexivity.
Qed.

(** X7: what main.py draws for a prompt that names a dragon, a robot, a city
    or a forest.  The renderer is handed the canned description, so the
    palette and the forced fire breath follow from the keyword that was
    matched and from nothing else in the prompt: a golden dragon for
    [dragon], [forest] and [magical forest], a blue one for [robot], the
    default red for [city], and a green one with the fire breath forced (the
    description mentions fireflies) for [dragon forest] and
    [dragon in forest]. *)
Theorem expansion_decides_the_picture (prompt : string) :
  (exists k, In k ["dragon"; "robot"; "city"; "forest"] /\ occurs_ci k prompt) ->
  In (Main.generate prompt,
      Classify.dragon_color (Main.generate prompt),
      contains "fire" (lower (Main.generate prompt)))
     [(Main.enhancement_of "dragon", Classify.golden, false);
      (Main.enhancement_of "robot", Classify.blue, false);
      (Main.enhancement_of "city", Classify.red, false);
      (Main.enhancement_of "forest", Classify.golden, false);
      (Main.enhancement_of "dragon forest", Classify.green, true)].
Proof.
  intros (k & Hk & Ho).
  assert (Hocc : contains k (lower prompt) = true).
  { apply occurs_ci_contains; [|exact Ho]. simpl in Hk. intuition (subst; reflexivity). }
  clear Ho. generate_head.
  destruct (contains "dragon forest" (lower prompt));
    [right; right; right; right; left; reflexivity|].
  destruct (contains "dragon in forest" (lower prompt));
    [right; right; right; right; left; reflexivity|].
  destruct (contains "magical forest" (lower prompt));
    [right; right; right; left; reflexivity|].
  destruct (contains "dragon" (lower prompt)) eqn:Ed; [left; reflexivity|].
  destruct (contains "robot" (lower prompt)) eqn:Er; [right; left; reflexivity|].
  destruct (contains "city" (lower prompt)) eqn:Ec; [right; right; left; reflexivity|].
  destruct (contains "forest" (lower prompt)) eqn:Ef;
    [right; right; right; left; reflexivity|].
  exfalso. simpl in Hk. intuition (subst; congruence).
Qed.

End WithUnicode.

Import Demo.

Lemma expansion_decides_the_picture_witness :
  In (Main.generate "a RED dragon breathing fire",
      Classify.dragon_color (Main.generate "a RED dragon breathing fire"),
      contains "fire" (lower (Main.generate "a RED dragon breathing fire")))
     [(Main.enhancement_of "dragon", Classify.golden, false);
      (Main.enhancement_of "robot", Classify.blue, false);
      (Main.enhancement_of "city", Classify.red, false);
      (Main.enhancement_of "forest", Classify.golden, false);
      (Main.enhancement_of "dragon forest", Classify.green, true)].
Proof.
  refine (expansion_decides_the_picture "a RED dragon breathing fire" _).
  exists "dragon". split; [now left|]. now apply occurs_ci_contains.
Defined.

End ExpansionFacts.

(** ** The canvas of main.py *)

Module MainCanvasFacts.
Import Str StrFacts Num OutFacts Render LayerFacts.

#[local] Ltac count_step :=
  lazymatch goal with
  | |- emits (ret _) _ => apply emits_ret
  | |- emits (emit _) _ => apply emits_emit
  | |- emits (ask _) _ => apply emits_ask
  | |- emits (bind _ _) ?n =>
      tryif is_evar n then (eapply emits_bind; [ | intros ])
      else (apply emits_bind0; [ | intros ])
  | |- emits (for_each _ _) _ => apply emits_for_each; intros
  | |- emits (collect _ _) _ => apply emits_collect; intros
  | |- emits (let '(_, _) := ?x in _) _ => destruct x
  | |- emits (if ?b then _ else _) _ => destruct b
  end.

#[local] Ltac count := unfold rand_int, rand, uniform; cbv zeta; repeat count_step.

Section WithHost.
Context {W : Type} `{Host W} {U : Unicode}.

Lemma main_sky_count : emits (RenderMain.draw_sky (W := W)) 600.
Proof. unfold RenderMain.draw_sky. eapply emits_eq; [count | reflexivity]. Qed.

Lemma main_foliage_count (prompt : string) :
  emits (if contains "magical" (lower prompt)
         then let* f0 := rand_int (-10) 30 in
              let* f1 := rand_int (-20) 50 in
              let* f2 := rand_int (-10) 30 in
              ret (30 + f0, 100 + f1, 30 + f2)
         else let* f0 := rand_int (-20) 20 in
              let* f1 := rand_int (-20) 20 in
              let* f2 := rand_int (-20) 20 in
              ret (30 + f0, 80 + f1, 30 + f2)) 0.
Proof.
  destruct (contains "magical" (lower prompt));
    (eapply emits_eq; [count | reflexivity]).
Qed.

Lemma main_tree_count (prompt : string) (i : Z) : emits (RenderMain.draw_tree prompt i) 4.
Proof.
  unfold RenderMain.draw_tree.
  eapply emits_eq.
  - unfold rand_int.
    eapply emits_bind; [apply emits_ask | intros x].
    eapply emits_bind; [apply emits_ask | intros height].
    eapply emits_bind; [apply emits_ask | intros r].
    eapply emits_bind; [apply emits_ask | intros t0].
    eapply emits_bind; [apply emits_ask | intros t1].
    eapply emits_bind; [apply emits_ask | intros t2].
    eapply emits_bind; [apply emits_emit | intros _].
    eapply emits_bind; [apply main_foliage_count | intros [[f0 f1] f2]].
    apply emits_for_each. intros j. count.
  - reflexivity.
Qed.

Lemma main_forest_count (prompt : string) : emits (RenderMain.draw_forest prompt) 120.
Proof.
  unfold RenderMain.draw_forest.
  eapply emits_eq; [apply emits_for_each, main_tree_count | reflexivity].
Qed.

(** X8: what [create_dragon_forest_image] of main.py draws, for every
    prompt, before it raises: the 600 sky lines, the 5 mountains, the 120
    calls of the 30 trees, the magical overlay (nothing unless "magic"
    occurs in the prompt), then the head and the body of the dragon in the
    colour of the older palette.  The next call, the left wing, is given a
    colour of floats, which Pillow refuses: the function is left there, so
    the rest of the dragon, the fire breath and the caption are never drawn,
    and [generate_text_to_image] returns [None]. *)
Theorem main_canvas (prompt : string) (w : W) :
  exists sky mountains forest magic : list draw_call,
    calls (RenderMain.create_dragon_forest_image prompt) w =
      tag Sky sky ++ tag Mountains mountains ++ tag Forest forest ++ tag Magic magic
      ++ tag Dragon
           [ellipse (dragon_x - head_size, dragon_y - head_size,
                     dragon_x + head_size, dragon_y + head_size)%Q
                    (Some (rgb (Classify.dragon_color prompt))) None;
            polygon RenderMain.body_points (rgb (Classify.dragon_color prompt))]
    /\ length sky = 600%nat /\ length mountains = 5%nat /\ length forest = 120%nat
    /\ (~ occurs_ci "magic" prompt -> magic = [])
    /\ val (RenderMain.create_dragon_forest_image prompt) w = None
    /\ fst (Main.generate_text_to_image prompt w) = None.
Proof.
  destruct (FlameFacts.create_dragon_forest_image_raises prompt w)
    as (w1 & w2 & w3 & E & Ev & _).
  exists (calls RenderMain.draw_sky w), (calls draw_mountains w1),
    (calls (RenderMain.draw_forest prompt) w2), (calls (draw_magic prompt) w3).
  split; [exact E|].
  split; [apply main_sky_count|].
  split; [apply RenderFacts.mountains_count|].
  split; [apply main_forest_count|].
  split.
  - intros Hm. unfold draw_magic.
    assert (E1 : contains "magic" (lower prompt) = false) by now apply contains_false.
    assert (E2 : contains "magical" (lower prompt) = false).
    { destruct (contains "magical" (lower prompt)) eqn:Em; [|reflexivity].
      rewrite (contains_part "magical" "magic" _ eq_refl Em) in E1. discriminate E1. }
    now rewrite E1, E2.
  - split; [exact Ev | apply FlameFacts.image_never_generated].
Qed.

End WithHost.
End MainCanvasFacts.

(** ** The canvas of test_app.py, for every scene type *)

Module CanvasFacts.
Import Str StrFacts Num OutFacts Render LayerFacts.

#[local] Ltac count_step :=
  lazymatch goal with
  | |- emits (ret _) _ => apply emits_ret
  | |- emits (emit _) _ => apply emits_emit
  | |- emits (ask _) _ => apply emits_ask
  | |- emits (bind _ _) ?n =>
      tryif is_evar n then (eapply emits_bind; [ | intros ])
      else (apply emits_bind0; [ | intros ])
  | |- emits (for_each _ _) _ => apply emits_for_each; intros
  | |- emits (collect _ _) _ => apply emits_collect; intros
  | |- emits (let '(_, _) := ?x in _) _ => destruct x
  | |- emits (if ?b then _ else _) _ => destruct b
  end.

#[local] Ltac count := unfold rand_int, rand, uniform; cbv zeta; repeat count_step.

Lemma ring_sizes (planet_size : Z) :
  length (range3 (planet_size + 10) (planet_size + 40) 5) = 6%nat.
Proof.
  unfold range3. rewrite length_map, length_seq. cbn [Z.ltb Z.compare].
  replace (planet_size + 40 - (planet_size + 10) + 5 - 1) with 34 by lia.
  reflexivity.
Qed.

Lemma dragon_excluded {U : Unicode} (prompt : string) :
  Classify.image_type prompt <> dragon -> contains "dragon" (lower prompt) = false.
Proof.
  unfold Classify.image_type, any_in. cbn [existsb Classify.dragon_keywords].
  destruct (contains "dragon" (lower prompt)); [|reflexivity].
  cbn [orb]. congruence.
Qed.

Section WithHost.
Context {W : Type} `{Host W} {U : Unicode}.

Lemma robot_count (c : colour) : emits (W := W) (draw_robot c) 13.
Proof.
  destruct c as [[c0 c1] c2]. unfold draw_robot.
  eapply emits_eq; [count | reflexivity].
Qed.

Lemma space_count (pl : string) (c : colour) :
  emits (W := W) (draw_space pl c)
        (if (contains "ring" pl || contains "saturn" pl)%bool then 507 else 501).
Proof.
  destruct c as [[c0 c1] c2]. unfold draw_space.
  destruct (contains "ring" pl || contains "saturn" pl)%bool.
  - eapply emits_eq.
    + eapply emits_bind; [count | intros _].
      unfold rand_int.
      eapply emits_bind; [apply emits_ask | intros planet_x].
      eapply emits_bind; [apply emits_ask | intros planet_y].
      eapply emits_bind; [apply emits_ask | intros planet_size].
      eapply emits_bind; [apply emits_emit | intros _].
      eapply emits_eq; [apply emits_for_each; intros; apply emits_emit|].
      rewrite ring_sizes. reflexivity.
    + reflexivity.
  - eapply emits_eq; [count | reflexivity].
Qed.

(** X9: the canvas [create_ai_image] of test_app.py draws, for every
    prompt and every scene type: the 600 sky lines, the 5 mountains, the 240
    calls of the 40 trees, the magical overlay (nothing unless "magic"
    occurs in the prompt), the 39 calls of the dragon figure in the palette
    colour, the fire breath (nothing or 4 polygons), then the elements of
    the scene type and the caption.  The scene elements are the 13 calls of
    the robot for a robot scene, the 500 stars and the planet, with 6 ring
    arcs when "ring" or "saturn" occurs, for a space scene, the skyline for
    a city scene, and nothing for a dragon scene or a landscape. *)
Theorem canvas_for_every_prompt (prompt : string) (w : W) :
  exists sky mountains forest magic fire : list draw_call, exists scene : list op,
    calls (create_ai_image prompt) w =
      tag Sky sky ++ tag Mountains mountains ++ tag Forest forest ++ tag Magic magic
      ++ tag Dragon (calls (draw_dragon_body (Classify.main_color prompt)) w)
      ++ tag Fire fire
      ++ scene
      ++ tag Caption
           [rectangle (0, 550, 800, 600)%Q (rgb (0, 0, 0)) None 1;
            text (20, 560)%Q ("Prompt: " +++ prompt) (rgb (255, 255, 255))
                 (pick_font (W := W))]
    /\ length sky = 600%nat /\ length mountains = 5%nat /\ length forest = 240%nat
    /\ (~ occurs_ci "magic" prompt -> magic = [])
    /\ length (calls (draw_dragon_body (Classify.main_color prompt)) w) = 39%nat
    /\ (fire = [] \/ length fire = 4%nat)
    /\ match Classify.image_type prompt with
       | robot => exists l, scene = tag RobotFigure l /\ length l = 13%nat
       | space =>
           exists l, scene = tag SpaceScene l
             /\ length l = (if (contains "ring" (lower prompt)
                                || contains "saturn" (lower prompt))%bool
                            then 507 else 501)%nat
       | city => exists l, scene = tag CityScene l
       | dragon | landscape => scene = []
       end.
Proof.
  destruct (create_ai_image_layers prompt w) as (w1 & w2 & w3 & w4 & w5 & E).
  destruct (RenderFacts.dragon_figure_fixed (Classify.main_color prompt) w4 w) as (Ed & _ & _).
  destruct (RenderFacts.dragon_figure_fixed (Classify.main_color prompt) w w) as (_ & _ & Hd).
  rewrite Ed, caption_calls in E.
  exists (calls (draw_sky (Classify.image_type prompt)) w), (calls draw_mountains w1),
    (calls (draw_forest prompt) w2), (calls (draw_magic prompt) w3),
    (calls (draw_fire prompt) w4),
    (calls (draw_additional (Classify.image_type prompt) (lower prompt)
                            (Classify.main_color prompt)) w5).
  split; [exact E|].
  split; [apply RenderFacts.sky_count|].
  split; [apply RenderFacts.mountains_count|].
  split; [apply RenderFacts.forest_count|].
  split.
  { intros Hm. unfold draw_magic.
    assert (E1 : contains "magic" (lower prompt) = false) by now apply contains_false.
    assert (E2 : contains "magical" (lower prompt) = false).
    { destruct (contains "magical" (lower prompt)) eqn:Em; [|reflexivity].
      rewrite (contains_part "magical" "magic" _ eq_refl Em) in E1. discriminate E1. }
    now rewrite E1, E2. }
  split; [exact Hd|]. split; [apply fire_count|].
  clear E. unfold draw_additional.
  destruct (Classify.image_type prompt) eqn:Ety; cbn [is_scene andb];
    try reflexivity;
    rewrite (dragon_excluded prompt) by (rewrite Ety; discriminate); cbn [negb];
    rewrite calls_block; eexists.
  - split; [reflexivity | apply robot_count].
  - reflexivity.
  - split; [reflexivity | apply space_count].
Qed.

End WithHost.
End CanvasFacts.

(** ** The sky gradient *)

Module SkyFacts.
Import Str Num OutFacts Render Sky.

Lemma in_range (n y : Z) : 0 <= y < n -> In y (range n).
Proof.
  intros Hy. unfold range, range3. cbn [Z.ltb Z.compare].
  apply in_map_iff. exists (Z.to_nat y). split; [lia|].
  apply in_seq. rewrite Z.div_1_r. lia.
Qed.

Lemma calls_for_each_emit {W O A} (f : A -> O) (xs : list A) (w : W) :
  calls (for_each xs (fun x => emit (f x))) w = map f xs.
Proof.
  revert w. induction xs as [|x xs IH]; intros w; simpl; [reflexivity|].
  rewrite calls_bind, IH. reflexivity.
Qed.

Lemma dimmer_trans (a b c : colour) :
  dimmer a b = true -> dimmer b c = true -> dimmer a c = true.
Proof.
  destruct a as [[a0 a1] a2], b as [[b0 b1] b2], c as [[c0 c1] c2]. unfold dimmer.
  rewrite !andb_true_iff, !Z.leb_le. lia.
Qed.

Lemma dimmer_refl (a : colour) : dimmer a a = true.
Proof.
  destruct a as [[a0 a1] a2]. unfold dimmer. rewrite !andb_true_iff, !Z.leb_le. lia.
Qed.

Lemma next_row_dimmer (ty : SceneType) :
  forallb (fun y => dimmer (row_colour ty (y + 1)) (row_colour ty y)) (range 599) = true.
Proof. destruct ty; vm_compute; reflexivity. Qed.

Lemma rows_in_gamut (ty : SceneType) :
  forallb (fun y => in_gamut (row_colour ty y)) (range 600) = true.
Proof. destruct ty; vm_compute; reflexivity. Qed.

Section WithHost.
Context {W : Type} `{Host W} {U : Unicode}.

(** X10: the sky of both renderers.  Row [y] is one line across the canvas
    in the colour [row_colour]; going down the canvas no channel of that
    colour ever increases, so the sky is brightest at the top row and
    darkest at the bottom row, and every channel stays within 0..255.  The
    sky of main.py is the sky test_app.py draws for a landscape. *)
Theorem sky_gradient (ty : SceneType) (w : W) :
  calls (draw_sky ty) w
  = map (fun y => line [(0%Q, float y); (float 800, float y)]
                       (rgb (row_colour ty y)) 1) (range 600)
  /\ (forall y y', 0 <= y <= y' -> y' < 600 ->
        dimmer (row_colour ty y') (row_colour ty y) = true)
  /\ (forall y, 0 <= y < 600 -> in_gamut (row_colour ty y) = true)
  /\ calls RenderMain.draw_sky w = calls (draw_sky landscape) w.
Proof.
  split; [|split; [|split]].
  - unfold draw_sky. cbv zeta.
    exact (calls_for_each_emit
             (fun y => line [(0%Q, float y); (float 800, float y)]
                            (rgb (row_colour ty y)) 1) (range 600) w).
  - intros y y' [Hy Hyy'] Hy'.
    replace y' with (y + Z.of_nat (Z.to_nat (y' - y))) in * by lia.
    induction (Z.to_nat (y' - y)) as [|n IH].
    + rewrite Z.add_0_r. apply dimmer_refl.
    + apply (dimmer_trans _ (row_colour ty (y + Z.of_nat n))); [|apply IH; lia].
      replace (y + Z.of_nat (S n)) with (y + Z.of_nat n + 1) by lia.
      pose proof (next_row_dimmer ty) as Hn.
      rewrite forallb_forall in Hn. apply Hn. apply in_range. lia.
  - intros y Hy. pose proof (rows_in_gamut ty) as Hg.
    rewrite forallb_forall in Hg. apply Hg. now apply in_range.
  - unfold RenderMain.draw_sky, draw_sky. cbv zeta.
    rewrite (calls_for_each_emit
               (fun y : Z => line [(0%Q, float y); (float img_width, float y)]
                  (rgb (int (20 + 40 * (1 - (float y / float img_height * 0.7)))%Q,
                        int (40 + 60 * (1 - (float y / float img_height * 0.7)))%Q,
                        int (60 + 90 * (1 - (float y / float img_height * 0.7)))%Q)) 1)).
    rewrite (calls_for_each_emit
               (fun y : Z => line [(0%Q, float y); (float img_width, float y)]
                  (rgb (sky_rgb landscape (1 - (float y / float img_height * 0.7))%Q)) 1)).
    reflexivity.
Qed.

End WithHost.

Import Demo.

Lemma sky_gradient_witness :
  dimmer (row_colour city 599) (row_colour city 0) = true.
Proof.
  refine (proj1 (proj2 (sky_gradient city (Demo.boot 0))) 0 599 _ _); lia.
Defined.

End SkyFacts.

(** ** The gallery label and the scene type *)

Module LabelFacts.
Import Str StrFacts.

Lemma any_in_member (k : string) (kws : list string) (s : string) :
  In k kws -> contains k s = true -> any_in kws s = true.
Proof. intros Hk Hc. unfold any_in. apply existsb_exists. now exists k. Qed.

Section WithUnicode.
Context {U : Unicode}.

(** X11: the label [generate] of test_app.py puts on the gallery page
    against the scene type [create_ai_image] draws.  The label looks for the
    four words dragon, robot, city, space only, the scene type for their
    synonyms as well.  A page labelled "Dragon" shows a dragon scene and a
    landscape is always labelled "Image"; the label is "Image" exactly when
    none of the four words occurs, whatever the scene type, and a page
    labelled "Robot" shows a robot scene unless a dragon synonym occurs. *)
Theorem label_against_scene_type (prompt : string) :
  let label := TestApp.image_type_label (lower prompt) in
  let ty := Classify.image_type prompt in
  (label = "Dragon" -> ty = dragon)
  /\ (ty = landscape -> label = "Image")
  /\ (label = "Image"
      <-> forall k, In k ["dragon"; "robot"; "city"; "space"] -> ~ occurs_ci k prompt)
  /\ (label = "Robot" -> ty = robot \/ ty = dragon)
  /\ (forall s b, prompt = s +++ "wyvern" +++ b ->
        ~ occurs_ci "dragon" prompt -> ty = dragon /\ label <> "Dragon").
Proof.
  cbv zeta. unfold TestApp.image_type_label, Classify.image_type.
  split; [|split; [|split; [|split]]].
  - destruct (contains "dragon" (lower prompt)) eqn:Ed.
    + intros _. rewrite (any_in_member "dragon"); [reflexivity | now left | exact Ed].
    + destruct (contains "robot" (lower prompt)); [discriminate|].
      destruct (contains "city" (lower prompt)); [discriminate|].
      destruct (contains "space" (lower prompt)); discriminate.
  - destruct (any_in Classify.dragon_keywords (lower prompt)) eqn:E1; [discriminate|].
    destruct (any_in Classify.robot_keywords (lower prompt)) eqn:E2; [discriminate|].
    destruct (any_in Classify.city_keywords (lower prompt)) eqn:E3; [discriminate|].
    destruct (any_in Classify.space_keywords (lower prompt)) eqn:E4; [discriminate|].
    intros _.
    destruct (contains "dragon" (lower prompt)) eqn:Ed;
      [rewrite (any_in_member "dragon" Classify.dragon_keywords _ (or_introl eq_refl) Ed) in E1; discriminate|].
    destruct (contains "robot" (lower prompt)) eqn:Er;
      [rewrite (any_in_member "robot" Classify.robot_keywords _ (or_introl eq_refl) Er) in E2; discriminate|].
    destruct (contains "city" (lower prompt)) eqn:Ec;
      [rewrite (any_in_member "city" Classify.city_keywords _ (or_introl eq_refl) Ec) in E3; discriminate|].
    destruct (contains "space" (lower prompt)) eqn:Es;
      [rewrite (any_in_member "space" Classify.space_keywords _ (or_introl eq_refl) Es) in E4; discriminate|].
    reflexivity.
  - split.
    + intros Hl k Hk Hocc.
      simpl in Hk. destruct Hk as [<- | [<- | [<- | [<- | []]]]];
        (apply occurs_ci_contains in Hocc; [|reflexivity]);
        rewrite ?Hocc in Hl;
        repeat match type of Hl with
               | (if ?b then _ else _) = _ => destruct b
               end; discriminate.
    + intros Hno.
      rewrite (contains_false "dragon" _ eq_refl), (contains_false "robot" _ eq_refl),
        (contains_false "city" _ eq_refl), (contains_false "space" _ eq_refl);
        [reflexivity | | | |]; apply Hno; simpl; tauto.
  - destruct (contains "dragon" (lower prompt)) eqn:Ed; [discriminate|].
    destruct (contains "robot" (lower prompt)) eqn:Er.
    + intros _. rewrite (any_in_member "robot" Classify.robot_keywords _ (or_introl eq_refl) Er).
      destruct (any_in Classify.dragon_keywords (lower prompt)); [now right | now left].
    + destruct (contains "city" (lower prompt)); [discriminate|].
      destruct (contains "space" (lower prompt)); discriminate.
  - intros s b -> Hno.
    rewrite (contains_false "dragon" _ eq_refl Hno). split.
    + rewrite (any_in_member "wyvern"); [reflexivity | simpl; tauto |].
      apply contains_true; [reflexivity|]. exact (occurs_variant s "wyvern" b eq_refl).
    + repeat match goal with
             | |- (if ?b then _ else _) <> _ => destruct b
             end; discriminate.
Qed.

End WithUnicode.

End LabelFacts.

(** ** The shape of the stored tags *)

Module TagShape.
Import Str StrFacts Token.

(** The words [str.split()] yields are the runs of characters between white
    space: each is a run of characters of the text, not empty, none of them
    white space; when the text opens with such a character, the first word
    is the run the text opens with. *)
Lemma split_chars_runs (l : list string) :
  (forall w, In w (split_chars l) ->
     exists a seg b,
       l = a ++ seg ++ b /\ w = join EmptyString seg /\ seg <> []
       /\ List.Forall (fun ch => is_space ch = false) seg)
  /\ (SpecTags.starts_token l = true ->
      exists w ws seg b,
        split_chars l = w :: ws /\ l = seg ++ b /\ w = join EmptyString seg
        /\ seg <> [] /\ List.Forall (fun ch => is_space ch = false) seg).
Proof.
  induction l as [|c t [IH1 IH2]]; [split; [intros w [] | discriminate]|].
  assert (Hone : is_space c = false ->
                 exists a seg b, c :: t = a ++ seg ++ b /\ c = join EmptyString seg
                                 /\ seg <> [] /\ List.Forall (fun ch => is_space ch = false) seg).
  { intros Ec. exists [], [c], t. repeat split; [discriminate | now repeat constructor]. }
  assert (Hrest : forall w, In w (split_chars t) ->
                  exists a seg b, c :: t = a ++ seg ++ b /\ w = join EmptyString seg
                                  /\ seg <> [] /\ List.Forall (fun ch => is_space ch = false) seg).
  { intros w Hw. destruct (IH1 w Hw) as (a & seg & b & -> & Hseg).
    now exists (c :: a), seg, b. }
  cbn [split_chars SpecTags.starts_token]. destruct (is_space c) eqn:Ec; cbn [negb].
  - split; [exact Hrest | discriminate].
  - fold (SpecTags.starts_token t). destruct (SpecTags.starts_token t) eqn:Et.
    + destruct (IH2 eq_refl) as (w' & ws & seg & b & Es & -> & -> & Hne & Hseg).
      rewrite Es in *.
      assert (Hhead : c :: seg ++ b = (c :: seg) ++ b
                      /\ c +++ join EmptyString seg = join EmptyString (c :: seg)
                      /\ c :: seg <> []
                      /\ List.Forall (fun ch => is_space ch = false) (c :: seg)).
      { repeat split; [now rewrite join_cons | discriminate | now constructor]. }
      split.
      * intros w [<- | Hw]; [now exists [], (c :: seg), b | apply Hrest; now right].
      * intros _. now exists (c +++ join EmptyString seg), ws, (c :: seg), b.
    + split.
      * intros w [<- | Hw]; [now apply Hone | now apply Hrest].
      * intros _. exists c, (split_chars t), [c], t.
        repeat split; [discriminate | now repeat constructor].
Qed.

Lemma len_ascii_only (s : string) :
  ascii_only s = true -> len s = Z.of_nat (String.length s).
Proof.
  unfold len. induction s as [|c s IH]; intros Hs; [reflexivity|].
  cbn [ascii_only] in Hs. apply andb_true_iff in Hs as [Hc Hs].
  rewrite (chars_cons_ascii c s Hc). cbn [length String.length]. specialize (IH Hs). lia.
Qed.

Lemma lower_ascii_idem (c : ascii) : lower_ascii (lower_ascii c) = lower_ascii c.
Proof. destruct c as [[] [] [] [] [] [] [] []]; vm_compute; reflexivity. Qed.

Lemma ascii_lower_idem (s : string) : ascii_lower (ascii_lower s) = ascii_lower s.
Proof.
  induction s as [|c s IH]; [reflexivity|]. cbn [ascii_lower].
  now rewrite lower_ascii_idem, IH.
Qed.

Lemma is_space_lower_ascii (c : ascii) :
  is_space (String (lower_ascii c) EmptyString) = is_space (String c EmptyString).
Proof. destruct c as [[] [] [] [] [] [] [] []]; vm_compute; reflexivity. Qed.

Lemma solid_ascii_lower (s : string) :
  ascii_only s = true -> solid (ascii_lower s) = solid s.
Proof.
  unfold solid. induction s as [|c s IH]; intros Hs; [reflexivity|].
  cbn [ascii_only] in Hs. apply andb_true_iff in Hs as [Hc Hs].
  cbn [ascii_lower].
  rewrite (chars_cons_ascii c s Hc).
  rewrite (chars_cons_ascii (lower_ascii c)) by now rewrite lower_ascii_is_ascii.
  cbn [forallb]. now rewrite is_space_lower_ascii, (IH Hs).
Qed.

Section WithUnicode.
Context {U : Unicode}.

(** X12: the tags both front ends store with a creation (line 824 of
    main.py, line 214 of test_app.py).  Each tag is the lower-case form of
    a word of the prompt; that word has more than three characters and is a
    run of characters of the prompt, none of them white space.  For a word
    in ASCII the tag is the word with its capitals folded: it has as many
    characters as the word, holds no white space when the word holds none,
    and is its own lower-case form.  The two front ends compute the same
    tags. *)
Theorem tags_shape (prompt t : string) :
  In t (Main.tags_of prompt) ->
  (exists w,
      In w (split prompt) /\ t = lower w /\ 3 < len w
      /\ (exists a seg b,
             chars prompt = a ++ seg ++ b /\ w = join EmptyString seg
             /\ List.Forall (fun ch => is_space ch = false) seg)
      /\ (ascii_only w = true ->
          t = ascii_lower w /\ len t = len w /\ solid t = solid w /\ lower t = t))
  /\ TestApp.tags_of prompt = Main.tags_of prompt.
Proof.
  unfold Main.tags_of, TestApp.tags_of. rewrite in_map_iff.
  intros (w & <- & Hw). apply filter_In in Hw as [Hw Hlen].
  split; [|reflexivity]. exists w.
  split; [exact Hw|]. split; [reflexivity|]. split; [now apply Z.ltb_lt|].
  split.
  - destruct (proj1 (split_chars_runs (chars prompt)) w Hw)
      as (a & seg & b & E & Ew & _ & Hseg).
    now exists a, seg, b.
  - intros Ha. rewrite (lower_ascii_only w Ha).
    assert (Ha' : ascii_only (ascii_lower w) = true) by now rewrite ascii_lower_ascii_only.
    split; [reflexivity|].
    split; [now rewrite !len_ascii_only, ascii_lower_length|].
    split; [now apply solid_ascii_lower|].
    now rewrite (lower_ascii_only _ Ha'), ascii_lower_idem.
Qed.

End WithUnicode.

Import Demo.

Lemma tags_shape_witness :
  (exists w,
      In w (split "A  Golden DRAGON") /\ "dragon" = lower w /\ 3 < len w
      /\ (exists a seg b,
             chars "A  Golden DRAGON" = a ++ seg ++ b /\ w = join EmptyString seg
             /\ List.Forall (fun ch => is_space ch = false) seg)
      /\ (ascii_only w = true ->
          "dragon" = ascii_lower w /\ len "dragon" = len w
          /\ solid "dragon" = solid w /\ lower "dragon" = "dragon"))
  /\ TestApp.tags_of "A  Golden DRAGON" = Main.tags_of "A  Golden DRAGON".
Proof.
  refine (tags_shape "A  Golden DRAGON" "dragon" _).
  vm_compute. right. left. reflexivity.
Defined.

(** White space outside ASCII separates words, and the length of a word is
    counted in characters: a prompt of two words around a no-break space,
    and a word of two wide characters. *)
Lemma tags_demo :
  Main.tags_of ("blue" +++ chr 160 +++ "MOON") = ["blue"; "moon"]
  /\ Main.tags_of (chr 40845 +++ chr 26862 +++ " " +++ chr 40845) = []
  /\ Main.tags_of ("CAF" +++ chr 201) = ["caf" +++ chr 233].
Proof. repeat split; vm_compute; reflexivity. Qed.

End TagShape.

(** ** What the two [POST /generate] handlers answer *)

Module EndpointFacts.
Import Str StrFacts RequestFacts OutcomeFacts.

#[local] Ltac settle :=
  repeat split; intros;
  repeat match goal with
         | H : _ \/ _ |- _ => destruct H
         | H : _ /\ _ |- _ => destruct H
         | H : exists _, _ |- _ => destruct H
         end;
  subst; try discriminate; try congruence; try tauto; auto.

Section WithHost.
Context {W : Type} `{Host W} {U : Unicode}.

(** The four ways [execute] ends. *)
Lemma execute_cases (data : json) (p : Main.process W) :
  (truthy (Main.requested_prompt data) = false
   /\ Main.execute data p
      = (inr (message_only "Please provide a prompt to generate content."), p))
  \/ (truthy (Main.requested_prompt data) = true
      /\ (forall s, Main.requested_prompt data <> JStr s)
      /\ Main.execute data p = (inl AttributeError_lower, p))
  \/ (exists s w', Main.requested_prompt data = JStr s /\ s <> EmptyString
        /\ Main.execute data p
           = (inr (message_only "Failed to generate image from prompt."),
              {| Main.host := w'; Main.memory_manager := Main.memory_manager p;
                 Main.files := Main.files p |}))
  \/ (exists s msg image model viewer dir p',
        Main.requested_prompt data = JStr s /\ s <> EmptyString
        /\ Main.execute data p = (inr (created msg image model viewer dir), p')
        /\ length (Main.files p') = (length (Main.files p) + 3)%nat).
Proof.
  destruct (truthy (Main.requested_prompt data)) eqn:Et.
  - destruct (Main.requested_prompt data) as [| | |s| |] eqn:Er;
      try (right; left; split; [reflexivity|]; split; [discriminate|];
           apply execute_not_string; [now rewrite Er | rewrite Er; discriminate]).
    assert (Hs : s <> EmptyString) by (intros ->; discriminate Et).
    right. right. left.
    destruct (execute_string s data p Er Hs) as [w' E].
    exists s, w'. split; [reflexivity|]. split; [exact Hs | exact E].
  - left. split; [reflexivity|]. now apply execute_falsy.
Qed.

(** X13: the answers of [POST /generate] of app.py.  The status is 400
    exactly for a falsy body or a body without "prompt", and 500 exactly
    for a body ["prompt" in] cannot be asked of (a number, [true]) or a
    prompt that is truthy and not a string; every other request is answered
    with 200, also when the prompt is empty or the image could not be
    produced.  With a status other than 200 nothing has changed, and files
    are written and the memory touched only when a creation is reported. *)
Theorem app_endpoint_outcomes (data : json) (p : Main.process W) :
  let r := Main.generate_endpoint data p in
  (status (fst r) = 400 <-> truthy data = false \/ prompt_in data = Some false)
  /\ (status (fst r) = 500
      <-> truthy data = true
          /\ (prompt_in data = None
              \/ (prompt_in data = Some true
                  /\ truthy (Main.requested_prompt data) = true
                  /\ forall s, Main.requested_prompt data <> JStr s)))
  /\ (status (fst r) = 200 \/ status (fst r) = 400 \/ status (fst r) = 500)
  /\ (status (fst r) <> 200 -> snd r = p)
  /\ ((forall msg image model viewer dir,
         body (fst r) <> json_reply (created msg image model viewer dir)) ->
      Main.files (snd r) = Main.files p
      /\ Main.memory_manager (snd r) = Main.memory_manager p).
Proof.
  cbv zeta. unfold Main.generate_endpoint.
  destruct (truthy data) eqn:Et; cbn [negb]; [|cbn [fst snd status body]; settle].
  destruct (prompt_in data) as [[|]|] eqn:Ep; [|cbn [fst snd status body]; settle..].
  destruct (execute_cases data p)
    as [[Hf E] | [(Ht & Hn & E) | [(s & w' & Hr & Hs & E)
                                   | (s & msg & i & m & v & d & p' & Hr & Hs & E & Hl)]]];
    rewrite E; cbn [fst snd status body Main.files Main.memory_manager]; settle.
  all: try (now destruct (Hn s)).
  all: try (match goal with Hb : forall _ _ _ _ _, _ <> _ |- _ =>
                              now destruct (Hb msg i m v d) end).
  all: idtac.
Qed.


End WithHost.
End EndpointFacts.

(** ** [get_recent] and [store] of the vector store *)

Module WindowFacts.
Import Str Num Chroma.

Lemma chroma_insert_desc_perm (m : memory) (l : list memory) :
  Permutation (m :: l) (insert_desc m l).
Proof.
  induction l as [|y l IH]; simpl; [reflexivity|].
  destruct (Qle_bool _ _); [reflexivity|].
  rewrite perm_swap. now apply perm_skip.
Qed.

Lemma sorted_desc_perm (l : list memory) : Permutation l (sorted_desc l).
Proof.
  unfold sorted_desc. induction l as [|m l IH]; simpl; [reflexivity|].
  rewrite <- chroma_insert_desc_perm. now apply perm_skip.
Qed.

(** X15: [get_recent(limit)] of chroma_memory.py answers from the first
    [limit] records of the collection, in the order they were added, and
    from nothing else: the memories returned are those records, newest
    first among themselves, and there are [limit] of them or as many as
    the collection holds.  A record added after the first [limit] is not
    returned, however recent it is. *)
Theorem chroma_get_recent_window (mm : ChromaMemoryManager) (limit : nat) :
  Permutation (get_recent mm limit)
              (map (fun it => (id it, meta it)) (firstn limit (collection mm)))
  /\ newest_first (get_recent mm limit)
  /\ length (get_recent mm limit) = Nat.min limit (length (collection mm))
  /\ (forall older it newer,
        collection mm = older ++ it :: newer -> (limit <= length older)%nat ->
        List.NoDup (map id (collection mm)) ->
        ~ In (id it) (map fst (get_recent mm limit))).
Proof.
  assert (E : get_recent mm limit
              = sorted_desc (map (fun it => (id it, meta it))
                                 (firstn limit (collection mm)))).
  { unfold get_recent, collection_get.
    destruct (firstn limit (collection mm)) as [|it l] eqn:Ef; [reflexivity|].
    apply firstn_all2.
    rewrite <- (Permutation_length (sorted_desc_perm _)), length_map, <- Ef.
    rewrite length_firstn. lia. }
  assert (P : Permutation (get_recent mm limit)
                (map (fun it => (id it, meta it)) (firstn limit (collection mm)))).
  { rewrite E. symmetry. apply sorted_desc_perm. }
  split; [exact P|].
  split; [rewrite E; apply ChromaFacts.sorted_desc_sorted|].
  split; [rewrite (Permutation_length P), length_map; apply length_firstn|].
  intros older it newer Hc Hl Hnd Hin.
  apply (Permutation_in _ (Permutation_map fst P)) in Hin.
  rewrite map_map in Hin. cbn [fst] in Hin.
  rewrite Hc in Hin, Hnd.
  rewrite firstn_app in Hin.
  replace (limit - length older)%nat with 0%nat in Hin by lia.
  cbn [firstn] in Hin. rewrite app_nil_r in Hin.
  rewrite map_app in Hnd. cbn [map] in Hnd.
  apply List.NoDup_remove_2 in Hnd. apply Hnd. apply in_or_app. left.
  apply in_map_iff in Hin as (x & Hx & Hin). apply in_map_iff. exists x.
  split; [exact Hx|]. rewrite <- (firstn_skipn limit older). apply in_or_app. now left.
Qed.

Lemma not_has_id (i : string) (c : list item) :
  has_id i c = false -> ~ In i (map id c).
Proof.
  unfold has_id. intros Hf Hin. apply in_map_iff in Hin as (it & <- & Hit).
  assert (Ht : existsb (fun it0 => String.eqb (id it0) (id it)) c = true).
  { apply existsb_exists. exists it. split; [exact Hit | apply String.eqb_refl]. }
  congruence.
Qed.

Section WithHost.
Context {W : Type} `{Host W} {U : Unicode}.

(** X16: [store] of chroma_memory.py names a record after the clock's
    second.  The collection either stays as it is or gets one record at its
    end, under that name, with the creation's metadata; ids stay unique;
    and a creation stored in a second for which a record exists is not
    added to the collection. *)
Theorem chroma_store_effect (mm : ChromaMemoryManager)
  (p e i m : string) (labels : option (list string)) (w : W) :
  List.NoDup (map id (collection mm)) ->
  let mm' := fst (store mm p e i m labels w) in
  let memory_id := str_of_int (int (fst (time_time w))) in
  List.NoDup (map id (collection mm'))
  /\ (collection mm' = collection mm
      \/ exists it, collection mm' = collection mm ++ [it]
           /\ id it = memory_id /\ prompt (meta it) = p
           /\ image_path (meta it) = i /\ model_path (meta it) = m
           /\ tags (meta it) = Sqlite.tags_or_empty labels
           /\ timestamp (meta it) = fst (time_time (snd (time_time w))))
  /\ (In memory_id (map id (collection mm)) -> collection mm' = collection mm).
Proof.
  intros Hnd. cbv zeta. unfold store.
  destruct (time_time w) as [t w1]. cbn [fst snd].
  destruct (time_time w1) as [t' w2]. cbn [fst snd].
  destruct (insert_succeeds w2) as [ok w3].
  destruct (has_id (str_of_int (int t)) (collection mm)) eqn:Eh.
  - rewrite andb_false_r. cbn [fst]. split; [exact Hnd|]. split; [now left | reflexivity].
  - destruct ok; cbn [andb negb fst collection].
    + split; [|split].
      * rewrite map_app. cbn [map id]. apply List.NoDup_app; [exact Hnd | repeat constructor; intros [] |].
        intros x Hx [<- | []]. now apply (not_has_id _ _ Eh).
      * right. eexists. split; [reflexivity|]. cbn. repeat split.
      * intros Hin. now destruct (not_has_id _ _ Eh).
    + split; [exact Hnd|]. split; [now left | reflexivity].
Qed.

End WithHost.

Import Demo.

Lemma chroma_store_effect_witness :
  List.NoDup (map id (collection (fst (store empty "a dragon" "a dragon" "i.png" "m.obj"
                                         (Some ["dragon"]) (Demo.boot 0))))).
Proof.
  refine (proj1 (chroma_store_effect empty "a dragon" "a dragon" "i.png" "m.obj"
                   (Some ["dragon"]) (Demo.boot 0) _)).
  constructor.
Defined.

End WindowFacts.

(** ** Decimal text of the clock's second *)

Module DecimalFacts.
Import Str StrFacts Num Mesh.

Lemma digit_value (d : Z) :
  0 <= d < 10 ->
  is_digit (digit d) = true /\ Z.of_nat (nat_of_ascii (digit d) - 48) = d.
Proof.
  intros Hd.
  assert (E : d = 0 \/ d = 1 \/ d = 2 \/ d = 3 \/ d = 4 \/ d = 5 \/ d = 6 \/ d = 7
              \/ d = 8 \/ d = 9) by lia.
  repeat (destruct E as [-> | E]; [now split|]). now subst.
Qed.

Lemma digits_app (fuel : nat) (n : Z) (acc : string) :
  digits fuel n acc = digits fuel n EmptyString +++ acc.
Proof.
  revert n acc. induction fuel as [|fuel IH]; intros n acc; cbn [digits]; [reflexivity|].
  destruct (n / 10 =? 0); [reflexivity|].
  rewrite IH, (IH _ (String _ EmptyString)), append_assoc. reflexivity.
Qed.

Lemma parse_digits_app (a b : string) (acc : Z) :
  parse_digits (a +++ b) acc
  = match parse_digits a acc with
    | Some v => parse_digits b v
    | None => None
    end.
Proof.
  revert acc. induction a as [|c a IH]; intros acc; cbn [String.append parse_digits];
    [reflexivity|].
  destruct (is_digit c); [apply IH | reflexivity].
Qed.

Lemma digits_value (fuel : nat) (n : Z) :
  0 <= n < 10 ^ Z.of_nat fuel ->
  parse_digits (digits fuel n EmptyString) 0 = Some n.
Proof.
  revert n. induction fuel as [|fuel IH]; intros n Hn.
  - cbn in *. f_equal. lia.
  - cbn [digits].
    assert (Hm : 0 <= n mod 10 < 10) by (apply Z.mod_pos_bound; lia).
    destruct (digit_value _ Hm) as [Hd Hv].
    destruct (Z.eqb_spec (n / 10) 0) as [Hz | Hz].
    + cbn [parse_digits]. rewrite Hd, Hv. f_equal.
      pose proof (Z.div_mod n 10). lia.
    + rewrite digits_app, parse_digits_app, IH.
      * cbn [parse_digits]. rewrite Hd, Hv. f_equal. pose proof (Z.div_mod n 10). lia.
      * split; [apply Z.div_pos; lia|].
        apply Z.div_lt_upper_bound; [lia|].
        replace (Z.of_nat (S fuel)) with (Z.succ (Z.of_nat fuel)) in Hn by lia.
        rewrite Z.pow_succ_r in Hn; lia.
Qed.

Lemma fuel_enough (n : Z) : 0 <= n -> n < 10 ^ Z.of_nat (Z.to_nat (Z.log2 n) + 1).
Proof.
  intros Hn. replace (Z.of_nat (Z.to_nat (Z.log2 n) + 1)) with (Z.succ (Z.log2 n))
    by (pose proof (Z.log2_nonneg n); lia).
  destruct (Z.eq_dec n 0) as [-> | Hz]; [reflexivity|].
  apply Z.lt_le_trans with (2 ^ Z.succ (Z.log2 n)).
  - apply Z.log2_spec. lia.
  - apply Z.pow_le_mono_l. pose proof (Z.log2_nonneg n). lia.
Qed.

Lemma digits_nonempty (fuel : nat) (n : Z) (acc : string) :
  digits (S fuel) n acc <> EmptyString.
Proof.
  rewrite digits_app. cbn [digits].
  destruct (n / 10 =? 0); [discriminate|].
  rewrite digits_app. destruct (digits fuel (n / 10) EmptyString); discriminate.
Qed.

(** Reading back the decimal text of a second that is not negative. *)
Lemma str_of_int_value (n : Z) : 0 <= n -> parse_index (str_of_int n) = Some n.
Proof.
  intros Hn. unfold str_of_int. destruct (Z.ltb_spec n 0); [lia|].
  unfold parse_index.
  replace (Z.to_nat (Z.log2 n) + 1)%nat with (S (Z.to_nat (Z.log2 n))) by lia.
  destruct (digits (S (Z.to_nat (Z.log2 n))) n EmptyString) eqn:E.
  - now apply digits_nonempty in E.
  - rewrite <- E. apply digits_value.
    replace (S (Z.to_nat (Z.log2 n))) with (Z.to_nat (Z.log2 n) + 1)%nat by lia.
    split; [exact Hn | now apply fuel_enough].
Qed.

Lemma str_of_int_inj (a b : Z) : str_of_int a = str_of_int b -> a = b.
Proof.
  intros E.
  assert (Hneg : forall n, n < 0 -> str_of_int n = String "-" (str_of_int (- n))).
  { intros n Hn. unfold str_of_int. destruct (Z.ltb_spec n 0); [|lia].
    destruct (Z.ltb_spec (- n) 0); [lia | reflexivity]. }
  assert (Hpos : forall n, 0 <= n -> forall t, str_of_int n <> String "-" t).
  { intros n Hn t Et. pose proof (str_of_int_value n Hn) as Hv.
    rewrite Et in Hv. discriminate Hv. }
  destruct (Z.ltb_spec a 0) as [Ha | Ha]; destruct (Z.ltb_spec b 0) as [Hb | Hb].
  - rewrite (Hneg a Ha), (Hneg b Hb) in E. injection E as E.
    apply (f_equal parse_index) in E.
    rewrite !str_of_int_value in E by lia. injection E. lia.
  - rewrite (Hneg a Ha) in E. symmetry in E. now apply Hpos in E.
  - rewrite (Hneg b Hb) in E. now apply Hpos in E.
  - apply (f_equal parse_index) in E.
    rewrite !str_of_int_value in E by lia. now injection E.
Qed.

Lemma append_cancel_r (a b s : string) : a +++ s = b +++ s -> a = b.
Proof.
  assert (L : forall x y, String.length (x +++ y) = (String.length x + String.length y)%nat).
  { induction x as [|c x IH]; intros y; simpl; [reflexivity | now rewrite IH]. }
  revert b. induction a as [|c a IH]; intros [|d b] E; simpl in E.
  - reflexivity.
  - apply (f_equal String.length) in E. simpl in E. rewrite L in E. lia.
  - apply (f_equal String.length) in E. simpl in E. rewrite L in E. lia.
  - injection E as -> E. f_equal. now apply IH.
Qed.

End DecimalFacts.

(** ** The files [generate] reports *)

Module ViewerFacts.
Import Str StrFacts Num RequestFacts OutcomeFacts PathFacts DecimalFacts.

Section WithHost.
Context {W : Type} `{Host W} {U : Unicode}.


End WithHost.

Import Demo.


End ViewerFacts.

(** ** The model browser reads the names [generate] writes *)

Module BrowserFacts.
Import Str StrFacts Num Path PathFacts DecimalFacts.

Lemma contains_char (c x : ascii) (s : string) :
  contains (String c EmptyString) (String x s)
  = (Ascii.eqb c x || contains (String c EmptyString) s)%bool.
Proof. cbn [contains startswith]. now rewrite andb_true_r. Qed.

Lemma contains_char_app (c : ascii) (a b : string) :
  contains (String c EmptyString) (a +++ b)
  = (contains (String c EmptyString) a || contains (String c EmptyString) b)%bool.
Proof.
  induction a as [|x a IH]; [reflexivity|].
  cbn [String.append]. rewrite !contains_char, IH. now rewrite orb_assoc.
Qed.

Lemma split_on_free (c : ascii) (s : string) :
  contains (String c EmptyString) s = false -> split_on c s = [s].
Proof.
  induction s as [|x s IH]; intros Hs; [reflexivity|].
  rewrite contains_char in Hs. apply orb_false_iff in Hs as [Hx Hs].
  cbn [split_on]. rewrite Ascii.eqb_sym, Hx, (IH Hs). reflexivity.
Qed.

Lemma split_on_first (c : ascii) (a b : string) :
  contains (String c EmptyString) a = false ->
  split_on c (a +++ String c b) = a :: split_on c b.
Proof.
  induction a as [|x a IH]; intros Ha.
  - cbn [String.append split_on]. now rewrite Ascii.eqb_refl.
  - rewrite contains_char in Ha. apply orb_false_iff in Ha as [Hx Ha].
    cbn [String.append split_on]. rewrite Ascii.eqb_sym, Hx, (IH Ha). reflexivity.
Qed.

Lemma digits_free (c : ascii) (fuel : nat) (n : Z) (acc : string) :
  Mesh.is_digit c = false ->
  contains (String c EmptyString) acc = false ->
  contains (String c EmptyString) (digits fuel n acc) = false.
Proof.
  intros Hc. revert n acc. induction fuel as [|fuel IH]; intros n acc Ha;
    cbn [digits]; [exact Ha|].
  assert (Ha' : contains (String c EmptyString) (String (digit (n mod 10)) acc) = false).
  { rewrite contains_char, Ha, orb_false_r.
    destruct (Ascii.eqb_spec c (digit (n mod 10))) as [-> | Hne]; [|reflexivity].
    assert (Hm : 0 <= n mod 10 < 10) by (apply Z.mod_pos_bound; lia).
    destruct (digit_value _ Hm) as [Hd _]. congruence. }
  destruct (n / 10 =? 0); [exact Ha' | now apply IH].
Qed.

Lemma str_of_int_free (c : ascii) (n : Z) :
  Mesh.is_digit c = false -> 0 <= n ->
  contains (String c EmptyString) (str_of_int n) = false.
Proof.
  intros Hc Hn. unfold str_of_int. destruct (Z.ltb_spec n 0); [lia|].
  now apply digits_free.
Qed.

Section WithPython.
Variable int_of_text : string -> option Z.
Variable format_time : Z -> option string.

(** X18: the model browser of model_viewer.py against the file names the
    two front ends write.  Given that [int] reads back the decimal text of
    a number that is not negative, the date shown for a model file
    [model_<second>.obj], in whatever directory, is the formatted second the
    file was named after ("Unknown date" when [localtime] rejects it).  For
    a file whose name holds no underscore the lookup [split("_")[1]] raises
    [IndexError], outside the [try]. *)
Theorem browser_reads_the_second
  (Hint : forall n, 0 <= n -> int_of_text (str_of_int n) = Some n)
  (dir : string) :
  (forall t, 0 <= t ->
     Browser.formatted_date int_of_text format_time
       (Path.join dir ("model_" +++ str_of_int t +++ ".obj"))
     = Some (match format_time t with
             | Some formatted => formatted
             | None => "Unknown date"
             end))
  /\ (forall name, slash_free name -> contains "_" name = false ->
        Browser.formatted_date int_of_text format_time (Path.join dir name) = None).
Proof.
  split.
  - intros t Ht. unfold Browser.formatted_date.
    rewrite artifact_basename by reflexivity.
    change ("model_" +++ str_of_int t +++ ".obj")
      with ("model" +++ String "_" (str_of_int t +++ ".obj")).
    rewrite split_on_first by reflexivity.
    rewrite (split_on_free "_" (str_of_int t +++ ".obj"))
      by (rewrite contains_char_app, str_of_int_free by (reflexivity || exact Ht);
          reflexivity).
    change (str_of_int t +++ ".obj") with (str_of_int t +++ String "." "obj").
    rewrite split_on_first by (apply str_of_int_free; [reflexivity | exact Ht]).
    rewrite (Hint t Ht). now destruct (format_time t).
  - intros name Hs Hu. unfold Browser.formatted_date.
    rewrite (basename_join dir name Hs), (split_on_free _ _ Hu). reflexivity.
Qed.

End WithPython.

Lemma browser_reads_the_second_witness :
  Browser.formatted_date Mesh.parse_index (fun t => Some (str_of_int t))
    (Path.join "/app/output" ("model_" +++ str_of_int 1700000000 +++ ".obj"))
  = Some (str_of_int 1700000000).
Proof.
  refine (proj1 (browser_reads_the_second Mesh.parse_index (fun t => Some (str_of_int t))
                   str_of_int_value "/app/output") 1700000000 _).
  lia.
Defined.

End BrowserFacts.

(** ** The drawing code never asks for an empty range or a reversed box *)

Module SafetyFacts.
Import Str Num OutFacts Render Safety.
(** *** Truncation *)

Lemma int_nonneg (q : Q) : (0 <= q)%Q -> 0 <= int q.
Proof.
  unfold int, Qle. destruct q as [n d]. cbn [Qnum Qden]. intros Hq.
  apply Z.quot_pos; lia.
Qed.

Lemma int_floor (q : Q) : (0 <= q)%Q -> int q = Qfloor q.
Proof.
  unfold int, Qle. destruct q as [n d]. cbn [Qnum Qden Qfloor]. intros Hq.
  apply Z.quot_div_nonneg; lia.
Qed.

Lemma int_mono (a b : Q) : (0 <= a)%Q -> (a <= b)%Q -> int a <= int b.
Proof.
  intros Ha Hab. rewrite !int_floor; [now apply Qfloor_resp_le | | exact Ha].
  now apply Qle_trans with a.
Qed.

(** *** The rules *)

Section Rules.
Context {W O : Type}.
Variable good : W -> Prop.
Variable P : O -> Prop.

Lemma sound_ret {A} (a : A) (Q : A -> Prop) : Q a -> sound good P (ret a) Q.
Proof. intros Hq w Hw. now repeat split. Qed.

Lemma sound_emit (o : O) (Q : unit -> Prop) : P o -> Q tt -> sound good P (emit o) Q.
Proof. intros Ho Hq w Hw. repeat split; [exact Hw | now repeat constructor | exact Hq]. Qed.

Lemma sound_bind {A B} (m : Out W O A) (k : A -> Out W O B)
  (Q : A -> Prop) (R : B -> Prop) :
  sound good P m Q -> (forall a, Q a -> sound good P (k a) R) ->
  sound good P (bind m k) R.
Proof.
  intros Hm Hk w Hw. destruct (Hm w Hw) as (Hg & Hc & Hq).
  destruct (Hk _ Hq _ Hg) as (Hg' & Hc' & Hr).
  rewrite after_bind, calls_bind, val_bind. repeat split; auto.
  apply Forall_app. now split.
Qed.

Lemma sound_weaken {A} (m : Out W O A) (Q Q' : A -> Prop) :
  sound good P m Q -> (forall a, Q a -> Q' a) -> sound good P m Q'.
Proof. intros Hm HQ w Hw. destruct (Hm w Hw) as (Hg & Hc & Hq). auto. Qed.

Lemma sound_for_each {A} (xs : list A) (body : A -> Out W O unit) :
  (forall x, In x xs -> sound good P (body x) (fun _ => True)) ->
  sound good P (for_each xs body) (fun _ => True).
Proof.
  induction xs as [|x xs IH]; intros Hb; cbn [for_each].
  - now apply sound_ret.
  - eapply sound_bind; [apply Hb; now left | intros _ _].
    apply IH. intros y Hy. apply Hb. now right.
Qed.

Lemma sound_collect {A B} (xs : list A) (f : A -> Out W O B) :
  (forall x, In x xs -> sound good P (f x) (fun _ => True)) ->
  sound good P (collect xs f) (fun _ => True).
Proof.
  induction xs as [|x xs IH]; intros Hf; cbn [collect].
  - now apply sound_ret.
  - eapply sound_bind; [apply Hf; now left | intros b _].
    eapply sound_bind; [apply IH; intros y Hy; apply Hf; now right | intros bs _].
    now apply sound_ret.
Qed.

End Rules.

Lemma sound_block {W A} (good : W -> Prop) (p : part) (m : Out W draw_call A)
  (Q : A -> Prop) :
  sound good (fun c => well_formed c = true) m Q ->
  sound good (fun o : op => well_formed (snd o) = true) (block p m) Q.
Proof.
  intros Hm w Hw. destruct (Hm w Hw) as (Hg & Hc & Hq).
  rewrite after_block, calls_block, val_block. repeat split; auto.
  unfold tag. apply Forall_map. exact Hc.
Qed.

(** *** Arithmetic side conditions *)

Lemma zq_le (a b : Z) : a <= b -> (inject_Z a <= inject_Z b)%Q.
Proof. now rewrite <- Zle_Qle. Qed.

Lemma zq_lt (a b : Z) : a < b -> (inject_Z a < inject_Z b)%Q.
Proof. now rewrite <- Zlt_Qlt. Qed.

(** Terms built from numerals alone. *)
#[local] Ltac closed_z z :=
  lazymatch z with
  | Z0 => idtac
  | Zpos _ => idtac
  | Zneg _ => idtac
  | img_width => idtac
  | img_height => idtac
  | Z.add ?a ?b => closed_z a; closed_z b
  | Z.sub ?a ?b => closed_z a; closed_z b
  | Z.mul ?a ?b => closed_z a; closed_z b
  | Z.div ?a ?b => closed_z a; closed_z b
  | Z.min ?a ?b => closed_z a; closed_z b
  | Z.max ?a ?b => closed_z a; closed_z b
  | Z.opp ?a => closed_z a
  | int ?q => closed_q q
  end
with closed_q q :=
  lazymatch q with
  | Qmake _ _ => idtac
  | inject_Z ?z => closed_z z
  | float ?z => closed_z z
  | Qplus ?a ?b => closed_q a; closed_q b
  | Qminus ?a ?b => closed_q a; closed_q b
  | Qmult ?a ?b => closed_q a; closed_q b
  | Qdiv ?a ?b => closed_q a; closed_q b
  | Qopp ?a => closed_q a
  | Qinv ?a => closed_q a
  end.

(** Z facts of the context, read over Q. *)
#[local] Ltac to_q :=
  cbv beta in *;
  unfold img_width, img_height in *;
  repeat match goal with
         | H : _ <= _ <= _ |- _ => destruct H
         | H : _ <= _ < _ |- _ => destruct H
         | H : _ < _ <= _ |- _ => destruct H
         | H : _ < _ < _ |- _ => destruct H
         end;
  repeat match goal with
         | H : (?a <= ?b)%Z |- _ => apply zq_le in H
         | H : (?a < ?b)%Z |- _ => apply zq_lt in H
         end;
  unfold float, Z.sub in *;
  rewrite ?inject_Z_plus, ?inject_Z_opp, ?inject_Z_mult in *;
  unfold Qminus in *; rewrite ?inject_Z_plus, ?inject_Z_opp in *;
  repeat match goal with
         | H : context [inject_Z (Zpos ?p)] |- _ =>
             change (inject_Z (Zpos p)) with (Zpos p # 1)%Q in H
         | H : context [inject_Z (Zneg ?p)] |- _ =>
             change (inject_Z (Zneg p)) with (Zneg p # 1)%Q in H
         | H : context [inject_Z Z0] |- _ =>
             change (inject_Z Z0) with 0%Q in H
         | |- context [inject_Z (Zpos ?p)] =>
             change (inject_Z (Zpos p)) with (Zpos p # 1)%Q
         | |- context [inject_Z (Zneg ?p)] =>
             change (inject_Z (Zneg p)) with (Zneg p # 1)%Q
         | |- context [inject_Z Z0] =>
             change (inject_Z Z0) with 0%Q
         end;
  unfold Qdiv in *;
  repeat match goal with
         | |- context [Qinv ?c] =>
             closed_q c;
             let v := eval vm_compute in (Qinv c) in
             change (Qinv c) with v
         | H : context [Qinv ?c] |- _ =>
             closed_q c;
             let v := eval vm_compute in (Qinv c) in
             change (Qinv c) with v in H
         end.

(** A Z expression that is not negative, read over Q. *)
#[local] Ltac znn :=
  cbv beta in *; unfold float, img_width, img_height in *;
  change 0%Q with (inject_Z 0); apply zq_le; lia.

#[local] Ltac zq :=
  cbv beta in *; unfold img_width, img_height in *;
  first [ solve [unfold float in *; apply zq_le; lia]
        | solve [unfold float in *; apply zq_le; Z.div_mod_to_equations; lia]
        | to_q; try lra ].

#[local] Ltac box :=
  cbn [well_formed ordered]; apply andb_true_iff; split; apply Qle_bool_iff; zq.

Section Stages.
Context {W : Type} `{Host W} {U : Unicode}.
Variable good : W -> Prop.
Hypothesis randint_good : forall a b w, good w -> a <= b ->
  a <= fst (randint a b w) <= b /\ good (snd (randint a b w)).
Hypothesis random_good : forall w, good w ->
  (0 <= fst (random w))%Q /\ (fst (random w) < 1)%Q /\ good (snd (random w)).

#[local] Notation "'fine'" := (sound good (fun c => well_formed c = true)).
#[local] Notation "'done'" := (fun _ => True).

Lemma sound_rand_int (a b : Z) : a <= b -> fine (rand_int a b) (fun v => a <= v <= b).
Proof.
  intros Hab w Hw. unfold rand_int. rewrite after_ask, calls_ask, val_ask.
  destruct (randint_good a b w Hw Hab) as [Hv Hg]. repeat split; auto; apply Hv.
Qed.

Lemma sound_rand : fine rand (fun r => (0 <= r)%Q /\ (r < 1)%Q).
Proof.
  intros w Hw. unfold rand. rewrite after_ask, calls_ask, val_ask.
  destruct (random_good w Hw) as (H0 & H1 & Hg). repeat split; auto.
Qed.

Lemma sound_uniform (a b : Q) : fine (uniform a b) done.
Proof.
  unfold uniform. eapply sound_bind; [apply sound_rand | intros r _].
  now apply sound_ret.
Qed.

(** One step of a drawing computation. *)
Ltac step :=
  lazymatch goal with
  | |- sound _ _ (ret _) _ => now apply sound_ret
  | |- sound _ _ (emit _) _ => apply sound_emit; [|exact I]
  | |- sound _ _ (bind (rand_int _ _) _) _ =>
      eapply sound_bind; [apply sound_rand_int | intros ? ?]
  | |- sound _ _ (bind rand _) _ =>
      eapply sound_bind; [apply sound_rand | intros ? [? ?]]
  | |- sound _ _ (bind (uniform _ _) _) _ =>
      eapply sound_bind; [apply sound_uniform | intros ? _]
  | |- sound _ _ (bind (emit _) _) _ =>
      apply sound_bind with (Q := fun _ => True);
      [apply sound_emit; [|exact I] | intros _ _]
  | |- sound _ _ (for_each _ _) _ => apply sound_for_each; intros ? ?
  | |- sound _ _ (collect _ _) _ => apply sound_collect; intros ? ?
  | |- sound _ _ (if ?b then _ else _) _ => destruct b
  | |- sound _ _ (let '(_, _) := ?x in _) _ => destruct x
  | |- sound _ _ (bind _ _) _ =>
      apply sound_bind with (Q := fun _ => True); [ | intros ? _]
  end.

(** The closed truncations of the context, computed. *)
Ltac ints :=
  repeat match goal with
         | H : context [int ?q] |- _ =>
             closed_q q;
             let v := eval vm_compute in (int q) in
             change (int q) with v in H
         | |- context [int ?q] =>
             closed_q q;
             let v := eval vm_compute in (int q) in
             change (int q) with v
         end.

(** The range asked of [randint] is not empty. *)
Ltac range_ok :=
  cbv beta in *; cbv zeta;
  lazymatch goal with
  | |- ?a <= ?b =>
      first [ closed_z a; closed_z b; vm_compute; discriminate
            | unfold img_width, img_height in *; ints; lia ]
  end.

Ltac wf :=
  first [ reflexivity | solve [vm_compute; reflexivity] | box ].

Ltac steps := repeat (step; cbv beta in * ).

(** A draw from [randint], named. *)
Tactic Notation "draw" ident(x) ident(Hx) :=
  eapply sound_bind; [apply sound_rand_int | intros x Hx; cbv beta in Hx];
  [try solve [range_ok] | ].

Tactic Notation "each" ident(x) ident(Hx) :=
  apply sound_for_each; intros x Hx.

Lemma sky_fine (ty : SceneType) : fine (draw_sky ty) done.
Proof. unfold draw_sky. steps. reflexivity. Qed.

Lemma mountain_fine (i : Z) : fine (draw_mountain i) done.
Proof.
  unfold draw_mountain. draw height Hh. draw width Hw. ints.
  draw x Hx.
  { assert (0 <= int (float width * 0.3)) by (apply int_nonneg; to_q; lra). ints. lia. }
  steps; try range_ok; try wf.
Qed.

Lemma mountains_fine : fine draw_mountains done.
Proof. unfold draw_mountains. each i Hi. apply mountain_fine. Qed.

Lemma sparkle_fine (i : Z) : fine (draw_sparkle i) done.
Proof. unfold draw_sparkle. steps; try range_ok; try wf. Qed.

Lemma in_range3_down (m r : Z) : In r (range3 m 0 (-5)) -> 0 < r <= m.
Proof.
  unfold range3. cbn [Z.ltb Z.compare Z.opp]. intros Hr.
  apply in_map_iff in Hr as (k & <- & Hk). apply in_seq in Hk.
  change (- (-5)) with 5 in Hk.
  destruct (Z.le_gt_cases m 0) as [Hm | Hm].
  - exfalso. assert (E : (m - 0 + 5 - 1) / 5 < 1).
    { apply Z.div_lt_upper_bound; lia. }
    lia.
  - assert (E : 5 * ((m - 0 + 5 - 1) / 5) <= m - 0 + 5 - 1).
    { apply Z.mul_div_le. lia. }
    lia.
Qed.

Lemma mist_fine (i : Z) : fine (draw_mist i) done.
Proof.
  unfold draw_mist. draw x Hx. draw y Hy. draw rx Hrx. draw ry Hry.
  each r Hr. apply in_range3_down in Hr.
  assert (Hm : 0 < Z.max rx ry) by lia.
  assert (Hratio : (0 <= float r / float (Z.max rx ry))%Q).
  { apply Qle_shift_div_l; to_q; lra. }
  assert (0 <= int (float rx * (float r / float (Z.max rx ry)))).
  { apply int_nonneg. apply Qmult_le_0_compat; [znn | exact Hratio]. }
  assert (0 <= int (float ry * (float r / float (Z.max rx ry)))).
  { apply int_nonneg. apply Qmult_le_0_compat; [znn | exact Hratio]. }
  steps; try range_ok. box.
Qed.

(** How far a tree stands from the middle of the canvas, as a share. *)
Lemma size_modifier_bounds (x : Z) :
  0 <= x <= 800 ->
  (0 <= 1.0 - Qabs (float x - float img_width / 2) / (float img_width * 0.8))%Q.
Proof.
  intros Hx.
  assert (Ha : (Qabs (float x - float img_width / 2) <= 400)%Q).
  { apply Qabs_Qle_condition. split; to_q; lra. }
  to_q. lra.
Qed.

(** The truncations of the goal that are not negative. *)
Ltac int_pos :=
  repeat match goal with
         | |- context [int ?q] =>
             lazymatch goal with
             | H : 0 <= int q |- _ => fail
             | _ => idtac
             end;
             assert (0 <= int q) by (apply int_nonneg; to_q; lra)
         end.

Lemma tree_fine (prompt : string) (i : Z) : fine (draw_tree prompt i) done.
Proof.
  unfold draw_tree. draw x Hx. cbv zeta.
  pose proof (size_modifier_bounds x Hx) as Hsm.
  set (sm := (1.0 - Qabs (float x - float img_width / 2) / (float img_width * 0.8))%Q) in *.
  draw height Hh.
  { apply int_mono; to_q; lra. }
  assert (Hh0 : 0 <= height).
  { assert (0 <= int (float img_height * 0.2 * sm)) by (apply int_nonneg; to_q; lra). lia. }
  draw r Hr.
  assert (Hw4 : 0 <= int (float height * 0.6 * 0.4)) by (apply int_nonneg; to_q; lra).
  assert (Hh25 : 0 <= int (float height * 0.25)) by (apply int_nonneg; to_q; lra).
  assert (Hsz : int (float height * 0.6 * 0.4) <= int (float height * 0.6 * 0.7))
    by (apply int_mono; to_q; lra).
  step; [box|].
  apply sound_bind with (Q := fun _ => True); [steps; range_ok | intros [[f0 f1] f2] _].
  each j Hj. draw dx Hdx. draw dy Hdy. draw size Hsize. draw cv Hcv.
  step. box.
Qed.

Lemma magic_fine (prompt : string) : fine (draw_magic prompt) done.
Proof.
  unfold draw_magic. step; [|now apply sound_ret].
  eapply sound_bind; [apply sound_for_each; intros; apply sparkle_fine | intros _ _].
  apply sound_for_each; intros; apply mist_fine.
Qed.

Lemma forest_fine (prompt : string) : fine (draw_forest prompt) done.
Proof. unfold draw_forest. each i Hi. apply tree_fine. Qed.

(** The dragon figure reads nothing from the host; its boxes are fixed. *)
Lemma dragon_fine (c : colour) : fine (draw_dragon_body c) done.
Proof.
  intros w Hw. destruct (RenderFacts.dragon_figure_fixed c w w) as (_ & -> & _).
  split; [exact Hw|]. split; [|exact I].
  destruct c as [[c0 c1] c2]. apply List.Forall_forall. apply forallb_forall.
  vm_compute. reflexivity.
Qed.

Lemma flame_fine : fine draw_flame done.
Proof.
  unfold draw_flame, fire_outline. steps; try range_ok; try wf.
Qed.

Lemma fire_fine (prompt : string) : fine (draw_fire prompt) done.
Proof.
  unfold draw_fire. step; [apply flame_fine|].
  apply sound_bind with (Q := fun _ => True); [apply sound_weaken with (1 := sound_rand); auto|].
  intros r _. step; [apply flame_fine | now apply sound_ret].
Qed.

Lemma in_range3_up (a b r : Z) : In r (range3 a b 5) -> a <= r.
Proof.
  unfold range3. cbn [Z.ltb Z.compare]. intros Hr.
  apply in_map_iff in Hr as (k & <- & _). lia.
Qed.

Lemma space_fine (pl : string) (c : colour) : fine (draw_space pl c) done.
Proof.
  unfold draw_space. destruct c as [[c0 c1] c2].
  apply sound_bind with (Q := fun _ => True).
  { each i Hi. draw x Hx. draw y Hy.
    apply sound_bind with (1 := sound_rand). intros r [Hr0 Hr1].
    draw brightness Hb. step. box. }
  intros _ _. draw px Hpx. draw py Hpy. draw ps Hps.
  step; [box|]. step; [|now apply sound_ret].
  each rs Hrs. apply in_range3_up in Hrs. step. box.
Qed.

Lemma building_fine (pl : string) (base_y x : Z) : fine (draw_building pl base_y x) done.
Proof.
  unfold draw_building. draw bw Hbw. draw bh Hbh. draw b0 Hb0. draw b1 Hb1. draw b2 Hb2.
  step; [box|]. step; [|now apply sound_ret].
  each wy Hwy. each wx Hwx. steps; try wf.
Qed.

Lemma city_fine (pl : string) : fine (draw_city pl) done.
Proof.
  unfold draw_city. draw step_ Hstep.
  apply sound_bind with (Q := fun _ => True);
    [each x Hx; apply building_fine | intros _ _].
  step; [wf|].
  apply sound_bind with (Q := fun _ => True); [each x Hx; step; box | intros _ _].
  each i Hi. draw lx Hlx. draw ly Hly. draw ls Hls. steps; try wf.
Qed.

Lemma robot_fine (c : colour) : fine (draw_robot c) done.
Proof.
  unfold draw_robot. destruct c as [[c0 c1] c2]. cbv zeta.
  do 8 (step; [wf|]).
  each i Hi. draw dx Hdx. draw dy Hdy. draw ds Hds. steps; try wf.
Qed.

Lemma caption_fine (prompt : string) : fine (draw_caption prompt) done.
Proof. unfold draw_caption. steps; wf. Qed.

#[local] Notation "'fine_op'" := (sound good (fun o : op => well_formed (snd o) = true)).

Lemma additional_fine (ty : SceneType) (pl : string) (c : colour) :
  fine_op (draw_additional ty pl c) done.
Proof.
  unfold draw_additional.
  repeat match goal with
         | |- sound _ _ (if ?b then _ else _) _ => destruct b
         end;
    try (apply sound_block; first [apply space_fine | apply city_fine | apply robot_fine]).
  now apply sound_ret.
Qed.

Lemma create_ai_image_fine (prompt : string) : fine_op (create_ai_image prompt) done.
Proof.
  unfold create_ai_image. cbv zeta.
  apply sound_bind with (Q := fun _ => True); [apply sound_block, sky_fine | intros _ _].
  apply sound_bind with (Q := fun _ => True); [apply sound_block, mountains_fine | intros _ _].
  apply sound_bind with (Q := fun _ => True); [apply sound_block, forest_fine | intros _ _].
  apply sound_bind with (Q := fun _ => True); [apply sound_block, magic_fine | intros _ _].
  apply sound_bind with (Q := fun _ => True); [apply sound_block, dragon_fine | intros _ _].
  apply sound_bind with (Q := fun _ => True); [apply sound_block, fire_fine | intros _ _].
  apply sound_bind with (Q := fun _ => True); [apply additional_fine | intros _ _].
  apply sound_block, caption_fine.
Qed.

(** main.py *)

Lemma main_sky_fine : fine RenderMain.draw_sky done.
Proof. unfold RenderMain.draw_sky. steps. reflexivity. Qed.

Lemma main_tree_fine (prompt : string) (i : Z) : fine (RenderMain.draw_tree prompt i) done.
Proof.
  unfold RenderMain.draw_tree. draw x Hx. cbv zeta.
  pose proof (size_modifier_bounds x Hx) as Hsm.
  set (sm := (1.0 - Qabs (float x - float img_width / 2) / (float img_width * 0.8))%Q) in *.
  draw height Hh.
  { apply int_mono; to_q; lra. }
  assert (Hh0 : 0 <= height).
  { assert (0 <= int (float img_height * 0.2 * sm)) by (apply int_nonneg; to_q; lra). lia. }
  draw r Hr. draw t0 Ht0. draw t1 Ht1. draw t2 Ht2.
  assert (Hw3 : 0 <= int (float height * 0.6 * 0.3)) by (apply int_nonneg; to_q; lra).
  assert (Hh2 : 0 <= int (float height * 0.2)) by (apply int_nonneg; to_q; lra).
  assert (Hw4 : 0 <= int (float height * 0.6 * 0.4)) by (apply int_nonneg; to_q; lra).
  assert (Hsz : int (float height * 0.6 * 0.4) <= int (float height * 0.6 * 0.7))
    by (apply int_mono; to_q; lra).
  step; [box|].
  apply sound_bind with (Q := fun _ => True);
    [steps; range_ok | intros [[f0 f1] f2] _].
  each j Hj. draw dx Hdx. draw dy Hdy. draw size Hsize.
  step. box.
Qed.

Lemma main_forest_fine (prompt : string) : fine (RenderMain.draw_forest prompt) done.
Proof. unfold RenderMain.draw_forest. each i Hi. apply main_tree_fine. Qed.

Lemma main_dragon_fine (c : colour) : fine (RenderMain.draw_dragon_body c) done.
Proof.
  intros w Hw. unfold after, calls, val. rewrite (FlameFacts.main_dragon_raises c w).
  cbn [fst snd]. split; [exact Hw|]. split; [|exact I].
  repeat constructor; vm_compute; reflexivity.
Qed.

Lemma main_caption_fine (prompt : string) : fine (RenderMain.draw_caption prompt) done.
Proof. unfold RenderMain.draw_caption. steps; wf. Qed.

Lemma create_dragon_forest_image_fine (prompt : string) :
  fine_op (RenderMain.create_dragon_forest_image prompt) done.
Proof.
  unfold RenderMain.create_dragon_forest_image. cbv zeta.
  apply sound_bind with (Q := fun _ => True); [apply sound_block, main_sky_fine | intros _ _].
  apply sound_bind with (Q := fun _ => True); [apply sound_block, mountains_fine | intros _ _].
  apply sound_bind with (Q := fun _ => True); [apply sound_block, main_forest_fine | intros _ _].
  apply sound_bind with (Q := fun _ => True); [apply sound_block, magic_fine | intros _ _].
  unfold and_then.
  apply sound_bind with (Q := fun _ => True);
    [apply sound_block, main_dragon_fine | intros [[]|] _; [|now apply sound_ret]].
  apply sound_bind with (Q := fun _ => True); [apply sound_block, fire_fine | intros _ _].
  apply sound_bind with (Q := fun _ => True);
    [apply sound_block, main_caption_fine | intros _ _].
  now apply sound_ret.
Qed.

End Stages.

Section WithHost.
Context {W : Type} `{Host W} {U : Unicode}.

(** X19: neither renderer ever asks [random.randint] for an empty range or
    hands Pillow a box with its corners reversed.  Given a generator that
    keeps [randint(a, b)] within [a..b] whenever [a <= b] and [random()]
    within [0, 1), for every prompt: run on the host that records empty
    ranges, [create_ai_image] and [create_dragon_forest_image] end with
    nothing recorded; and every ellipse, rectangle and arc either of them
    draws has [x0 <= x1] and [y0 <= y1]. *)
Theorem rendering_is_safe (Hlaw : lawful W) (prompt : string) (w : W) :
  let w0 := {| inner := w; empty_range := false |} in
  empty_range (after (@create_ai_image _ checked_host _ prompt) w0) = false
  /\ empty_range (after (@RenderMain.create_dragon_forest_image _ checked_host _ prompt) w0)
     = false
  /\ Forall (fun o => well_formed (snd o) = true) (calls (create_ai_image prompt) w)
  /\ Forall (fun o => well_formed (snd o) = true)
            (calls (RenderMain.create_dragon_forest_image prompt) w).
Proof.
  destruct Hlaw as [Hri Hrand]. cbv zeta.
  assert (G1 : forall a b (w : checked W), empty_range w = false -> a <= b ->
            a <= fst (@randint _ checked_host a b w) <= b
            /\ empty_range (snd (@randint _ checked_host a b w)) = false).
  { intros a b [v flag] Hf Hab. cbn in *. subst flag. split; [now apply Hri|].
    cbn. apply Z.ltb_ge. exact Hab. }
  assert (G2 : forall w : checked W, empty_range w = false ->
            (0 <= fst (@random _ checked_host w))%Q
            /\ (fst (@random _ checked_host w) < 1)%Q
            /\ empty_range (snd (@random _ checked_host w)) = false).
  { intros [v flag] Hf. cbn in *. destruct (Hrand v) as [H0 H1]. now repeat split. }
  assert (P1 : forall a b (w : W), True -> a <= b ->
            a <= fst (randint a b w) <= b /\ True).
  { intros a b v _ Hab. split; [now apply Hri | exact I]. }
  assert (P2 : forall w : W, True ->
            (0 <= fst (random w))%Q /\ (fst (random w) < 1)%Q /\ True).
  { intros v _. destruct (Hrand v) as [H0 H1]. now repeat split. }
  split; [|split; [|split]].
  - apply (@create_ai_image_fine _ checked_host _ _ G1 G2 prompt). reflexivity.
  - apply (@create_dragon_forest_image_fine _ checked_host _ _ G1 G2 prompt). reflexivity.
  - apply (create_ai_image_fine (fun _ => True) P1 P2 prompt w I).
  - apply (create_dragon_forest_image_fine (fun _ => True) P1 P2 prompt w I).
Qed.

End WithHost.

Import Demo.

Lemma demo_lawful : lawful Demo.world.
Proof.
  split.
  - intros a b w Hab. cbn. pose proof (Z.mod_pos_bound (Demo.seed w * 7919) (b - a + 1)).
    lia.
  - intros w. cbn.
    pose proof (Z.mod_pos_bound (Demo.seed w * 7) 10 eq_refl) as Hm.
    unfold Qle, Qlt, Qdiv, Qmult, Qinv, inject_Z. cbn. lia.
Qed.

Lemma rendering_is_safe_witness :
  empty_range (after (@create_ai_image _ checked_host _ "a robot in a city at night")
                     {| inner := Demo.boot 0; empty_range := false |}) = false.
Proof.
  refine (proj1 (rendering_is_safe demo_lawful "a robot in a city at night" (Demo.boot 0))).
Defined.

End SafetyFacts.

(** ** Every colour the drawing code hands over, up to the wing *)

Module InkFacts.
Import Str Num OutFacts Render Safety SafetyFacts.

Section WithHost.
Context {W : Type} `{Host W} {U : Unicode}.

#[local] Notation "'inked'" :=
  (sound (fun _ : W => True) (fun c => accepted c = true)).
#[local] Notation "'inked_op'" :=
  (sound (fun _ : W => True) (fun o : op => accepted (snd o) = true)).
#[local] Notation "'done'" := (fun _ => True).

Lemma inked_ask {A} (f : W -> A * W) : inked (ask f) done.
Proof. intros w _. rewrite calls_ask. now repeat split. Qed.

Lemma inked_block {A} (p : part) (m : Out W draw_call A) :
  inked m done -> inked_op (block p m) done.
Proof.
  intros Hm w Hw. destruct (Hm w Hw) as (_ & Hc & _).
  rewrite calls_block. repeat split; auto.
  unfold tag. apply Forall_map. exact Hc.
Qed.

#[local] Ltac ink_step :=
  lazymatch goal with
  | |- sound _ _ (ret _) _ => now apply sound_ret
  | |- sound _ _ (emit _) _ => apply sound_emit; [reflexivity | exact I]
  | |- sound _ _ (ask _) _ => apply inked_ask
  | |- sound _ _ (for_each _ _) _ => apply sound_for_each; intros ? _
  | |- sound _ _ (collect _ _) _ => apply sound_collect; intros ? _
  | |- sound _ _ (if ?b then _ else _) _ => destruct b
  | |- sound _ _ (let '(_, _) := ?x in _) _ => destruct x
  | |- sound _ _ (bind _ _) _ =>
      apply sound_bind with (Q := fun _ => True); [ | intros ? _]
  end.

#[local] Ltac inks := unfold uniform; unfold rand_int, rand; cbv zeta; repeat ink_step.

Lemma sky_inked (ty : SceneType) : inked (draw_sky ty) done.
Proof. unfold draw_sky. inks. Qed.

Lemma mountains_inked : inked draw_mountains done.
Proof. unfold draw_mountains, draw_mountain. inks. Qed.

Lemma forest_inked (prompt : string) : inked (draw_forest prompt) done.
Proof. unfold draw_forest, draw_tree. inks. Qed.

Lemma magic_inked (prompt : string) : inked (draw_magic prompt) done.
Proof. unfold draw_magic, draw_sparkle, draw_mist. inks. Qed.

Lemma dragon_inked (c : colour) : inked (draw_dragon_body c) done.
Proof.
  intros w Hw. split; [exact I|]. split; [|exact I].
  destruct c as [[c0 c1] c2]. apply List.Forall_forall. apply forallb_forall.
  vm_compute. reflexivity.
Qed.

Lemma fire_inked (prompt : string) : inked (draw_fire prompt) done.
Proof. unfold draw_fire, draw_flame, fire_outline, flame_layer. inks. Qed.

Lemma additional_inked (ty : SceneType) (pl : string) (c : colour) :
  inked_op (draw_additional ty pl c) done.
Proof.
  unfold draw_additional. destruct c as [[c0 c1] c2].
  repeat match goal with
         | |- sound _ _ (if ?b then _ else _) _ => destruct b
         end;
    try (apply inked_block;
         unfold draw_space, draw_city, draw_building, draw_robot; inks).
  now apply sound_ret.
Qed.

Lemma caption_inked (prompt : string) : inked (draw_caption prompt) done.
Proof. unfold draw_caption. inks. Qed.

Lemma create_ai_image_inked (prompt : string) : inked_op (create_ai_image prompt) done.
Proof.
  unfold create_ai_image. cbv zeta.
  apply sound_bind with (Q := fun _ => True); [apply inked_block, sky_inked | intros _ _].
  apply sound_bind with (Q := fun _ => True); [apply inked_block, mountains_inked | intros _ _].
  apply sound_bind with (Q := fun _ => True); [apply inked_block, forest_inked | intros _ _].
  apply sound_bind with (Q := fun _ => True); [apply inked_block, magic_inked | intros _ _].
  apply sound_bind with (Q := fun _ => True); [apply inked_block, dragon_inked | intros _ _].
  apply sound_bind with (Q := fun _ => True); [apply inked_block, fire_inked | intros _ _].
  apply sound_bind with (Q := fun _ => True); [apply additional_inked | intros _ _].
  apply inked_block, caption_inked.
Qed.

Lemma main_forest_inked (prompt : string) : inked (RenderMain.draw_forest prompt) done.
Proof. unfold RenderMain.draw_forest, RenderMain.draw_tree. inks. Qed.

Lemma main_sky_inked : inked RenderMain.draw_sky done.
Proof. unfold RenderMain.draw_sky. inks. Qed.

Lemma main_dragon_inked (c : colour) : inked (RenderMain.draw_dragon_body c) done.
Proof.
  intros w Hw. unfold calls. rewrite (FlameFacts.main_dragon_raises c w).
  cbn [fst snd]. split; [exact I|]. split; [|exact I].
  repeat constructor.
Qed.

Lemma main_caption_inked (prompt : string) : inked (RenderMain.draw_caption prompt) done.
Proof. unfold RenderMain.draw_caption. inks. Qed.

Lemma create_dragon_forest_image_inked (prompt : string) :
  inked_op (RenderMain.create_dragon_forest_image prompt) done.
Proof.
  unfold RenderMain.create_dragon_forest_image, and_then. cbv zeta.
  apply sound_bind with (Q := fun _ => True); [apply inked_block, main_sky_inked | intros _ _].
  apply sound_bind with (Q := fun _ => True); [apply inked_block, mountains_inked | intros _ _].
  apply sound_bind with (Q := fun _ => True);
    [apply inked_block, main_forest_inked | intros _ _].
  apply sound_bind with (Q := fun _ => True); [apply inked_block, magic_inked | intros _ _].
  apply sound_bind with (Q := fun _ => True);
    [apply inked_block, main_dragon_inked | intros [[]|] _; [|now apply sound_ret]].
  apply sound_bind with (Q := fun _ => True); [apply inked_block, fire_inked | intros _ _].
  apply sound_bind with (Q := fun _ => True);
    [apply inked_block, main_caption_inked | intros _ _].
  now apply sound_ret.
Qed.

(** X21: the colours the two renderers hand to Pillow.  Every call
    [create_ai_image] of test_app.py makes, for every prompt and whatever
    the generator delivers, carries colours that are tuples of integers:
    none of its calls is refused.  The calls [create_dragon_forest_image] of
    main.py gets through before it raises all carry such colours too, so the
    polygon of the left wing, with its colour of floats, is the first call
    Pillow refuses. *)
Theorem colours_handed_to_pillow (prompt : string) (w : W) :
  Forall (fun o => accepted (snd o) = true) (calls (create_ai_image prompt) w)
  /\ Forall (fun o => accepted (snd o) = true)
            (calls (RenderMain.create_dragon_forest_image prompt) w)
  /\ val (RenderMain.create_dragon_forest_image prompt) w = None.
Proof.
  split; [apply (create_ai_image_inked prompt w I)|].
  split; [apply (create_dragon_forest_image_inked prompt w I)|].
  now destruct (FlameFacts.create_dragon_forest_image_raises prompt w)
    as (w1 & w2 & w3 & _ & Ev & _).
Qed.

End WithHost.
End InkFacts.

(** ** Resource fields of a schema *)

Module StubFacts.
Import StubSchema.

(** Induction over decoded JSON values. *)
Lemma json_induction (P : json -> Prop)
  (Hnull : P JNull) (Hbool : forall b, P (JBool b)) (Hnum : forall n, P (JNum n))
  (Hstr : forall s, P (JStr s))
  (Harr : forall l, List.Forall P l -> P (JArr l))
  (Hobj : forall m, List.Forall (fun kv => P (snd kv)) m -> P (JObj m)) :
  forall j, P j.
Proof.
  fix IH 1. intros [| b | n | s | l | m].
  - exact Hnull.
  - apply Hbool.
  - apply Hnum.
  - apply Hstr.
  - apply Harr. induction l as [|x l IHl]; constructor; [apply IH | exact IHl].
  - apply Hobj. induction m as [|kv m IHm]; constructor; [apply IH | exact IHm].
Qed.

Lemma get_member_none (key : string) (m : list (string * json)) :
  get_member key m = None <-> rebound key m = false.
Proof.
  unfold rebound. induction m as [|[k v] m IH]; cbn [get_member existsb fst].
  - tauto.
  - destruct (get_member key m) as [v'|].
    + split; [discriminate|]. intros E. apply orb_false_iff in E as [_ E].
      apply IH in E. discriminate.
    + rewrite (proj1 IH eq_refl), orb_false_r. destruct (String.eqb k key); split;
        congruence.
Qed.

(** The items of the dictionary are its visible members. *)
Lemma get_member_some (key : string) (v : json) (m : list (string * json)) :
  get_member key m = Some v
  <-> exists a b, m = a ++ (key, v) :: b /\ rebound key b = false.
Proof.
  induction m as [|[k x] m IH]; cbn [get_member].
  - split; [discriminate|]. intros (a & b & E & _). now destruct a.
  - destruct (get_member key m) as [v'|] eqn:Eg.
    + split.
      * intros E. injection E as ->.
        destruct (proj1 IH eq_refl) as (a & b & -> & Hb).
        now exists ((k, x) :: a), b.
      * intros (a & b & E & Hb). destruct a as [|kv a]; cbn in E.
        -- injection E as -> -> ->. apply get_member_none in Hb. congruence.
        -- injection E as _ E. apply IH. now exists a, b.
    + split.
      * destruct (String.eqb_spec k key) as [-> | Hne]; [|discriminate].
        intros E. injection E as ->. exists [], m.
        split; [reflexivity | now apply get_member_none].
      * intros (a & b & E & Hb). destruct a as [|kv a]; cbn in E.
        -- injection E as -> -> ->. now rewrite String.eqb_refl.
        -- injection E as _ E. exfalso.
           assert (Hs : None = Some v) by (apply IH; now exists a, b).
           discriminate.
Qed.

Lemma list_answer (l : list json) :
  has_resource_fields (JArr l) = true
  <-> exists item, In item l /\ has_resource_fields item = true.
Proof.
  cbn [has_resource_fields]. induction l as [|x l IH].
  - split; [discriminate | intros (item & [] & _)].
  - rewrite orb_true_iff, IH. split.
    + intros [E | (item & Hin & E)]; [exists x | exists item]; split; auto;
        [now left | now right].
    + intros (item & [<- | Hin] & E); [now left | right; now exists item].
Qed.

Lemma dict_answer (m : list (string * json)) :
  has_resource_fields (JObj m) = true
  <-> exists a key value b,
        m = a ++ (key, value) :: b /\ rebound key b = false
        /\ ((key = "resource" /\ truthy value = true)
            \/ (is_container value = true /\ has_resource_fields value = true)).
Proof.
  cbn [has_resource_fields]. induction m as [|[k v] m IH].
  - split; [discriminate|]. intros (a & key & value & b & E & _). now destruct a.
  - rewrite orb_true_iff, IH, andb_true_iff, orb_true_iff, !andb_true_iff,
      negb_true_iff. split.
    + intros [(Hb & Hv) | (a & key & value & b & -> & Hb & Hv)].
      * exists [], k, v, m. split; [reflexivity|]. split; [exact Hb|].
        destruct Hv as [[Hk Ht] | Hc]; [left | right; exact Hc].
        apply String.eqb_eq in Hk. now split.
      * now exists ((k, v) :: a), key, value, b.
    + intros (a & key & value & b & E & Hb & Hv). destruct a as [|kv a]; cbn in E.
      * injection E as -> -> ->. left. split; [exact Hb|].
        destruct Hv as [[-> Ht] | Hc]; [left | right; exact Hc].
        split; [apply String.eqb_refl | exact Ht].
      * injection E as _ ->. right. now exists a, key, value, b.
Qed.

Lemma answer_needs_container (v : json) :
  has_resource_fields v = true -> is_container v = true.
Proof. destruct v; try discriminate; reflexivity. Qed.

(** X20: [Stub._has_resource_fields] of core/stub.py answers [True] exactly
    for a schema that holds, at some depth of dictionaries and lists, a
    dictionary whose "resource" item is truthy; the values of other items
    are searched only when they are dictionaries or lists, and a schema
    that is neither is never a match. *)
Theorem has_resource_fields_spec (schema : json) :
  has_resource_fields schema = true <-> resourceful schema.
Proof.
  induction schema as [| b | n | s | l IH | m IH] using json_induction;
    try (split; [discriminate | intros Hr; inversion Hr]).
  - rewrite list_answer. rewrite List.Forall_forall in IH. split.
    + intros (item & Hin & E). apply (resource_inside _ item Hin). now apply IH.
    + intros Hr. inversion Hr as [| |l' item Hin Hitem]; subst.
      exists item. split; [exact Hin | now apply IH].
  - rewrite dict_answer. rewrite List.Forall_forall in IH. split.
    + intros (a & key & value & b & -> & Hb & Hv).
      assert (Hg : get_member key (a ++ (key, value) :: b) = Some value)
        by (apply get_member_some; now exists a, b).
      destruct Hv as [[-> Ht] | [_ E]].
      * now apply (resource_here _ value).
      * apply (resource_under _ key value Hg).
        apply (IH (key, value)); [|exact E]. apply in_or_app. right. now left.
    + intros Hr. inversion Hr as [m' value Hg Ht | m' key value Hg Hv|]; subst.
      * apply get_member_some in Hg as (a & b & -> & Hb).
        exists a, "resource", value, b. split; [reflexivity|]. split; [exact Hb|].
        left. now split.
      * apply get_member_some in Hg as (a & b & -> & Hb).
        assert (E : has_resource_fields value = true).
        { apply (IH (key, value)); [|exact Hv]. apply in_or_app. right. now left. }
        exists a, key, value, b. split; [reflexivity|]. split; [exact Hb|].
        right. split; [now apply answer_needs_container | exact E].
Qed.

End StubFacts.
